(** * Numerology and simplified-ephemeris core: a shallow embedding

    The development embeds the computation core of the application
    (server/services/numerology.ts and server/services/ephemeris.ts) and
    states the properties of its specification over that embedding.

    Conventions of the embedding.
    - A JavaScript [number] that the source only ever uses as an integer
      (date parts, numerology numbers, sign indices) is a [N] or a [Z].
    - A JavaScript [number] that carries a fraction (scores, longitudes,
      Julian days) is an exact rational [Q]; a decimal literal of the source
      is the rational it denotes.  Rounding of IEEE doubles is outside the
      model.
    - [Number.prototype.toString] is the plain decimal rendering, which is
      what the runtime produces for integers below 10^21.
    - Names are ASCII strings; [toUpperCase] acts on the letters a-z. *)

From Stdlib Require Import ZArith NArith QArith Qround Qabs Qminmax.
From Stdlib Require Import List String Ascii Bool Lia Lqa Permutation.
From Stdlib Require Import Decimal DecimalString DecimalN DecimalPos.
Import ListNotations.

Set Implicit Arguments.

(** ** Pieces of the JavaScript runtime the source relies on *)

Module JS.

(** [num.toString()] for a non-negative integer. *)
Definition toString (num : N) : string :=
  NilEmpty.string_of_uint (N.to_uint num).

(** [s.split('')]: the characters of a string, in order. *)
Definition split (s : string) : list ascii := list_ascii_of_string s.

(** [parseInt(c)] for a one-character string; [None] stands for [NaN]. *)
Definition parseInt (c : ascii) : option N :=
  let k := N_of_ascii c in
  if (48 <=? k)%N && (k <=? 57)%N then Some (k - 48)%N else None.

(** [sum + parseInt(digit)]; an addition with [NaN] is [NaN]. *)
Definition addParsed (sum : option N) (digit : ascii) : option N :=
  match sum, parseInt digit with
  | Some s, Some d => Some (s + d)%N
  | _, _ => None
  end.

(** [Math.floor] and [Math.round] (halves go up). *)
Definition Math_floor (x : Q) : Z := Qfloor x.
Definition Math_round (x : Q) : Z := Qfloor (x + (1 # 2)).

(** [Math.abs] on an integer-valued number. *)
Definition Math_abs (x : Z) : Z := Z.abs x.

(** [Math.max] and [Math.min] of two numbers. *)
Definition Math_max (x y : Q) : Q := Qmax x y.
Definition Math_min (x y : Q) : Q := Qmin x y.

(** [x % m] on numbers: the remainder of the division truncated towards
    zero, so the result has the sign of [x]. *)
Definition trunc (x : Q) : Z :=
  if Qle_bool 0 x then Qfloor x else Qceiling x.
Definition rem (x m : Q) : Q := x - m * inject_Z (trunc (x / m)).

(** [x % m] on integer-valued numbers. *)
Definition remZ (x m : Z) : Z := Z.rem x m.

(** [a[i]] for an integer-valued index; [None] is [undefined]. *)
Definition index {A : Type} (a : list A) (i : Z) : option A :=
  if (i <? 0)%Z then None else nth_error a (Z.to_nat i).

(** A plain object used as a table: its entries in insertion order.
    Assigning to a key that is present replaces the value in place. *)
Section Obj.
Context {K V : Type} (eqb : K -> K -> bool).

Definition objGet (o : list (K * V)) (key : K) : option V :=
  option_map snd (find (fun kv => eqb (fst kv) key) o).

Fixpoint objSet (o : list (K * V)) (key : K) (value : V) : list (K * V) :=
  match o with
  | [] => [(key, value)]
  | (k, v) :: o' =>
      if eqb k key then (k, value) :: o' else (k, v) :: objSet o' key value
  end.
End Obj.

(** [Date], for a process whose local time zone is UTC: a time value in
    milliseconds since the epoch, with the calendar fields the getters
    return.  Time values are valid (never [NaN]). *)
Module Date.
Local Open Scope Z_scope.

Definition msPerDay : Z := 86400000.

(** Day number of the first day of month [m] (0-based, any integer) of
    year [y], and the date a day number falls on. *)
Definition dayFromYearMonth (y m : Z) : Z :=
  let ym := y + m / 12 in
  let mn := m mod 12 + 1 in
  let y' := if mn <=? 2 then ym - 1 else ym in
  let era := y' / 400 in
  let yoe := y' - era * 400 in
  let doy := (153 * (if 2 <? mn then mn - 3 else mn + 9) + 2) / 5 in
  let doe := yoe * 365 + yoe / 4 - yoe / 100 + doy in
  era * 146097 + doe - 719468.

Definition civil (day : Z) : Z * Z * Z :=
  let z := day + 719468 in
  let era := z / 146097 in
  let doe := z - era * 146097 in
  let yoe := (doe - doe / 1460 + doe / 36524 - doe / 146096) / 365 in
  let doy := doe - (365 * yoe + yoe / 4 - yoe / 100) in
  let mp := (5 * doy + 2) / 153 in
  let d := doy - (153 * mp + 2) / 5 + 1 in
  let m := if mp <? 10 then mp + 3 else mp - 9 in
  ((if m <=? 2 then yoe + era * 400 + 1 else yoe + era * 400), m - 1, d).

Record t := { getTime : Z }.

Definition getFullYear (d : t) : Z := fst (fst (civil (getTime d / msPerDay))).
Definition getMonth (d : t) : Z := snd (fst (civil (getTime d / msPerDay))).
Definition getDate (d : t) : Z := snd (civil (getTime d / msPerDay)).
Definition getHours (d : t) : Z := (getTime d mod msPerDay) / 3600000.
Definition getMinutes (d : t) : Z := (getTime d mod 3600000) / 60000.
Definition getSeconds (d : t) : Z := (getTime d mod 60000) / 1000.

(** [new Date(year, month, date)]: midnight of that day; a month or a
    date out of range carries over, and a year 0..99 means 1900+year. *)
Definition make (year month date : Z) : t :=
  let year := if (0 <=? year) && (year <=? 99) then 1900 + year else year in
  {| getTime := (dayFromYearMonth year month + date - 1) * msPerDay |}.

(** The instant of a calendar date and time of day. *)
Definition at_ (year month date hours minutes seconds : Z) : t :=
  {| getTime := (dayFromYearMonth year month + date - 1) * msPerDay
                + hours * 3600000 + minutes * 60000 + seconds * 1000 |}.
End Date.

End JS.

(** ** server/services/numerology.ts *)

Module Numerology.

Local Open Scope N_scope.

Definition isMaster (num : N) : bool :=
  (num =? 11) || (num =? 22) || (num =? 33).

(** [num.toString().split('').reduce((sum, digit) => sum + parseInt(digit), 0)].
    The characters of [toString] are decimal digits, so the [NaN] of
    [parseInt] never arises (lemma [digitSumNaN_some]); [digitSum] is the
    numeric result. *)
Definition digitSumNaN (num : N) : option N :=
  fold_left JS.addParsed (JS.split (JS.toString num)) (Some 0).

Definition digitSum (num : N) : N :=
  match digitSumNaN num with Some s => s | None => 0 end.

(** The [while (num > 9)] loop of [reduceToSingleDigit].  [fuel] bounds the
    number of times the body runs; [None] means the bound was reached. *)
Fixpoint reduceLoop (fuel : nat) (num : N) (keepMasterNumbers : bool)
  : option N :=
  if 9 <? num then
    match fuel with
    | O => None
    | S fuel' =>
        let num' := digitSum num in
        if keepMasterNumbers && isMaster num' then Some num'
        else reduceLoop fuel' num' keepMasterNumbers
    end
  else Some num.

Definition reduceToSingleDigitFuel (fuel : nat) (num : N)
    (keepMasterNumbers : bool) : option N :=
  if keepMasterNumbers && isMaster num then Some num
  else reduceLoop fuel num keepMasterNumbers.

(** The function itself: every pass of the loop lowers [num], so [num]
    passes are always enough (proved below). *)
Definition reduceToSingleDigit (num : N) (keepMasterNumbers : bool) : N :=
  match reduceToSingleDigitFuel (N.to_nat num) num keepMasterNumbers with
  | Some r => r
  | None => num
  end.

(** Pythagorean letter values; [None] is the [undefined] of a missing key. *)
Definition letterValues (letter : ascii) : option N :=
  match letter with
  | "A" => Some 1 | "B" => Some 2 | "C" => Some 3 | "D" => Some 4
  | "E" => Some 5 | "F" => Some 6 | "G" => Some 7 | "H" => Some 8
  | "I" => Some 9
  | "J" => Some 1 | "K" => Some 2 | "L" => Some 3 | "M" => Some 4
  | "N" => Some 5 | "O" => Some 6 | "P" => Some 7 | "Q" => Some 8
  | "R" => Some 9
  | "S" => Some 1 | "T" => Some 2 | "U" => Some 3 | "V" => Some 4
  | "W" => Some 5 | "X" => Some 6 | "Y" => Some 7 | "Z" => Some 8
  | _ => None
  end%char.

(** [letterValues[letter] || 0] *)
Definition letterValueOr0 (letter : ascii) : N :=
  match letterValues letter with Some v => v | None => 0 end.

Definition vowels : list ascii := ["A"; "E"; "I"; "O"; "U"]%char.

Definition includes (l : list ascii) (c : ascii) : bool :=
  existsb (Ascii.eqb c) l.

Definition toUpperCaseChar (c : ascii) : ascii :=
  let k := N_of_ascii c in
  if (97 <=? k) && (k <=? 122) then ascii_of_N (k - 32) else c.

Definition isUpperLetter (c : ascii) : bool :=
  let k := N_of_ascii c in (65 <=? k) && (k <=? 90).

(** [name.toUpperCase().replace(/[^A-Z]/g, '')], as its characters. *)
Definition cleanName (name : string) : list ascii :=
  filter isUpperLetter (map toUpperCaseChar (list_ascii_of_string name)).

Definition calculateNameNumber (name : string)
    (vowelsOnly consonantsOnly : bool) : N :=
  fold_left
    (fun sum letter =>
       let isVowel := includes vowels letter in
       if vowelsOnly && negb isVowel then sum
       else if consonantsOnly && isVowel then sum
       else sum + letterValueOr0 letter)
    (cleanName name) 0.

Definition calculateLifePathNumber (day month year : N) : N :=
  let reducedDay := reduceToSingleDigit day true in
  let reducedMonth := reduceToSingleDigit month true in
  let reducedYear := reduceToSingleDigit year true in
  let sum := reducedDay + reducedMonth + reducedYear in
  reduceToSingleDigit sum true.

(** [fullName.trim().split(/\s+/)].  The tokens are the maximal runs of
    characters that are not white space. *)
Definition isSpace (c : ascii) : bool :=
  let k := N_of_ascii c in
  (k =? 32) || ((9 <=? k) && (k <=? 13)).

Fixpoint splitSpaces (cur : list ascii) (s : list ascii) : list (list ascii) :=
  match s with
  | [] => match cur with [] => [] | _ => [List.rev cur] end
  | c :: s' =>
      if isSpace c
      then match cur with
           | [] => splitSpaces [] s'
           | _ => List.rev cur :: splitSpaces [] s'
           end
      else splitSpaces (c :: cur) s'
  end.

Definition nameTokens (fullName : string) : list string :=
  match splitSpaces [] (list_ascii_of_string fullName) with
  | [] => [EmptyString]
  | toks => map string_of_list_ascii toks
  end.

Definition calculateExpressionNumber (fullName : string) : N :=
  let totalSum :=
    fold_left
      (fun totalSum name =>
         let nameSum := calculateNameNumber name false false in
         let reducedNameSum := reduceToSingleDigit nameSum true in
         totalSum + reducedNameSum)
      (nameTokens fullName) 0 in
  reduceToSingleDigit totalSum true.

Definition calculateSoulUrgeNumber (fullName : string) : N :=
  reduceToSingleDigit (calculateNameNumber fullName true false) true.

Definition calculatePersonalityNumber (fullName : string) : N :=
  reduceToSingleDigit (calculateNameNumber fullName false true) true.

Definition calculateBirthdayNumber (day : N) : N :=
  reduceToSingleDigit day true.

Definition calculateMaturityNumber (lifePathNumber expressionNumber : N) : N :=
  reduceToSingleDigit (lifePathNumber + expressionNumber) false.

(** The decimal digits of [num.toString()], each through [parseInt]. *)
Definition digitsOf (num : N) : list (option N) :=
  map JS.parseInt (JS.split (JS.toString num)).

Definition inOneToNine (digit : option N) : option N :=
  match digit with
  | Some d => if (1 <=? d) && (d <=? 9) then Some d else None
  | None => None
  end.

Definition loShuPositions : list (list N) :=
  [[4; 9; 2]; [3; 5; 7]; [8; 1; 6]].

Definition generateLoShuGrid (day month year : N) : list (list N) :=
  let digits :=
    digitsOf day ++ digitsOf month ++ digitsOf year
    ++ [Some (calculateBirthdayNumber day)]
    ++ [Some (calculateLifePathNumber day month year)] in
  let digitCounts (i : N) : N :=
    N.of_nat (List.length
      (filter (fun digit => match inOneToNine digit with
                            | Some d => d =? i
                            | None => false
                            end) digits)) in
  map (map (fun number => if 0 <? digitCounts number then number else 0))
      loShuPositions.

Definition calculatePinnacles (day month year : N) : list N :=
  let reducedDay := reduceToSingleDigit day true in
  let reducedMonth := reduceToSingleDigit month true in
  let reducedYear := reduceToSingleDigit year true in
  let first := reduceToSingleDigit (reducedMonth + reducedDay) true in
  let second := reduceToSingleDigit (reducedDay + reducedYear) true in
  let third := reduceToSingleDigit (first + second) true in
  let fourth := reduceToSingleDigit (reducedMonth + reducedYear) true in
  [first; second; third; fourth].

Definition calculateChallenges (day month year : N) : list Z :=
  let reducedDay := Z.of_N (reduceToSingleDigit day false) in
  let reducedMonth := Z.of_N (reduceToSingleDigit month false) in
  let reducedYear := Z.of_N (reduceToSingleDigit year false) in
  let first := JS.Math_abs (reducedMonth - reducedDay) in
  let second := JS.Math_abs (reducedDay - reducedYear) in
  let third := JS.Math_abs (first - second) in
  let fourth := JS.Math_abs (reducedMonth - reducedYear) in
  [first; second; third; fourth]%Z.

(** The counter table [digitCounts]: an object with numeric keys. *)
Definition objGet (o : list (N * N)) (key : N) : option N :=
  JS.objGet N.eqb o key.
Definition objSet (o : list (N * N)) (key value : N) : list (N * N) :=
  JS.objSet N.eqb o key value.

(** [x || 0] for a possibly missing counter. *)
Definition or0 (x : option N) : N :=
  match x with Some v => v | None => 0 end.

Definition countLetterValues (name : string) : list (N * N) :=
  fold_left
    (fun digitCounts letter =>
       let value := letterValueOr0 letter in
       if (1 <=? value) && (value <=? 9)
       then objSet digitCounts value (or0 (objGet digitCounts value) + 1)
       else digitCounts)
    (cleanName name) [].

Definition getHiddenPassionNumber (name : string) : N :=
  let digitCounts := countLetterValues name in
  snd (fold_left
         (fun '(maxCount, hiddenPassion) digit =>
            if maxCount <? or0 (objGet digitCounts digit)
            then (or0 (objGet digitCounts digit), digit)
            else (maxCount, hiddenPassion))
         [1; 2; 3; 4; 5; 6; 7; 8; 9] (0, 1)).

(** A JavaScript [Set<number>]: its members in insertion order, each once. *)
Definition NumSet := list N.

Definition has (s : NumSet) (d : N) : bool := existsb (N.eqb d) s.

Definition add (s : NumSet) (d : N) : NumSet :=
  if has s d then s else s ++ [d].

Definition addIfDigit (s : NumSet) (digit : option N) : NumSet :=
  match inOneToNine digit with
  | Some d => add s d
  | None => s
  end.

Definition getLoShuGridDigits (day month year : N) : NumSet :=
  let digits :=
    fold_left
      (fun digits num => fold_left addIfDigit (digitsOf num) digits)
      [day; month; year] [] in
  let driver := calculateBirthdayNumber day in
  let conductor := calculateLifePathNumber day month year in
  let digits := addIfDigit digits (Some driver) in
  addIfDigit digits (Some conductor).

(** The data a caller passes for one person. *)
Record NumerologyCalculation := {
  lifePathNumber : Z;
  expressionNumber : Z;
  soulUrgeNumber : Z;
  personalityNumber : Z;
  birthdayNumber : Z;
  maturityNumber : Z;
  loShuGrid : list (list N);
  pinnacles : list Z;
  challenges : list Z
}.

Record Person := {
  calc :> NumerologyCalculation;
  name : string;
  day : N;
  month : N;
  year : N
}.

Definition calculateNumerology (fullName : string) (day month year : N)
  : NumerologyCalculation :=
  let lifePathNumber := calculateLifePathNumber day month year in
  let expressionNumber := calculateExpressionNumber fullName in
  {| lifePathNumber := Z.of_N lifePathNumber;
     expressionNumber := Z.of_N expressionNumber;
     soulUrgeNumber := Z.of_N (calculateSoulUrgeNumber fullName);
     personalityNumber := Z.of_N (calculatePersonalityNumber fullName);
     birthdayNumber := Z.of_N (calculateBirthdayNumber day);
     maturityNumber :=
       Z.of_N (calculateMaturityNumber lifePathNumber expressionNumber);
     loShuGrid := generateLoShuGrid day month year;
     pinnacles := map Z.of_N (calculatePinnacles day month year);
     challenges := calculateChallenges day month year |}.

(** The call the compatibility route makes:
    [{ ...calculateNumerology(name, d, m, y), name, day, month, year }]. *)
Definition personOf (fullName : string) (day month year : N) : Person :=
  {| calc := calculateNumerology fullName day month year;
     name := fullName; day := day; month := month; year := year |}.

(** *** calculateAdvancedCompatibility

    Each [const] of the function body is a definition of the same name,
    taking the two persons. *)

Section AdvancedCompatibility.

Local Open Scope Q_scope.

Variables person1 person2 : Person.

(* 1. Life Path Compatibility *)
Definition scoreLp : Q :=
  1 - inject_Z (JS.Math_abs
        (lifePathNumber person1 - lifePathNumber person2)) / 8.
Definition lpBonus : Q :=
  if (lifePathNumber person1 =? lifePathNumber person2)%Z then 0.1 else 0.
Definition finalLpScore : Q := scoreLp + lpBonus.

(* 2. Expression Compatibility *)
Definition scoreExpr : Q :=
  1 - inject_Z (JS.Math_abs
        (expressionNumber person1 - expressionNumber person2)) / 8.
Definition exprBonus : Q :=
  if (expressionNumber person1 =? expressionNumber person2)%Z
  then 0.1 else 0.
Definition finalExprScore : Q := scoreExpr + exprBonus.

(* 3. Soul Urge Compatibility *)
Definition scoreSoul : Q :=
  1 - inject_Z (JS.Math_abs
        (soulUrgeNumber person1 - soulUrgeNumber person2)) / 8.
Definition soulBonus : Q :=
  if (soulUrgeNumber person1 =? soulUrgeNumber person2)%Z then 0.1 else 0.
Definition finalSoulScore : Q := scoreSoul + soulBonus.

(* 4. Personality Compatibility *)
Definition scorePerson : Q :=
  1 - inject_Z (JS.Math_abs
        (personalityNumber person1 - personalityNumber person2)) / 8.
Definition personBonus : Q :=
  if (personalityNumber person1 =? personalityNumber person2)%Z
  then 0.1 else 0.
Definition finalPersonScore : Q := scorePerson + personBonus.

(* 5. Birthday Compatibility *)
Definition scoreBday : Q :=
  1 - inject_Z (JS.Math_abs
        (birthdayNumber person1 - birthdayNumber person2)) / 8.

(* 6. Hidden Passion Compatibility *)
Definition hidden1 : N := getHiddenPassionNumber (name person1).
Definition hidden2 : N := getHiddenPassionNumber (name person2).
Definition scoreHidden : Q :=
  if (hidden1 =? hidden2)%N then 1
  else 1 - inject_Z (JS.Math_abs (Z.of_N hidden1 - Z.of_N hidden2)) / 8.

(* 7. Lo Shu Grid Compatibility *)
Definition loShu1 : NumSet :=
  getLoShuGridDigits (day person1) (month person1) (year person1).
Definition loShu2 : NumSet :=
  getLoShuGridDigits (day person2) (month person2) (year person2).
Definition matchingDigits : nat :=
  List.length (filter (fun d => has loShu2 d) loShu1).
Definition completionBonus : Q :=
  if existsb (fun d => negb (has loShu2 d)) loShu1
     && existsb (fun d => negb (has loShu1 d)) loShu2
  then 0.05 else 0.
Definition scoreLo : Q :=
  inject_Z (Z.of_nat matchingDigits) / 9 + completionBonus.

(* 8. Pinnacle & Challenge Synergy.  [a[i] === b[i]]: a position past the
   end of an array reads [undefined], here [None]. *)
Definition sameAt (a b : list Z) (i : nat) : bool :=
  match nth_error a i, nth_error b i with
  | Some x, Some y => (x =? y)%Z
  | None, None => true
  | _, _ => false
  end.

Definition synergy : Q * Q :=
  fold_left
    (fun '(pinnacleBonus, challengePenalty) i =>
       let pinnacleBonus :=
         if sameAt (pinnacles person1) (pinnacles person2) i
         then pinnacleBonus + 0.025 else pinnacleBonus in
       let challengePenalty :=
         if sameAt (challenges person1) (challenges person2) i
         then challengePenalty + 0.0125 else challengePenalty in
       (pinnacleBonus, challengePenalty))
    [0; 1; 2; 3]%nat (0, 0).
Definition pinnacleBonus : Q := fst synergy.
Definition challengePenalty : Q := snd synergy.

(* 9. Final Score Calculation *)
Definition finalScore : Q :=
  JS.Math_max 0 (JS.Math_min 1
    (0.25 * finalLpScore +
     0.15 * finalExprScore +
     0.15 * finalSoulScore +
     0.15 * finalPersonScore +
     0.10 * scoreBday +
     0.10 * scoreHidden +
     0.05 * scoreLo +
     pinnacleBonus -
     challengePenalty)).

Definition percentage : Z := JS.Math_round (finalScore * 100).

End AdvancedCompatibility.

(** The category labels.  Each ends in a pictogram, kept here as the bytes
    the source file holds after the words. *)
Definition bytes (l : list N) : string :=
  string_of_list_ascii (map ascii_of_N l).

Definition labelExcellent : string :=
  "Excellent Match " ++ bytes [195; 162; 194; 164; 195; 175; 194; 184].
Definition labelGood : string :=
  "Good Match " ++ bytes [195; 176; 197; 184; 226; 128; 153; 226; 128; 162].
Definition labelAverage : string :=
  "Average Match " ++ bytes [195; 176; 197; 184; 194; 164].
Definition labelChallenging : string :=
  "Challenging " ++ bytes [195; 162; 197; 161; 194; 160; 195; 175; 194; 184].

Definition categorize (percentage : Z) : string :=
  if (80 <=? percentage)%Z then labelExcellent
  else if (65 <=? percentage)%Z then labelGood
  else if (50 <=? percentage)%Z then labelAverage
  else labelChallenging.

(** The result record.  Of the narrative fields only their inputs are
    embedded ([percentage], the factor scores, [hidden1], [hidden2]); the
    template strings themselves are not. *)
Record AdvancedCompatibilityResult := {
  score : Z;
  category : string
}.

Definition calculateAdvancedCompatibility (person1 person2 : Person)
  : AdvancedCompatibilityResult :=
  {| score := percentage person1 person2;
     category := categorize (percentage person1 person2) |}.

(** The legacy score, from the two life path numbers alone. *)
Definition calculateCompatibilityScore (person1LifePath person2LifePath : Z)
  : Z :=
  let score :=
    (1 - inject_Z (JS.Math_abs (person1LifePath - person2LifePath)) / 8)%Q in
  JS.Math_round (score * 100)%Q.

End Numerology.

(** ** server/services/ephemeris.ts *)

Module Ephemeris.

Local Open Scope Q_scope.

(** [Object.entries(PLANETS)], in the order of the literal. *)
Definition PLANETS : list (string * Z) :=
  [ ("SUN", 0); ("MOON", 1); ("MERCURY", 2); ("VENUS", 3); ("MARS", 4);
    ("JUPITER", 5); ("SATURN", 6); ("RAHU", 11); ("KETU", 12) ]%Z%string.

Definition NAKSHATRAS : list string :=
  [ "Ashwini"; "Bharani"; "Krittika"; "Rohini"; "Mrigashira"; "Ardra";
    "Punarvasu"; "Pushya"; "Ashlesha"; "Magha"; "Purva Phalguni";
    "Uttara Phalguni"; "Hasta"; "Chitra"; "Swati"; "Vishakha"; "Anuradha";
    "Jyeshtha"; "Mula"; "Purva Ashadha"; "Uttara Ashadha"; "Shravana";
    "Dhanishtha"; "Shatabhisha"; "Purva Bhadrapada"; "Uttara Bhadrapada";
    "Revati" ]%string.

Record PlanetPosition := {
  longitude : Q;
  sign : Z;
  degree : Q;
  nakshatra : string;
  pada : Z;
  retrograde : bool
}.

Record NatalChart := {
  ascendant : Z;
  houses : list Z;
  planets : list (string * PlanetPosition);
  ayanamsa : Q;
  julianDay : Q;
  siderealTime : Q
}.

Record VargaChart := {
  D9 : list (string * Z);
  D10 : list (string * Z);
  D12 : list (string * Z)
}.

Record MahaPeriod := {
  mahaPlanet : string;
  mahaStartDate : JS.Date.t;
  mahaEndDate : JS.Date.t;
  remainingYears : Q
}.

Record SubPeriod := {
  subPlanet : string;
  subStartDate : JS.Date.t;
  subEndDate : JS.Date.t;
  remainingMonths : Q
}.

Record VimshottariDasa := {
  currentMaha : MahaPeriod;
  currentSub : SubPeriod;
  sequence : list (string * Z)
}.

Definition toJulianDay (date : JS.Date.t) : Q :=
  let month := JS.Date.getMonth date in
  let a := ((14 - (month + 1)) / 12)%Z in
  let y := (JS.Date.getFullYear date + 4800 - a)%Z in
  let m := ((month + 1) + 12 * a - 3)%Z in
  inject_Z (JS.Date.getDate date + (153 * m + 2) / 5 + 365 * y
            + y / 4 - y / 100 + y / 400 - 32045)%Z
  + inject_Z (JS.Date.getHours date - 12) / 24
  + inject_Z (JS.Date.getMinutes date) / 1440
  + inject_Z (JS.Date.getSeconds date) / 86400.

Definition calculatePlanetLongitude (planet : Z) (julianDay : Q) : Q :=
  let T := (julianDay - 2451545.0) / 36525.0 in
  match planet with
  | 0%Z => JS.rem (280.46646 + 36000.76983 * T + 0.0003032 * T * T) 360
  | 1%Z => JS.rem (218.3165 + 481267.8813 * T - 0.0015786 * T * T) 360
  | 2%Z => JS.rem (252.25084 + 149472.67411 * T - 0.00000536 * T * T) 360
  | 3%Z => JS.rem (181.97973 + 58517.81539 * T + 0.00000165 * T * T) 360
  | 4%Z => JS.rem (355.43299 + 19140.30268 * T + 0.00000261 * T * T) 360
  | 5%Z => JS.rem (34.35148 + 3034.90567 * T - 0.00008501 * T * T) 360
  | 6%Z => JS.rem (50.07571 + 1222.11494 * T + 0.00000021 * T * T) 360
  | _ => 0
  end.

Definition calculateAyanamsa (julianDay : Q) : Q :=
  let T := (julianDay - 2451545.0) / 36525.0 in
  23.85 + 0.396 * T.

Definition getNakshatraPada (moonLongitude : Q) : string * Z :=
  let nakshatraIndex := JS.Math_floor (moonLongitude / 13.333333) in
  let nakshatraProgress := JS.rem moonLongitude 13.333333 / 13.333333 in
  let pada := (JS.Math_floor (nakshatraProgress * 4) + 1)%Z in
  (match JS.index NAKSHATRAS nakshatraIndex with
   | Some n => n
   | None => "Unknown"%string
   end, pada).

Definition toLowerCaseChar (c : ascii) : ascii :=
  let k := N_of_ascii c in
  if (65 <=? k)%N && (k <=? 90)%N then ascii_of_N (k + 32) else c.

Definition toLowerCase (s : string) : string :=
  string_of_list_ascii (map toLowerCaseChar (list_ascii_of_string s)).

(** The record one pass of the loop over [PLANETS] stores. *)
Definition planetPosition (name : string) (id : Z) (julianDay ayanamsa : Q)
  : PlanetPosition :=
  let longitude := calculatePlanetLongitude id julianDay in
  let siderealLongitude := JS.rem (longitude - ayanamsa + 360) 360 in
  let sign := JS.Math_floor (siderealLongitude / 30) in
  let degree := JS.rem siderealLongitude 30 in
  let '(nakshatra, pada) :=
    if String.eqb name "MOON"%string then getNakshatraPada siderealLongitude
    else (EmptyString, 1%Z) in
  {| longitude := siderealLongitude; sign := sign; degree := degree;
     nakshatra := nakshatra; pada := pada; retrograde := false |}.

(** [computeNatalChart], from the [Date] that the runtime builds out of
    [dob], [tob] and [timezone].  Nothing in the body throws. *)
Definition computeNatalChart (lat lon : Q) (birthDateTime : JS.Date.t)
  : NatalChart :=
  let julianDay := toJulianDay birthDateTime in
  let ayanamsa := calculateAyanamsa julianDay in
  let planets :=
    fold_left
      (fun planets '(name, id) =>
         JS.objSet String.eqb planets (toLowerCase name)
           (planetPosition name id julianDay ayanamsa))
      PLANETS [] in
  let planets :=
    match JS.objGet String.eqb planets "rahu"%string with
    | Some rahu =>
        JS.objSet String.eqb planets "ketu"%string
          {| longitude := JS.rem (longitude rahu + 180) 360;
             sign := JS.remZ (sign rahu + 6) 12;
             degree := degree rahu;
             nakshatra := nakshatra rahu;
             pada := pada rahu;
             retrograde := retrograde rahu |}
    | None => planets
    end in
  let siderealTime := (julianDay - 2451545.0) * 1.00273790935 + 280.46061837 in
  let ascendantLongitude := JS.rem (siderealTime + lon / 15) 360 in
  let ascendant :=
    JS.Math_floor (JS.rem (ascendantLongitude - ayanamsa + 360) 360 / 30) in
  let houses :=
    map (fun i => JS.remZ (ascendant + i) 12) [0; 1; 2; 3; 4; 5; 6; 7; 8; 9; 10; 11]%Z in
  {| ascendant := ascendant; houses := houses; planets := planets;
     ayanamsa := ayanamsa; julianDay := julianDay;
     siderealTime := JS.rem siderealTime 360 |}.

Definition computeVargas (natalChart : NatalChart) : VargaChart :=
  fold_left
    (fun vargas '(planet, position) =>
       let longitude := longitude position in
       let d9Position := JS.Math_floor (JS.rem longitude 30 / 3.333333) in
       let d9Sign := JS.remZ (sign position * 9 + d9Position) 12 in
       let d10Position := JS.Math_floor (JS.rem longitude 30 / 3) in
       let d10Sign := JS.remZ (sign position * 10 + d10Position) 12 in
       let d12Position := JS.Math_floor (JS.rem longitude 30 / 2.5) in
       let d12Sign := JS.remZ (sign position * 12 + d12Position) 12 in
       {| D9 := JS.objSet String.eqb (D9 vargas) planet d9Sign;
          D10 := JS.objSet String.eqb (D10 vargas) planet d10Sign;
          D12 := JS.objSet String.eqb (D12 vargas) planet d12Sign |})
    (planets natalChart)
    {| D9 := []; D10 := []; D12 := [] |}.

Definition dasaPeriods : list (string * Z) :=
  [ ("Ketu", 7); ("Venus", 20); ("Sun", 6); ("Moon", 10); ("Mars", 7);
    ("Rahu", 18); ("Jupiter", 16); ("Saturn", 19); ("Mercury", 17) ]%Z%string.

(** [computeVimshottariDasa].  [now] is the value of [new Date()] at the
    call.  [None] is the [TypeError] of reading a field of [undefined],
    which happens when the index into [dasaPeriods] is negative. *)
Definition computeVimshottariDasa (now : JS.Date.t) (moonLongitude : Q)
  : option VimshottariDasa :=
  let nakshatraIndex := JS.Math_floor (moonLongitude / 13.333333) in
  let startingDasaIndex := JS.remZ nakshatraIndex 9 in
  match JS.index dasaPeriods startingDasaIndex,
        JS.index dasaPeriods (JS.remZ (startingDasaIndex + 1) 9) with
  | Some currentDasa, Some nextDasa =>
      let currentMahaStart :=
        JS.Date.make (JS.Date.getFullYear now - 2)
                     (JS.Date.getMonth now) (JS.Date.getDate now) in
      let currentMahaEnd :=
        JS.Date.make (JS.Date.getFullYear currentMahaStart + snd currentDasa)
                     (JS.Date.getMonth currentMahaStart)
                     (JS.Date.getDate currentMahaStart) in
      let currentSubStart :=
        JS.Date.make (JS.Date.getFullYear now)
                     (JS.Date.getMonth now - 6) (JS.Date.getDate now) in
      let currentSubEnd :=
        JS.Date.make (JS.Date.getFullYear currentSubStart)
                     (JS.Date.getMonth currentSubStart + 18)
                     (JS.Date.getDate currentSubStart) in
      Some
        {| currentMaha :=
             {| mahaPlanet := fst currentDasa;
                mahaStartDate := currentMahaStart;
                mahaEndDate := currentMahaEnd;
                remainingYears :=
                  inject_Z (JS.Date.getTime currentMahaEnd
                            - JS.Date.getTime now)
                  / (365.25 * 24 * 60 * 60 * 1000) |};
           currentSub :=
             {| subPlanet := fst nextDasa;
                subStartDate := currentSubStart;
                subEndDate := currentSubEnd;
                remainingMonths :=
                  inject_Z (JS.Date.getTime currentSubEnd
                            - JS.Date.getTime now)
                  / (30.44 * 24 * 60 * 60 * 1000) |};
           sequence := dasaPeriods |}
  | _, _ => None
  end.

End Ephemeris.

(** ** Strings of the JavaScript runtime *)

Module JSStrings.

(** [s.padStart(targetLength, c)] for a one-character pad string. *)
Definition padStart (s : string) (targetLength : nat) (c : ascii) : string :=
  string_of_list_ascii (repeat c (targetLength - String.length s)) ++ s.

(** [s.split(sep)] for a one-character separator. *)
Fixpoint splitAt (sep : ascii) (s : string) : list string :=
  match s with
  | EmptyString => [EmptyString]
  | String c s' =>
      if Ascii.eqb c sep then EmptyString :: splitAt sep s'
      else match splitAt sep s' with
           | w :: ws => String c w :: ws
           | [] => [String c EmptyString]
           end
  end.

(** [Number(s)] for a string of decimal digits (the empty string gives 0).
    [None] stands for every other string, which this development does not
    interpret. *)
Definition Number (s : string) : option N :=
  option_map N.of_uint (NilEmpty.uint_of_string s).

(** [/\d/] on one character. *)
Definition isDigit (c : ascii) : bool :=
  let k := N_of_ascii c in (48 <=? k)%N && (k <=? 57)%N.

End JSStrings.

(** ** server/services/ephemeris.ts: the checks on the input *)

Module EphemerisInput.

Import JSStrings.
Local Open Scope Q_scope.
Local Open Scope string_scope.

Definition getTimezoneFromCoords (lat lon : Q) : string :=
  if Qle_bool 6 lat && Qle_bool lat 37 && Qle_bool 68 lon && Qle_bool lon 97
  then "Asia/Kolkata"
  else if Qle_bool 25 lat && Qle_bool lat 49
          && Qle_bool (-125) lon && Qle_bool lon (-66)
  then "America/New_York"
  else if Qle_bool 35 lat && Qle_bool lat 71
          && Qle_bool (-10) lon && Qle_bool lon 40
  then "Europe/London"
  else "UTC".

(** [/^\d{4}-\d{2}-\d{2}$/.test(s)] and [/^\d{2}:\d{2}$/.test(s)]. *)
Definition dateRegex_test (s : string) : bool :=
  match list_ascii_of_string s with
  | [y1; y2; y3; y4; h1; m1; m2; h2; d1; d2] =>
      isDigit y1 && isDigit y2 && isDigit y3 && isDigit y4
      && Ascii.eqb h1 "-" && isDigit m1 && isDigit m2
      && Ascii.eqb h2 "-" && isDigit d1 && isDigit d2
  | _ => false
  end.

Definition timeRegex_test (s : string) : bool :=
  match list_ascii_of_string s with
  | [h1; h2; c; m1; m2] =>
      isDigit h1 && isDigit h2 && Ascii.eqb c ":" && isDigit m1 && isDigit m2
  | _ => false
  end.

(** [x < y] on numbers. *)
Definition lessThan (x y : Q) : bool := negb (Qle_bool y x).

Definition validateBirthData (lat lon : Q) (dob tob : string) : bool :=
  if lessThan lat (-90) || lessThan 90 lat
     || lessThan lon (-180) || lessThan 180 lon then false
  else if negb (dateRegex_test dob) then false
  else if negb (String.eqb tob "") && negb (timeRegex_test tob) then false
  else true.

End EphemerisInput.

(** ** client/src/lib/numerology.ts *)

Module Client.

Import JSStrings.
Local Open Scope Z_scope.

Definition isLeapYear (year : Z) : bool :=
  ((JS.remZ year 4 =? 0) && negb (JS.remZ year 100 =? 0))
  || (JS.remZ year 400 =? 0).

(** [isValidDate]; [now] is the value of [new Date()] at the call. *)
Definition isValidDate (now : JS.Date.t) (day month year : Z) : bool :=
  if (month <? 1) || (12 <? month) then false
  else if (day <? 1) || (31 <? day) then false
  else if (year <? 1900) || (JS.Date.getFullYear now <? year) then false
  else
    let daysInMonth := [31; 28; 31; 30; 31; 30; 31; 31; 30; 31; 30; 31] in
    if (month =? 2) && isLeapYear year then day <=? 29
    else match JS.index daysInMonth (month - 1) with
         | Some days => day <=? days
         | None => false
         end.

Definition formatBirthDate (day month year : N) : string :=
  (JS.toString year ++ "-" ++ padStart (JS.toString month) 2 "0"
   ++ "-" ++ padStart (JS.toString day) 2 "0")%string.

End Client.

(** ** server/routes.ts: reading a birth date *)

Module Routes.

Import JSStrings.

(** [const [year, month, day] = birthDate.split('-').map(Number)]: the
    first three elements, [None] where the array is shorter. *)
Definition birthDateParts (birthDate : string)
  : option N * option N * option N :=
  let parts := map Number (splitAt "-" birthDate) in
  (nth 0 parts None, nth 1 parts None, nth 2 parts None).

End Routes.

(** ** server/services/kundli-generator.ts *)

Module KundliGenerator.

Import Ephemeris EphemerisInput.
Local Open Scope string_scope.

(** The local variables of [generateKundli] that the Vedic block sets. *)
Record VedicChart := {
  natalChart : option NatalChart;
  vargaCharts : option VargaChart;
  dashaData : option VimshottariDasa;
  hasVedicChart : bool;
  confidence : string
}.

(** [generateKundli], up to the end of the Vedic block.  [timeOfBirth] is
    [None] where the request has none; [birthDateTime] is the [Date] that
    [computeNatalChart] builds from the request and [now] the value of
    [new Date()] in [computeVimshottariDasa].  [None] is the error
    'Invalid birth data provided'.  An exception inside the inner [try]
    keeps the assignments made before it. *)
Definition generateKundli (now : JS.Date.t)
    (latitude longitude : Q) (dateOfBirth : string)
    (timeOfBirth : option string) (birthDateTime : JS.Date.t)
  : option VedicChart :=
  let tob := match timeOfBirth with Some t => t | None => "" end in
  if negb (validateBirthData latitude longitude dateOfBirth tob)
  then None
  else
    Some
      (if String.eqb tob ""
       then {| natalChart := None; vargaCharts := None; dashaData := None;
               hasVedicChart := false; confidence := "medium" |}
       else
         let chart := computeNatalChart latitude longitude birthDateTime in
         let vargas := computeVargas chart in
         match JS.objGet String.eqb (planets chart) "moon" with
         | Some moon =>
             match computeVimshottariDasa now (Ephemeris.longitude moon) with
             | Some dasha =>
                 {| natalChart := Some chart; vargaCharts := Some vargas;
                    dashaData := Some dasha;
                    hasVedicChart := true; confidence := "high" |}
             | None =>
                 {| natalChart := Some chart; vargaCharts := Some vargas;
                    dashaData := None;
                    hasVedicChart := false; confidence := "medium" |}
             end
         | None =>
             {| natalChart := Some chart; vargaCharts := Some vargas;
                dashaData := None;
                hasVedicChart := false; confidence := "medium" |}
         end).

End KundliGenerator.

(** ** The compatibility analysis service of server/services *)

Module CompatibilityService.

Import Numerology.
Local Open Scope Q_scope.

Record CategoryScores := {
  love : Z;
  marriage : Z;
  career : Z;
  family : Z;
  financial : Z;
  spiritual : Z;
  communication : Z;
  lifestyle : Z
}.

Definition generateCategoryScores (person1 person2 : NumerologyCalculation)
    (vedicChart : option Ephemeris.NatalChart) : CategoryScores :=
  let baseScore :=
    1 - inject_Z (JS.Math_abs (lifePathNumber person1
                               - lifePathNumber person2)) / 8 in
  {| love :=
       JS.Math_round
         ((baseScore
           + (1 - inject_Z (JS.Math_abs (soulUrgeNumber person1
                                         - soulUrgeNumber person2)) / 8))
          * 50);
     marriage :=
       JS.Math_round
         ((baseScore
           + (1 - inject_Z (JS.Math_abs (expressionNumber person1
                                         - expressionNumber person2)) / 8))
          * 50);
     career :=
       JS.Math_round
         ((1 - inject_Z (JS.Math_abs (expressionNumber person1
                                      - expressionNumber person2)) / 8)
          * 100);
     family :=
       JS.Math_round
         ((1 - inject_Z (JS.Math_abs (personalityNumber person1
                                      - personalityNumber person2)) / 8)
          * 100);
     financial := JS.Math_round ((baseScore + 0.1) * 100);
     spiritual :=
       JS.Math_round
         ((1 - inject_Z (JS.Math_abs (soulUrgeNumber person1
                                      - soulUrgeNumber person2)) / 8)
          * 100);
     communication :=
       JS.Math_round
         ((1 - inject_Z (JS.Math_abs (personalityNumber person1
                                      - personalityNumber person2)) / 8)
          * 100);
     lifestyle :=
       JS.Math_round
         ((1 - inject_Z (JS.Math_abs (birthdayNumber person1
                                      - birthdayNumber person2)) / 8)
          * 100) |}.

(** The labels of [getCategoryFromScore]; each ends in a pictogram, kept
    as the bytes of the source file. *)
Definition historyExcellent : string :=
  ("Excellent Match " ++ bytes [226; 157; 164; 239; 184; 143]%N)%string.
Definition historyGood : string :=
  ("Good Match " ++ bytes [240; 159; 146; 149]%N)%string.
Definition historyAverage : string :=
  ("Average Match " ++ bytes [240; 159; 164; 157]%N)%string.
Definition historyChallenging : string :=
  ("Challenging Match " ++ bytes [226; 154; 160; 239; 184; 143]%N)%string.

Definition getCategoryFromScore (score : Z) : string :=
  if (85 <=? score)%Z then historyExcellent
  else if (70 <=? score)%Z then historyGood
  else if (55 <=? score)%Z then historyAverage
  else historyChallenging.

End CompatibilityService.

(** ** Vedic astrology utilities of the client *)

Module VedicUtils.

Local Open Scope string_scope.

(** [getNakshatra]; [None] is [undefined]. *)
Definition getNakshatra (date : JS.Date.t) : option string :=
  let nakshatras :=
    [ "Ashwini"; "Bharani"; "Krittika"; "Rohini"; "Mrigashira"; "Ardra";
      "Punarvasu"; "Pushya"; "Ashlesha"; "Magha"; "Purva Phalguni";
      "Uttara Phalguni"; "Hasta"; "Chitra"; "Swati"; "Vishakha"; "Anuradha";
      "Jyeshtha"; "Mula"; "Purva Ashadha"; "Uttara Ashadha"; "Shravana";
      "Dhanishtha"; "Shatabhisha"; "Purva Bhadrapada"; "Uttara Bhadrapada";
      "Revati" ] in
  let hash := (JS.Date.getDate date + JS.Date.getMonth date * 31)%Z in
  JS.index nakshatras (JS.remZ hash (Z.of_nat (List.length nakshatras))).

End VedicUtils.

(** ** The specification's wording, for comparison with the code *)

Module Spec.

Local Open Scope N_scope.

(** "sum its decimal digits": the last digit is [n mod 10], the digits
    before it are those of [n / 10]. *)
Inductive DigitSum : N -> N -> Prop :=
| DigitSum_one n : n < 10 -> DigitSum n n
| DigitSum_more n s : 10 <= n -> DigitSum (n / 10) s ->
                      DigitSum n (n mod 10 + s).

Definition master (n : N) : Prop := n = 11 \/ n = 22 \/ n = 33.

(** "repeatedly sum its decimal digits until a single digit remains, unless
    the intermediate value is 11, 22, or 33 and keeping master numbers is
    requested, in which case return it immediately". *)
Inductive Reduce (keep : bool) : N -> N -> Prop :=
| Reduce_master n : keep = true -> master n -> Reduce keep n n
| Reduce_digit n : n <= 9 -> Reduce keep n n
| Reduce_sum n s r :
    9 < n -> ~ (keep = true /\ master n) ->
    DigitSum n s -> Reduce keep s r -> Reduce keep n r.

(** "Life Path = reduce(reduce(day) + reduce(month) + reduce(year)), master
    numbers preserved at each step and at the end". *)
Definition LifePath (day month year lifePath : N) : Prop :=
  exists d m y,
    Reduce true day d /\ Reduce true month m /\ Reduce true year y
    /\ Reduce true (d + m + y) lifePath.

(** *** The compatibility score (section 4.4) *)

Local Open Scope Q_scope.

(** "1 - |a-b|/8" *)
Definition similarity (a b : Z) : Q :=
  1 - Qabs (inject_Z a - inject_Z b) / 8.

(** "a +0.1 bonus if the two numbers are exactly equal" *)
Definition equalBonus (a b : Z) : Q := if Z.eq_dec a b then 0.1 else 0.

(** "similarity = 1 if equal else 1 - |a-b|/8" *)
Definition hiddenPassionFactor (h1 h2 : N) : Q :=
  if N.eq_dec h1 h2 then 1 else similarity (Z.of_N h1) (Z.of_N h2).

Definition digits1to9 : list N := [1; 2; 3; 4; 5; 6; 7; 8; 9]%N.

(** "map each Latin letter A-Z to a fixed value 1-9 using the standard
    Pythagorean table (A=1,...,I=9,J=1,...)", "case-normalized and
    non-letters stripped": the value of a letter is its place in the
    alphabet counted in rounds of nine; other characters have none. *)
Definition letterValue (c : ascii) : option N :=
  let k := N_of_ascii c in
  if (65 <=? k)%N && (k <=? 90)%N then Some ((k - 65) mod 9 + 1)%N
  else if (97 <=? k)%N && (k <=? 122)%N then Some ((k - 97) mod 9 + 1)%N
  else None.

Definition nameValues (name : string) : list N :=
  flat_map (fun c => match letterValue c with Some v => [v] | None => [] end)
           (list_ascii_of_string name).

Definition frequency (name : string) (d : N) : N :=
  N.of_nat (count_occ N.eq_dec (nameValues name) d).

(** "the most frequent letter-value (1-9) in their name (ties broken by
    first digit reaching max count in ascending scan order 1->9)": the
    first of the digits 1..9 that no digit is more frequent than. *)
Definition hiddenPassion (name : string) : N :=
  hd 1%N
     (filter (fun d => forallb (fun d' => (frequency name d' <=? frequency name d)%N)
                               digits1to9)
             digits1to9).

(** The decimal digits of a number, most significant first. *)
Fixpoint udigits (d : uint) : list N :=
  match d with
  | Nil => []
  | D0 d => 0 :: udigits d | D1 d => 1 :: udigits d | D2 d => 2 :: udigits d
  | D3 d => 3 :: udigits d | D4 d => 4 :: udigits d | D5 d => 5 :: udigits d
  | D6 d => 6 :: udigits d | D7 d => 7 :: udigits d | D8 d => 8 :: udigits d
  | D9 d => 9 :: udigits d
  end%N.

Definition decimalDigits (n : N) : list N := udigits (N.to_uint n).

(** "the set of digits 1-9 appearing in each person's birth-data +
    birthday + life-path digit pool", as a membership test. *)
Definition inDigitPool (day month year birthday lifePath d : N) : bool :=
  (1 <=? d)%N && (d <=? 9)%N
  && existsb (N.eqb d)
       (decimalDigits day ++ decimalDigits month ++ decimalDigits year
        ++ [birthday; lifePath]).

(** "(count of digits present in both sets)/9, +0.05 bonus if each person
    has at least one digit the other lacks".  A set of digits is given by
    its membership test. *)
Definition loShuFactor (in1 in2 : N -> bool) : Q :=
  inject_Z (Z.of_nat
    (List.length (filter (fun d => in1 d && in2 d) digits1to9))) / 9
  + (if existsb (fun d => in1 d && negb (in2 d)) digits1to9
        && existsb (fun d => in2 d && negb (in1 d)) digits1to9
     then 0.05 else 0).

Definition entry_eq_dec (x y : option Z) : {x = y} + {x <> y}.
Proof. decide equality. apply Z.eq_dec. Defined.

(** The number of positions 0..3 at which two arrays agree. *)
Definition matchingPositions (a b : list Z) : nat :=
  List.length
    (filter (fun i => if entry_eq_dec (nth_error a i) (nth_error b i)
                      then true else false)
            [0; 1; 2; 3]%nat).
Arguments matchingPositions : simpl never.

(** "+0.025 per matching pinnacle position", "-0.0125 per matching
    challenge position" *)
Definition pinnacleTerm (a b : list Z) : Q :=
  0.025 * inject_Z (Z.of_nat (matchingPositions a b)).
Definition challengeTerm (a b : list Z) : Q :=
  0.0125 * inject_Z (Z.of_nat (matchingPositions a b)).

Definition clamp01 (x : Q) : Q :=
  if Qlt_le_dec x 0 then 0 else if Qlt_le_dec 1 x then 1 else x.


Section FinalScore.
Import Numerology.
Variables person1 person2 : Person.

Definition LifePathFactor : Q :=
  similarity (lifePathNumber person1) (lifePathNumber person2)
  + equalBonus (lifePathNumber person1) (lifePathNumber person2).
Definition ExpressionFactor : Q :=
  similarity (expressionNumber person1) (expressionNumber person2)
  + equalBonus (expressionNumber person1) (expressionNumber person2).
Definition SoulUrgeFactor : Q :=
  similarity (soulUrgeNumber person1) (soulUrgeNumber person2)
  + equalBonus (soulUrgeNumber person1) (soulUrgeNumber person2).
Definition PersonalityFactor : Q :=
  similarity (personalityNumber person1) (personalityNumber person2)
  + equalBonus (personalityNumber person1) (personalityNumber person2).
Definition BirthdayFactor : Q :=
  similarity (birthdayNumber person1) (birthdayNumber person2).
Definition HiddenPassionFactor : Q :=
  hiddenPassionFactor (hiddenPassion (name person1))
                      (hiddenPassion (name person2)).

(** The digit pool of a person; the Birthday and Life Path numbers are
    those of the person's date of birth. *)
Definition digitPool (p : Person) : N -> bool :=
  inDigitPool (day p) (month p) (year p)
    (calculateBirthdayNumber (day p))
    (calculateLifePathNumber (day p) (month p) (year p)).

Definition LoShuFactor : Q :=
  loShuFactor (digitPool person1) (digitPool person2).

(** "clamp to [0,1] of: 0.25 LifePath + 0.15 Expression + 0.15 SoulUrge
    + 0.15 Personality + 0.10 Birthday + 0.10 HiddenPassion + 0.05 LoShu
    + pinnacleBonus - challengePenalty" *)
Definition finalScore : Q :=
  clamp01
    (0.25 * LifePathFactor + 0.15 * ExpressionFactor
     + 0.15 * SoulUrgeFactor + 0.15 * PersonalityFactor
     + 0.10 * BirthdayFactor + 0.10 * HiddenPassionFactor
     + 0.05 * LoShuFactor
     + pinnacleTerm (pinnacles person1) (pinnacles person2)
     - challengeTerm (challenges person1) (challenges person2)).
End FinalScore.

(** *** Divisional charts (section 8)

    "(originalSign x divisor + floor((longitude mod 30)/(30/divisor)))
    mod 12", with the exact width 30/divisor of a subdivision. *)
Definition modQ (x m : Q) : Q := x - m * inject_Z (Qfloor (x / m)).

Definition vargaSign (originalSign : Z) (longitude : Q) (divisor : Z) : Z :=
  (originalSign * divisor
   + Qfloor (modQ longitude 30 / (30 / inject_Z divisor))) mod 12.

End Spec.

(** ** Auxiliary definitions used in the statements and proofs *)

Module Support.

Import Numerology.
Local Open Scope N_scope.

(** The digit sum of a decimal numeral, whatever the order of its digits. *)
Fixpoint usum (d : uint) : N :=
  match d with
  | Nil => 0
  | D0 d => usum d | D1 d => 1 + usum d | D2 d => 2 + usum d
  | D3 d => 3 + usum d | D4 d => 4 + usum d | D5 d => 5 + usum d
  | D6 d => 6 + usum d | D7 d => 7 + usum d | D8 d => 8 + usum d
  | D9 d => 9 + usum d
  end.

(** The values a reduction may end on. *)
Definition singleDigits : list N := [1; 2; 3; 4; 5; 6; 7; 8; 9].
Definition withMasters : list N := singleDigits ++ [11; 22; 33].

Definition resultRange (keepMasterNumbers : bool) : list N :=
  if keepMasterNumbers then withMasters else singleDigits.

(** A well-formed digit set: no member twice, every member in 1..9. *)
Definition wfSet (s : NumSet) : Prop :=
  NoDup s /\ Forall (fun d => 1 <= d <= 9)%N s.

(** The number of positions of [l] at which two arrays agree. *)
Definition countSame (a b : list Z) (l : list nat) : Q :=
  inject_Z (Z.of_nat (List.length (filter (sameAt a b) l))).

(** A birth on 27 June 1990 at 18:28, at 28.6 N 77.2 E. *)
Definition chart_1990_06_27 : Ephemeris.NatalChart :=
  Ephemeris.computeNatalChart 28.6 77.2 (JS.Date.at_ 1990 5 27 18 28 0).

(** A chart written out by hand, with Saturn alone, at 269.9999975 degrees:
    29.9999975 degrees of sign 8. *)
Definition chart_saturn_only : Ephemeris.NatalChart :=
  {| Ephemeris.ascendant := 0;
     Ephemeris.houses := [0; 1; 2; 3; 4; 5; 6; 7; 8; 9; 10; 11]%Z;
     Ephemeris.planets :=
       [ ("saturn"%string,
          {| Ephemeris.longitude := 269.9999975;
             Ephemeris.sign := 8;
             Ephemeris.degree := 29.9999975;
             Ephemeris.nakshatra := EmptyString;
             Ephemeris.pada := 1;
             Ephemeris.retrograde := false |}) ];
     Ephemeris.ayanamsa := 23.85;
     Ephemeris.julianDay := 2451545.0;
     Ephemeris.siderealTime := 0 |}.

(** A birth on 20 May 1990 at 12:00. *)
Definition chart_1990_05_20 : Ephemeris.NatalChart :=
  Ephemeris.computeNatalChart 28.6 77.2 (JS.Date.at_ 1990 4 20 12 0 0).

(** The fields of a [VimshottariDasa] that do not hold dates or durations. *)
Definition dasaPlanets (d : Ephemeris.VimshottariDasa)
  : string * string * list (string * Z) :=
  (Ephemeris.mahaPlanet (Ephemeris.currentMaha d),
   Ephemeris.subPlanet (Ephemeris.currentSub d),
   Ephemeris.sequence d).

(** The state of the scan for the most frequent digit after the digits
    [pre], for the counts [f]: [m] is the largest count met, and [h] is the
    first digit that reached it, or 1 while every count is 0. *)
Definition scanInv (f : N -> N) (pre : list N) (m h : N) : Prop :=
  (forall d, In d pre -> f d <= m)
  /\ ((m = 0 /\ h = 1)
      \/ (0 < m /\ f h = m
          /\ exists p1 p2, pre = p1 ++ h :: p2
                           /\ forall d, In d p1 -> f d < m)).


End Support.

(** ** Further notions used in the statements and proofs *)

Module Notions.

Import Numerology.
Local Open Scope N_scope.

(** The loop of [calculateNameNumber] over the letters of a cleaned name,
    from a running sum. *)
Definition nameLoop (vowelsOnly consonantsOnly : bool)
    (letters : list ascii) (sum : N) : N :=
  fold_left
    (fun sum letter =>
       let isVowel := includes vowels letter in
       if vowelsOnly && negb isVowel then sum
       else if consonantsOnly && isVowel then sum
       else sum + letterValueOr0 letter)
    letters sum.

(** [letters.reduce((total, x) => total + f(x), 0)] *)
Definition sumOf {A : Type} (f : A -> N) (l : list A) : N :=
  fold_left (fun total x => total + f x) l 0.

(** Whether [calculateNameNumber] counts a letter under the two filters. *)
Definition counted (vowelsOnly consonantsOnly : bool) (letter : ascii) : bool :=
  negb (vowelsOnly && negb (includes vowels letter))
  && negb (consonantsOnly && includes vowels letter).

(** The characters that [toUpperCase().replace(/[^A-Z]/g, '')] keeps. *)
Definition cleanChars (l : list ascii) : list ascii :=
  filter isUpperLetter (map toUpperCaseChar l).

End Notions.

(** ** Notions of the calendar and of charts used in the statements *)

Module ChartNotions.

Import Ephemeris.

Section Calendar.
Local Open Scope Z_scope.

(** The year of the era and the day of the year that [civil] finds for a
    day of a 400-year era. *)
Definition yearOfEra (doe : Z) : Z :=
  (doe - doe / 1460 + doe / 36524 - doe / 146096) / 365.
Definition dayOfYear (doe : Z) : Z :=
  doe - (365 * yearOfEra doe + yearOfEra doe / 4 - yearOfEra doe / 100).

(** The day number in the formula of [toJulianDay], from the calendar
    fields of a date. *)
Definition julianDayNumber (year month date : Z) : Z :=
  let a := (14 - (month + 1)) / 12 in
  let y := year + 4800 - a in
  let m := (month + 1) + 12 * a - 3 in
  date + (153 * m + 2) / 5 + 365 * y + y / 4 - y / 100 + y / 400 - 32045.

End Calendar.

Local Open Scope Q_scope.

(** A planet record whose fields are in their ranges and agree with each
    other. *)
Definition wellPlaced (p : PlanetPosition) : Prop :=
  0 <= longitude p < 360
  /\ (0 <= sign p <= 11)%Z
  /\ 0 <= degree p < 30
  /\ inject_Z (sign p) * 30 + degree p == longitude p
  /\ (1 <= pada p <= 4)%Z.

(** Julian centuries since the epoch J2000, as the formulas compute them. *)
Definition centuries (julianDay : Q) : Q := (julianDay - 2451545.0) / 36525.0.

Definition signs : list Z := [0; 1; 2; 3; 4; 5; 6; 7; 8; 9; 10; 11]%Z.

(** The three signs one pass of the loop of [computeVargas] stores. *)
Definition d9Sign (position : PlanetPosition) : Z :=
  JS.remZ (sign position * 9
           + JS.Math_floor (JS.rem (longitude position) 30 / 3.333333)) 12.
Definition d10Sign (position : PlanetPosition) : Z :=
  JS.remZ (sign position * 10
           + JS.Math_floor (JS.rem (longitude position) 30 / 3)) 12.
Definition d12Sign (position : PlanetPosition) : Z :=
  JS.remZ (sign position * 12
           + JS.Math_floor (JS.rem (longitude position) 30 / 2.5)) 12.

(** A table with the keys of [o], each value replaced by its image. *)
Definition mapValues {A B : Type} (f : A -> B) (o : list (string * A))
  : list (string * B) :=
  map (fun entry => (fst entry, f (snd entry))) o.

End ChartNotions.

(** ** Notions of dates and labels used in the statements *)

Module DateNotions.

Import JSStrings.
Local Open Scope Z_scope.

(** Whether [p] holds of lo, lo+1, ..., lo+len-1. *)
Fixpoint allRange (p : Z -> bool) (lo : Z) (len : positive) : bool :=
  match len with
  | xH => p lo
  | xO l => allRange p lo l && allRange p (lo + Zpos l) l
  | xI l => p lo && allRange p (lo + 1) l && allRange p (lo + 1 + Zpos l) l
  end.

(** Whether a string consists of exactly [n] decimal digits. *)
Definition digitString (n : nat) (s : string) : bool :=
  (String.length s =? n)%nat && forallb isDigit (list_ascii_of_string s).

(** The Gregorian rule for leap years, and the length of a month
    (1 = January). *)
Definition leapYear (year : Z) : bool :=
  ((year mod 4 =? 0) && negb (year mod 100 =? 0)) || (year mod 400 =? 0).

Definition monthLength (year month : Z) : Z :=
  if month =? 2 then (if leapYear year then 29 else 28)
  else if (month =? 4) || (month =? 6) || (month =? 9) || (month =? 11)
       then 30 else 31.

(** The first word of a label. *)
Fixpoint firstWord (s : string) : string :=
  match s with
  | EmptyString => EmptyString
  | String c s' =>
      if Ascii.eqb c " " then EmptyString else String c (firstWord s')
  end.

End DateNotions.

(** * Properties *)

(** ** Digit reduction *)

Module ReduceFacts.

Import Numerology Support.
Local Open Scope N_scope.

Lemma fold_addParsed_uint (d : uint) : forall a,
  fold_left JS.addParsed (JS.split (NilEmpty.string_of_uint d)) (Some a)
  = Some (a + usum d).
Proof.
  unfold JS.split.
  induction d; intro a; cbn -[N.add JS.parseInt];
    [ f_equal; lia | .. ];
    match goal with
    | |- context [JS.parseInt ?c] =>
        let v := eval vm_compute in (JS.parseInt c) in
        change (JS.parseInt c) with v
    end; cbv iota beta; rewrite IHd; f_equal; lia.
Qed.

Lemma usum_revapp (d : uint) :
  forall d', usum (revapp d d') = usum d + usum d'.
Proof.
  induction d; intro d'; cbn -[N.add]; try rewrite IHd; cbn -[N.add]; lia.
Qed.

Lemma usum_rev d : usum (Decimal.rev d) = usum d.
Proof. unfold Decimal.rev. rewrite usum_revapp. cbn -[N.add]. lia. Qed.

Lemma usum_of_lu d :
  usum d <= Unsigned.of_lu d /\
  (10 <= Unsigned.of_lu d -> usum d < Unsigned.of_lu d) /\
  (0 < Unsigned.of_lu d -> 0 < usum d).
Proof. induction d; cbn -[N.add N.mul]; lia. Qed.

(** [parseInt] never meets a character that is not a digit. *)
Lemma digitSumNaN_some num : digitSumNaN num = Some (usum (N.to_uint num)).
Proof. unfold digitSumNaN, JS.toString. now rewrite fold_addParsed_uint. Qed.

Lemma digitSum_usum num : digitSum num = usum (Decimal.rev (N.to_uint num)).
Proof. unfold digitSum. now rewrite digitSumNaN_some, usum_rev. Qed.

Lemma of_lu_rev_to_uint num :
  Unsigned.of_lu (Decimal.rev (N.to_uint num)) = num.
Proof. rewrite <- Unsigned.of_uint_alt. apply DecimalN.Unsigned.of_to. Qed.

Lemma digitSum_lt num : 10 <= num -> digitSum num < num.
Proof.
  intro H. rewrite digitSum_usum.
  rewrite <- (of_lu_rev_to_uint num) at 2. apply usum_of_lu.
  now rewrite of_lu_rev_to_uint.
Qed.

Lemma digitSum_pos num : 0 < num -> 0 < digitSum num.
Proof.
  intro H. rewrite digitSum_usum. apply usum_of_lu.
  now rewrite of_lu_rev_to_uint.
Qed.

Lemma isMaster_spec n : isMaster n = true <-> Spec.master n.
Proof.
  unfold isMaster, Spec.master. rewrite !orb_true_iff, !N.eqb_eq. tauto.
Qed.

(** The code's digit sum is the specification's. *)
Lemma DigitSum_of_lu d : Spec.DigitSum (Unsigned.of_lu d) (usum d).
Proof.
  assert (Hz : forall s, Spec.DigitSum 0 s -> s = 0).
  { intros s H. inversion H; subst; [reflexivity | lia]. }
  assert (Hstep : forall k m s, k < 10 -> Spec.DigitSum m s ->
                    Spec.DigitSum (k + 10 * m) (k + s)).
  { intros k m s Hk Hm. destruct (N.eq_dec m 0) as [->|Hm0].
    - rewrite (Hz _ Hm). replace (k + 10 * 0) with k by lia.
      replace (k + 0) with k by lia. now constructor.
    - assert (Hq : (k + 10 * m) / 10 = m).
      { replace (k + 10 * m) with (m * 10 + k) by lia.
        rewrite N.div_add_l by lia. rewrite N.div_small by lia. lia. }
      assert (Hr : (k + 10 * m) mod 10 = k).
      { replace (k + 10 * m) with (k + m * 10) by lia.
        rewrite N.Div0.mod_add. now apply N.mod_small. }
      rewrite <- Hr at 2. constructor; [lia | now rewrite Hq]. }
  induction d; cbn -[N.add N.mul].
  - constructor; lia.
  - replace (10 * Unsigned.of_lu d) with (0 + 10 * Unsigned.of_lu d) by lia.
    replace (usum d) with (0 + usum d) by lia. apply Hstep; [lia | assumption].
  - apply Hstep; [lia | assumption].
  - apply Hstep; [lia | assumption].
  - apply Hstep; [lia | assumption].
  - apply Hstep; [lia | assumption].
  - apply Hstep; [lia | assumption].
  - apply Hstep; [lia | assumption].
  - apply Hstep; [lia | assumption].
  - apply Hstep; [lia | assumption].
  - apply Hstep; [lia | assumption].
Qed.

Lemma digitSum_DigitSum num : Spec.DigitSum num (digitSum num).
Proof.
  rewrite digitSum_usum. rewrite <- (of_lu_rev_to_uint num) at 1.
  apply DigitSum_of_lu.
Qed.

Lemma DigitSum_functional n : forall s1 s2,
  Spec.DigitSum n s1 -> Spec.DigitSum n s2 -> s1 = s2.
Proof.
  intros s1 s2 H1. revert s2.
  induction H1 as [n Hn | n s Hn H1 IH]; intros s2 H2;
    inversion H2; subst; try lia.
  f_equal. now apply IH.
Qed.

Lemma Reduce_functional keep n : forall r1 r2,
  Spec.Reduce keep n r1 -> Spec.Reduce keep n r2 -> r1 = r2.
Proof.
  intros r1 r2 H1. revert r2.
  induction H1 as [n Hk Hm | n Hn | n s r Hn Hnm Hs H1 IH]; intros r2 H2;
    inversion H2; subst; try reflexivity; try lia; try tauto.
  apply IH.
  match goal with
  | H : Spec.DigitSum n ?s' |- Spec.Reduce _ s _ =>
      now rewrite (DigitSum_functional Hs H)
  end.
Qed.

Lemma In_resultRange keep r :
  In r (resultRange keep) <->
  (1 <= r <= 9 \/ (keep = true /\ Spec.master r)).
Proof.
  unfold Spec.master. destruct keep; cbn; split; intro H.
  - repeat (destruct H as [<- | H]; [lia || tauto | ]). easy.
  - assert (Hr : r = 1 \/ r = 2 \/ r = 3 \/ r = 4 \/ r = 5 \/ r = 6 \/ r = 7
                 \/ r = 8 \/ r = 9 \/ r = 11 \/ r = 22 \/ r = 33) by lia.
    intuition auto.
  - repeat (destruct H as [<- | H]; [lia | ]). easy.
  - assert (Hr : r = 1 \/ r = 2 \/ r = 3 \/ r = 4 \/ r = 5 \/ r = 6 \/ r = 7
                 \/ r = 8 \/ r = 9) by (destruct H as [H | [H _]]; [lia | easy]).
    intuition auto.
Qed.

(** The loop, entered with a value that is not a kept master number, ends
    within [num] passes, on the value the specification describes. *)
Lemma reduceLoop_enough (fuel : nat) : forall num keep,
  (N.to_nat num <= fuel)%nat ->
  ~ (keep = true /\ Spec.master num) ->
  exists r, reduceLoop fuel num keep = Some r
            /\ Spec.Reduce keep num r
            /\ (0 < num -> In r (resultRange keep))
            /\ (num = 0 -> r = 0).
Proof.
  assert (Hsmall : forall num keep, num <= 9 ->
            Some num = Some num /\ Spec.Reduce keep num num
            /\ (0 < num -> In num (resultRange keep)) /\ (num = 0 -> num = 0)).
  { intros num keep Hle. split; [reflexivity | ].
    split; [now constructor | ]. split; [ | easy ].
    intro. apply In_resultRange. lia. }
  induction fuel as [|fuel IH]; intros num keep Hf Hnm; cbn [reduceLoop].
  - destruct (N.ltb_spec 9 num); [lia|]. exists num. now apply Hsmall.
  - destruct (N.ltb_spec 9 num) as [Hgt|Hle]; [ | exists num; now apply Hsmall ].
    pose proof (@digitSum_lt num ltac:(lia)) as Hlt.
    pose proof (@digitSum_pos num ltac:(lia)) as Hpos.
    pose proof (digitSum_DigitSum num) as Hds.
    cbv zeta.
    destruct (keep && isMaster (digitSum num)) eqn:E.
    + exists (digitSum num). apply andb_true_iff in E.
      destruct E as [-> E]. apply isMaster_spec in E.
      split; [reflexivity | ]. split; [ | split ].
      * eapply Spec.Reduce_sum; eauto. now constructor.
      * intro. apply In_resultRange. now right.
      * lia.
    + assert (Hnm' : ~ (keep = true /\ Spec.master (digitSum num))).
      { intros [-> Hm]. apply isMaster_spec in Hm.
        rewrite Hm in E. discriminate. }
      destruct (IH (digitSum num) keep ltac:(lia) Hnm')
        as (r & Hr & Hred & Hin & _).
      exists r. split; [exact Hr | ]. split; [ | split ].
      * eapply Spec.Reduce_sum; eauto.
      * intro. apply Hin. lia.
      * lia.
Qed.

Lemma reduceFuel_enough (fuel : nat) num keep :
  (N.to_nat num <= fuel)%nat ->
  exists r, reduceToSingleDigitFuel fuel num keep = Some r
            /\ Spec.Reduce keep num r
            /\ (0 < num -> In r (resultRange keep))
            /\ (num = 0 -> r = 0).
Proof.
  intro Hf. unfold reduceToSingleDigitFuel.
  destruct (keep && isMaster num) eqn:E.
  - apply andb_true_iff in E. destruct E as [-> E].
    apply isMaster_spec in E. exists num.
    split; [reflexivity | ]. split; [now constructor | ]. split; [ | easy ].
    intro. apply In_resultRange. now right.
  - apply reduceLoop_enough; auto.
    intros [-> Hm]. apply isMaster_spec in Hm. rewrite Hm in E. discriminate.
Qed.

(** The function meets the specification's wording. *)
Lemma reduceToSingleDigit_Reduce num keep :
  Spec.Reduce keep num (reduceToSingleDigit num keep).
Proof.
  unfold reduceToSingleDigit.
  destruct (@reduceFuel_enough (N.to_nat num) num keep (le_n _))
    as (r & -> & H & _). exact H.
Qed.


Lemma reduceToSingleDigit_In num keep :
  0 < num -> In (reduceToSingleDigit num keep) (resultRange keep).
Proof.
  intro Hpos. unfold reduceToSingleDigit.
  destruct (@reduceFuel_enough (N.to_nat num) num keep (le_n _))
    as (r & -> & _ & H & _). auto.
Qed.

Lemma reduceToSingleDigit_zero keep : reduceToSingleDigit 0 keep = 0.
Proof. destruct keep; reflexivity. Qed.


(** 0 does reach the function: a name without letters has the name number
    0, and its soul urge number is the reduction of 0. *)
Lemma soulUrge_of_blank_name :
  calculateNameNumber "  " true false = 0
  /\ calculateSoulUrgeNumber "  " = 0.
Proof. split; reflexivity. Qed.


(** C6.  [calculateLifePathNumber(day, month, year)] is
    reduce(reduce(day) + reduce(month) + reduce(year)), every reduction
    being the specification's digit-sum reduction with master numbers kept;
    on 15 May 1990 the steps are 15 -> 6, 5 -> 5, 1990 -> 1 and the life
    path number is 3. *)
Theorem calculateLifePathNumber_spec :
  (forall day month year lifePath,
     Spec.LifePath day month year lifePath
     <-> lifePath = calculateLifePathNumber day month year)
  /\ reduceToSingleDigit 15 true = 6
  /\ reduceToSingleDigit 5 true = 5
  /\ reduceToSingleDigit 1990 true = 1
  /\ calculateLifePathNumber 15 5 1990 = 3.
Proof.
  split; [ | repeat split; reflexivity ].
  intros day month year lifePath. unfold Spec.LifePath, calculateLifePathNumber.
  cbv zeta. split.
  - intros (d & m & y & Hd & Hm & Hy & Hl).
    rewrite (Reduce_functional Hd (reduceToSingleDigit_Reduce day true)) in Hl.
    rewrite (Reduce_functional Hm (reduceToSingleDigit_Reduce month true)) in Hl.
    rewrite (Reduce_functional Hy (reduceToSingleDigit_Reduce year true)) in Hl.
    eapply Reduce_functional; eauto. apply reduceToSingleDigit_Reduce.
  - intros ->. do 3 eexists. repeat split; apply reduceToSingleDigit_Reduce.
Qed.

End ReduceFacts.

(** ** Compatibility scorer *)

Module CompatFacts.

Import Numerology Support.

(** *** The digit sets *)

Lemma has_In s d : has s d = true <-> In d s.
Proof.
  unfold has. rewrite existsb_exists. split.
  - intros (x & Hx & E). apply N.eqb_eq in E. now subst.
  - intro H. exists d. split; [assumption | apply N.eqb_refl].
Qed.

Lemma has_false s d : has s d = false <-> ~ In d s.
Proof.
  rewrite <- has_In. destruct (has s d); split; congruence.
Qed.

Lemma wfSet_add s d : wfSet s -> (1 <= d <= 9)%N -> wfSet (add s d).
Proof.
  intros [Hnd Hr] Hd. unfold add. destruct (has s d) eqn:E.
  - now split.
  - apply has_false in E. split.
    + apply NoDup_app; [assumption | repeat constructor; easy | ].
      intros x Hx [<- | []]. contradiction.
    + apply Forall_app. split; [assumption | now repeat constructor].
Qed.

Lemma wfSet_addIfDigit s digit : wfSet s -> wfSet (addIfDigit s digit).
Proof.
  intro Hs. unfold addIfDigit, inOneToNine.
  destruct digit as [d|]; [ | assumption ].
  destruct ((1 <=? d)%N && (d <=? 9)%N) eqn:E; [ | assumption ].
  apply andb_true_iff in E. destruct E as [E1 E2].
  apply N.leb_le in E1, E2. now apply wfSet_add.
Qed.

Lemma fold_left_invariant {A B : Type} (P : A -> Prop) (f : A -> B -> A) l :
  (forall a b, P a -> P (f a b)) -> forall a, P a -> P (fold_left f l a).
Proof.
  intro Hstep. induction l as [|b l IH]; intros a Ha; cbn; auto.
Qed.

Lemma wfSet_getLoShuGridDigits d m y : wfSet (getLoShuGridDigits d m y).
Proof.
  unfold getLoShuGridDigits. cbv zeta.
  do 2 apply wfSet_addIfDigit.
  apply fold_left_invariant.
  - intros s num Hs. apply fold_left_invariant; [ | assumption ].
    intros; now apply wfSet_addIfDigit.
  - split; constructor.
Qed.

Lemma In_digits1to9 d : In d Spec.digits1to9 <-> (1 <= d <= 9)%N.
Proof.
  unfold Spec.digits1to9. cbn. split.
  - intro H. repeat (destruct H as [<- | H]; [lia | ]). easy.
  - intro H.
    assert (Hd : (d = 1 \/ d = 2 \/ d = 3 \/ d = 4 \/ d = 5 \/ d = 6
                  \/ d = 7 \/ d = 8 \/ d = 9)%N) by lia.
    intuition auto.
Qed.

Lemma NoDup_digits1to9 : NoDup Spec.digits1to9.
Proof.
  unfold Spec.digits1to9.
  repeat (constructor; [cbn; intro H; repeat (destruct H as [H | H]; [discriminate H | ]); exact H | ]).
  constructor.
Qed.

(** Counting the members of [s1] that [s2] has is counting the digits 1..9
    that both have. *)
Lemma matching_count s1 s2 :
  wfSet s1 ->
  List.length (filter (fun d => has s2 d) s1)
  = List.length (filter (fun d => has s1 d && has s2 d) Spec.digits1to9).
Proof.
  intros [Hnd Hr]. apply Permutation_length.
  apply NoDup_Permutation.
  - now apply NoDup_filter.
  - apply NoDup_filter, NoDup_digits1to9.
  - intro x. rewrite !filter_In, andb_true_iff, !has_In, In_digits1to9.
    split; [ | tauto ].
    intros [H1 H2]. rewrite Forall_forall in Hr. auto.
Qed.


(** *** The digit pool *)

Lemma digitsOf_uint (d : uint) :
  map JS.parseInt (JS.split (NilEmpty.string_of_uint d))
  = map Some (Spec.udigits d).
Proof.
  unfold JS.split. induction d; cbn -[JS.parseInt]; [reflexivity | ..];
    rewrite IHd; reflexivity.
Qed.

Lemma digitsOf_decimalDigits n : digitsOf n = map Some (Spec.decimalDigits n).
Proof. apply digitsOf_uint. Qed.

Lemma In_add s d x : In x (add s d) <-> In x s \/ x = d.
Proof.
  unfold add. destruct (has s d) eqn:E.
  - apply has_In in E. split; [tauto | intros [H | ->]; assumption].
  - rewrite in_app_iff. cbn. intuition congruence.
Qed.

Lemma In_addIfDigit s digit x :
  In x (addIfDigit s digit)
  <-> In x s \/ ((1 <= x <= 9)%N /\ digit = Some x).
Proof.
  unfold addIfDigit, inOneToNine. destruct digit as [d | ].
  - destruct ((1 <=? d)%N && (d <=? 9)%N) eqn:E.
    + apply andb_true_iff in E. destruct E as [E1 E2].
      apply N.leb_le in E1, E2. rewrite In_add. split.
      * intros [H | ->]; [now left | right; split; [lia | reflexivity] ].
      * intros [H | [_ H] ]; [now left | right; congruence].
    + split; [tauto | ]. intros [H | [Hr H] ]; [assumption | ].
      injection H as ->. apply andb_false_iff in E.
      destruct E as [E | E]; apply N.leb_gt in E; lia.
  - split; [tauto | intros [H | [_ H] ]; [assumption | discriminate] ].
Qed.

Lemma In_fold_addIfDigit l : forall s x,
  In x (fold_left addIfDigit l s)
  <-> In x s \/ ((1 <= x <= 9)%N /\ In (Some x) l).
Proof.
  induction l as [ | digit l IH]; intros s x; cbn [fold_left].
  - cbn. tauto.
  - rewrite IH, In_addIfDigit. cbn [In]. intuition congruence.
Qed.

Lemma In_Some_map (x : N) l : In (Some x) (map Some l) <-> In x l.
Proof.
  rewrite in_map_iff. split.
  - intros (y & E & H). now injection E as ->.
  - intro H. now exists x.
Qed.

Lemma existsb_eqb_In (x : N) l : existsb (N.eqb x) l = true <-> In x l.
Proof.
  rewrite existsb_exists. split.
  - intros (y & H & E). apply N.eqb_eq in E. now subst.
  - intro H. exists x. split; [assumption | apply N.eqb_refl].
Qed.

(** The set the code collects is the specification's digit pool. *)
Lemma has_getLoShuGridDigits day month year d :
  has (getLoShuGridDigits day month year) d
  = Spec.inDigitPool day month year (calculateBirthdayNumber day)
      (calculateLifePathNumber day month year) d.
Proof.
  apply eq_true_iff_eq. rewrite has_In.
  unfold getLoShuGridDigits, Spec.inDigitPool. cbv zeta.
  cbn [fold_left].
  rewrite !In_addIfDigit, !In_fold_addIfDigit, !digitsOf_decimalDigits,
    !In_Some_map.
  rewrite !andb_true_iff, !N.leb_le, existsb_eqb_In, !in_app_iff.
  cbn [In]. intuition congruence.
Qed.

Lemma existsb_ext_in {A : Type} (f g : A -> bool) l :
  (forall a, In a l -> f a = g a) -> existsb f l = existsb g l.
Proof.
  induction l as [ | x l IH]; intro H; cbn; [reflexivity | ].
  rewrite (H x (or_introl eq_refl)), IH; [reflexivity | ].
  intros a Ha. apply H. now right.
Qed.




(** *** The hidden passion number *)

Lemma letterValue_clean (c : ascii) :
  match Spec.letterValue c with
  | Some v => isUpperLetter (toUpperCaseChar c) = true
              /\ letterValueOr0 (toUpperCaseChar c) = v
  | None => isUpperLetter (toUpperCaseChar c) = false
  end.
Proof.
  destruct c as [[] [] [] [] [] [] [] []]; vm_compute; auto.
Qed.

Lemma nameValues_clean name :
  Spec.nameValues name = map letterValueOr0 (cleanName name).
Proof.
  unfold Spec.nameValues, cleanName.
  induction (list_ascii_of_string name) as [ | c l IH]; [reflexivity | ].
  cbn [flat_map map filter]. rewrite IH.
  pose proof (letterValue_clean c) as H.
  destruct (Spec.letterValue c) as [v | ].
  - destruct H as [-> <-]. reflexivity.
  - rewrite H. reflexivity.
Qed.

Lemma objGet_objSet o key value key' :
  objGet (objSet o key value) key'
  = if (key =? key')%N then Some value else objGet o key'.
Proof.
  unfold objGet, objSet, JS.objGet.
  induction o as [ | [k v] o IH]; cbn [JS.objSet find fst].
  - destruct (N.eqb_spec key key'); reflexivity.
  - destruct (N.eqb_spec k key) as [-> | Hk]; cbn [find fst].
    + destruct (N.eqb_spec key key'); reflexivity.
    + destruct (N.eqb_spec k key') as [-> | Hk'].
      * destruct (N.eqb_spec key key'); [congruence | reflexivity].
      * exact IH.
Qed.

(** The counter table holds, for each digit, how often it occurs among the
    letter values. *)
Lemma count_loop (letters : list ascii) : forall digitCounts d,
  or0 (objGet
         (fold_left
            (fun digitCounts letter =>
               let value := letterValueOr0 letter in
               if (1 <=? value)%N && (value <=? 9)%N
               then objSet digitCounts value
                      (or0 (objGet digitCounts value) + 1)
               else digitCounts)
            letters digitCounts) d)
  = (or0 (objGet digitCounts d)
     + (if (1 <=? d)%N && (d <=? 9)%N
        then N.of_nat (count_occ N.eq_dec (map letterValueOr0 letters) d)
        else 0))%N.
Proof.
  induction letters as [ | c l IH]; intros tbl d; cbn [fold_left map count_occ].
  - destruct ((1 <=? d)%N && (d <=? 9)%N); lia.
  - cbv zeta. rewrite IH. clear IH.
    destruct ((1 <=? letterValueOr0 c)%N && (letterValueOr0 c <=? 9)%N) eqn:E.
    + rewrite objGet_objSet.
      destruct (N.eq_dec (letterValueOr0 c) d) as [Heq | Hne].
      * rewrite Heq in E |- *. rewrite N.eqb_refl, E. cbn [or0]. lia.
      * destruct (N.eqb_spec (letterValueOr0 c) d); [contradiction | ].
        reflexivity.
    + destruct (N.eq_dec (letterValueOr0 c) d) as [Heq | Hne];
        [rewrite Heq in E; rewrite E; lia | reflexivity].
Qed.

Lemma countLetterValues_frequency name d :
  (1 <= d <= 9)%N ->
  or0 (objGet (countLetterValues name) d) = Spec.frequency name d.
Proof.
  intros [H1 H9]. unfold countLetterValues, Spec.frequency.
  rewrite count_loop, nameValues_clean. cbn [objGet JS.objGet find option_map or0].
  apply N.leb_le in H1, H9. rewrite H1, H9. reflexivity.
Qed.

(** The scan for the most frequent digit keeps the first digit that
    reaches the largest count seen so far. *)
Section Scan.
Variable f : N -> N.

Local Abbreviation scanInv := (Support.scanInv f).

Lemma scan_invariant (post : list N) : forall pre m h,
  scanInv pre m h ->
  let r := fold_left
             (fun '(maxCount, hiddenPassion) digit =>
                if (maxCount <? f digit)%N then (f digit, digit)
                else (maxCount, hiddenPassion))
             post (m, h) in
  scanInv (pre ++ post) (fst r) (snd r).
Proof.
  induction post as [ | d post IH]; intros pre m h Hinv; cbn [fold_left].
  - cbv zeta. cbn [fst snd]. now rewrite app_nil_r.
  - cbv zeta in IH |- *.
    replace (pre ++ d :: post) with ((pre ++ [d]) ++ post)
      by (rewrite <- app_assoc; reflexivity).
    destruct Hinv as [Hle Hh].
    destruct (N.ltb_spec m (f d)) as [Hlt | Hge]; apply IH; split.
    + intros x Hx. apply in_app_iff in Hx. destruct Hx as [Hx | [<- | [] ] ];
        [specialize (Hle x Hx); lia | lia].
    + right. split; [lia | ]. split; [reflexivity | ].
      exists pre, []. split; [reflexivity | ].
      intros x Hx. specialize (Hle x Hx). lia.
    + intros x Hx. apply in_app_iff in Hx. destruct Hx as [Hx | [<- | [] ] ];
        [now apply Hle | exact Hge].
    + destruct Hh as [Hh | (Hpos & Hfh & p1 & p2 & -> & Hp1)];
        [now left | right].
      split; [exact Hpos | ]. split; [exact Hfh | ].
      exists p1, (p2 ++ [d]). split; [ | exact Hp1 ].
      rewrite <- app_assoc. reflexivity.
Qed.



End Scan.


(** *** The factor scores, code against specification *)

Local Open Scope Q_scope.

Lemma code_similarity (a b : Z) :
  1 - inject_Z (JS.Math_abs (a - b)) / 8 == Spec.similarity a b.
Proof.
  unfold Spec.similarity, JS.Math_abs.
  assert (E : inject_Z (Z.abs (a - b)) == Qabs (inject_Z a - inject_Z b)).
  { unfold inject_Z at 1. rewrite Zabs_Qabs.
    apply Qabs_wd. unfold Qeq, inject_Z. cbn. lia. }
  now rewrite E.
Qed.

Lemma code_bonus (a b : Z) :
  (if (a =? b)%Z then 0.1 else 0) = Spec.equalBonus a b.
Proof.
  unfold Spec.equalBonus.
  destruct (Z.eqb_spec a b), (Z.eq_dec a b); congruence.
Qed.

Lemma finalLpScore_spec p1 p2 :
  finalLpScore p1 p2 == Spec.LifePathFactor p1 p2.
Proof.
  unfold finalLpScore, scoreLp, lpBonus, Spec.LifePathFactor.
  now rewrite code_similarity, code_bonus.
Qed.

Lemma finalExprScore_spec p1 p2 :
  finalExprScore p1 p2 == Spec.ExpressionFactor p1 p2.
Proof.
  unfold finalExprScore, scoreExpr, exprBonus, Spec.ExpressionFactor.
  now rewrite code_similarity, code_bonus.
Qed.

Lemma finalSoulScore_spec p1 p2 :
  finalSoulScore p1 p2 == Spec.SoulUrgeFactor p1 p2.
Proof.
  unfold finalSoulScore, scoreSoul, soulBonus, Spec.SoulUrgeFactor.
  now rewrite code_similarity, code_bonus.
Qed.

Lemma finalPersonScore_spec p1 p2 :
  finalPersonScore p1 p2 == Spec.PersonalityFactor p1 p2.
Proof.
  unfold finalPersonScore, scorePerson, personBonus, Spec.PersonalityFactor.
  now rewrite code_similarity, code_bonus.
Qed.

Lemma scoreBday_spec p1 p2 : scoreBday p1 p2 == Spec.BirthdayFactor p1 p2.
Proof. unfold scoreBday, Spec.BirthdayFactor. apply code_similarity. Qed.



(** The loop over the four positions adds one step per matching position. *)
Lemma sameAt_dec a b i :
  sameAt a b i
  = if Spec.entry_eq_dec (nth_error a i) (nth_error b i) then true else false.
Proof.
  unfold sameAt.
  destruct (Spec.entry_eq_dec (nth_error a i) (nth_error b i)) as [E|E].
  - rewrite E. destruct (nth_error b i); [apply Z.eqb_refl | reflexivity].
  - destruct (nth_error a i), (nth_error b i); try reflexivity.
    + apply Z.eqb_neq. congruence.
    + congruence.
Qed.

Lemma countSame_cons a b i l :
  countSame a b (i :: l)
  == (if sameAt a b i then 1 else 0) + countSame a b l.
Proof.
  unfold countSame. cbn [filter]. destruct (sameAt a b i); [ | ring ].
  cbn [List.length]. rewrite Nat2Z.inj_succ, <- Z.add_1_l, inject_Z_plus.
  reflexivity.
Qed.

Lemma synergy_loop pa pb ca cb l : forall bonus penalty,
  let r :=
    fold_left
      (fun '(pinnacleBonus, challengePenalty) i =>
         let pinnacleBonus :=
           if sameAt pa pb i then pinnacleBonus + 0.025 else pinnacleBonus in
         let challengePenalty :=
           if sameAt ca cb i
           then challengePenalty + 0.0125 else challengePenalty in
         (pinnacleBonus, challengePenalty))
      l (bonus, penalty) in
  fst r == bonus + 0.025 * countSame pa pb l
  /\ snd r == penalty + 0.0125 * countSame ca cb l.
Proof.
  induction l as [|i l IH]; intros bonus penalty; cbn [fold_left].
  - unfold countSame. cbn. split; ring.
  - cbv zeta in IH |- *.
    destruct (IH (if sameAt pa pb i then bonus + 0.025 else bonus)
                 (if sameAt ca cb i then penalty + 0.0125 else penalty))
      as [H1 H2].
    rewrite H1, H2, !countSame_cons.
    destruct (sameAt pa pb i), (sameAt ca cb i); split; ring.
Qed.

Lemma countSame_matching a b :
  countSame a b [0; 1; 2; 3]%nat
  = inject_Z (Z.of_nat (Spec.matchingPositions a b)).
Proof.
  unfold countSame, Spec.matchingPositions. do 3 f_equal.
  apply filter_ext. intro i. apply sameAt_dec.
Qed.

Lemma pinnacleBonus_spec p1 p2 :
  pinnacleBonus p1 p2 == Spec.pinnacleTerm (pinnacles p1) (pinnacles p2).
Proof.
  unfold pinnacleBonus, synergy, Spec.pinnacleTerm.
  destruct (synergy_loop (pinnacles p1) (pinnacles p2)
              (challenges p1) (challenges p2) [0; 1; 2; 3]%nat 0 0) as [H _].
  cbv zeta in H. rewrite H, countSame_matching. ring.
Qed.

Lemma challengePenalty_spec p1 p2 :
  challengePenalty p1 p2
  == Spec.challengeTerm (challenges p1) (challenges p2).
Proof.
  unfold challengePenalty, synergy, Spec.challengeTerm.
  destruct (synergy_loop (pinnacles p1) (pinnacles p2)
              (challenges p1) (challenges p2) [0; 1; 2; 3]%nat 0 0) as [_ H].
  cbv zeta in H. rewrite H, countSame_matching. ring.
Qed.

(** *** Clamping and rounding *)









(** *** Symmetry *)

Lemma abs_sub_sym (a b : Z) : JS.Math_abs (a - b) = JS.Math_abs (b - a).
Proof. unfold JS.Math_abs. lia. Qed.

Lemma sameAt_sym a b i : sameAt a b i = sameAt b a i.
Proof.
  unfold sameAt. destruct (nth_error a i), (nth_error b i); try reflexivity.
  apply Z.eqb_sym.
Qed.

Lemma matchingDigits_sym p1 p2 : matchingDigits p1 p2 = matchingDigits p2 p1.
Proof.
  unfold matchingDigits, loShu1, loShu2.
  rewrite !matching_count by apply wfSet_getLoShuGridDigits.
  f_equal. apply filter_ext. intro d. apply andb_comm.
Qed.

Lemma finalScore_sym p1 p2 : finalScore p1 p2 = finalScore p2 p1.
Proof.
  unfold finalScore.
  assert (Elp : finalLpScore p1 p2 = finalLpScore p2 p1).
  { unfold finalLpScore, scoreLp, lpBonus.
    now rewrite abs_sub_sym, Z.eqb_sym. }
  assert (Eex : finalExprScore p1 p2 = finalExprScore p2 p1).
  { unfold finalExprScore, scoreExpr, exprBonus.
    now rewrite abs_sub_sym, Z.eqb_sym. }
  assert (Eso : finalSoulScore p1 p2 = finalSoulScore p2 p1).
  { unfold finalSoulScore, scoreSoul, soulBonus.
    now rewrite abs_sub_sym, Z.eqb_sym. }
  assert (Epe : finalPersonScore p1 p2 = finalPersonScore p2 p1).
  { unfold finalPersonScore, scorePerson, personBonus.
    now rewrite abs_sub_sym, Z.eqb_sym. }
  assert (Ebd : scoreBday p1 p2 = scoreBday p2 p1).
  { unfold scoreBday. now rewrite abs_sub_sym. }
  assert (Ehi : scoreHidden p1 p2 = scoreHidden p2 p1).
  { unfold scoreHidden, hidden1, hidden2.
    now rewrite abs_sub_sym, N.eqb_sym. }
  assert (Elo : scoreLo p1 p2 = scoreLo p2 p1).
  { unfold scoreLo, completionBonus. rewrite matchingDigits_sym.
    unfold loShu1, loShu2. now rewrite andb_comm. }
  assert (Esy : synergy p1 p2 = synergy p2 p1).
  { unfold synergy. cbn [fold_left].
    now rewrite !(sameAt_sym (pinnacles p1) (pinnacles p2)),
                !(sameAt_sym (challenges p1) (challenges p2)). }
  unfold pinnacleBonus, challengePenalty.
  now rewrite Elp, Eex, Eso, Epe, Ebd, Ehi, Elo, Esy.
Qed.

(** C4.  Swapping the two persons leaves the score and the category of
    [calculateAdvancedCompatibility] unchanged. *)
Theorem calculateAdvancedCompatibility_symmetric (person1 person2 : Person) :
  score (calculateAdvancedCompatibility person1 person2)
  = score (calculateAdvancedCompatibility person2 person1)
  /\ category (calculateAdvancedCompatibility person1 person2)
     = category (calculateAdvancedCompatibility person2 person1).
Proof.
  cbn [score category calculateAdvancedCompatibility]. unfold percentage.
  now rewrite finalScore_sym.
Qed.

(** *** Categories *)

(** C5.  The category is fixed by the score, with inclusive lower bounds:
    80 and above is "Excellent", 65..79 "Good", 50..64 "Average", 49 and
    below "Challenging"; so 80 is "Excellent", 79 and 65 "Good", 64 and 50
    "Average", 49 "Challenging".  The label of a category starts with its
    name. *)
Theorem calculateAdvancedCompatibility_category (person1 person2 : Person) :
  let r := calculateAdvancedCompatibility person1 person2 in
  (((80 <= score r)%Z /\ category r = labelExcellent)
   \/ ((65 <= score r <= 79)%Z /\ category r = labelGood)
   \/ ((50 <= score r <= 64)%Z /\ category r = labelAverage)
   \/ ((score r <= 49)%Z /\ category r = labelChallenging))
  /\ (String.prefix "Excellent" labelExcellent = true
      /\ String.prefix "Good" labelGood = true
      /\ String.prefix "Average" labelAverage = true
      /\ String.prefix "Challenging" labelChallenging = true)
  /\ (categorize 80 = labelExcellent
      /\ categorize 79 = labelGood /\ categorize 65 = labelGood
      /\ categorize 64 = labelAverage /\ categorize 50 = labelAverage
      /\ categorize 49 = labelChallenging).
Proof.
  cbv zeta. split; [ | split; repeat split; reflexivity ].
  cbn [score category calculateAdvancedCompatibility]. unfold categorize.
  destruct (Z.leb_spec 80 (percentage person1 person2));
    [left; split; [lia | reflexivity] | ].
  destruct (Z.leb_spec 65 (percentage person1 person2));
    [right; left; split; [lia | reflexivity] | ].
  destruct (Z.leb_spec 50 (percentage person1 person2));
    [right; right; left; split; [lia | reflexivity] | ].
  right; right; right. split; [lia | reflexivity].
Qed.

(** *** The range of the factor scores *)

Lemma similarity_abs (a b : Z) :
  Spec.similarity a b == 1 - inject_Z (Z.abs (a - b)) / 8.
Proof. symmetry. apply code_similarity. Qed.

(** [lra] does not read a division; a division by 8 is a product. *)
Ltac eighths := unfold Qdiv in *; change (/ 8) with (1 # 8) in *.

Lemma plain_factor_range (a b : Z) :
  0 <= Spec.similarity a b <= 1 <-> (Z.abs (a - b) <= 8)%Z.
Proof.
  rewrite similarity_abs.
  pose proof (Z.abs_nonneg (a - b)) as Hn.
  set (n := Z.abs (a - b)) in *.
  rewrite Zle_Qle in Hn. change (inject_Z 0) with 0 in Hn.
  rewrite (Zle_Qle n 8). change (inject_Z 8) with 8.
  clearbody n. revert Hn. generalize (inject_Z n). intros q Hq.
  eighths. split; [intros [H0 H1] | intro H; split]; lra.
Qed.

Lemma bonus_factor_range (a b : Z) :
  0 <= Spec.similarity a b + Spec.equalBonus a b <= 1
  <-> (0 < Z.abs (a - b) <= 8)%Z.
Proof.
  unfold Spec.equalBonus. destruct (Z.eq_dec a b) as [E | E].
  - subst b. rewrite similarity_abs, Z.sub_diag. cbn [Z.abs].
    change (inject_Z 0) with 0. eighths. split; [intros [H0 H1]; lra | lia].
  - rewrite Qplus_0_r, plain_factor_range. lia.
Qed.

Lemma bonus_factor_max (a b : Z) :
  Spec.similarity a b + Spec.equalBonus a b <= 1.1.
Proof.
  rewrite similarity_abs. unfold Spec.equalBonus.
  pose proof (Z.abs_nonneg (a - b)) as Hn.
  destruct (Z.eq_dec a b) as [E | E].
  - rewrite Zle_Qle in Hn. change (inject_Z 0) with 0 in Hn.
    revert Hn. generalize (inject_Z (Z.abs (a - b))). intros q Hq.
    eighths. lra.
  - assert (H1 : (1 <= Z.abs (a - b))%Z) by lia.
    rewrite Zle_Qle in H1. change (inject_Z 1) with 1 in H1.
    revert H1. generalize (inject_Z (Z.abs (a - b))). intros q Hq.
    eighths. lra.
Qed.

Lemma bonus_factor_facts (x : Q) (a b : Z) :
  x == Spec.similarity a b + Spec.equalBonus a b ->
  x == Spec.similarity a b + Spec.equalBonus a b
  /\ x <= 1.1
  /\ (0 <= x <= 1 <-> (0 < Z.abs (a - b) <= 8)%Z).
Proof.
  intro E. split; [exact E | ]. rewrite E.
  split; [apply bonus_factor_max | apply bonus_factor_range].
Qed.

Lemma plain_factor_facts (x : Q) (a b : Z) :
  x == Spec.similarity a b ->
  x == Spec.similarity a b
  /\ (0 <= x <= 1 <-> (Z.abs (a - b) <= 8)%Z).
Proof.
  intro E. split; [exact E | ]. rewrite E. apply plain_factor_range.
Qed.

(** C3, as the code has it.  Each of the five scores is 1 - |a-b|/8 of
    the two persons' numbers, plus 0.1 exactly when the numbers are equal
    for every factor but Birthday.  A score that carries the bonus is at
    most 1.1 and lies in [0,1] exactly when the numbers differ by at least
    1 and at most 8; the Birthday score lies in [0,1] exactly when they
    differ by at most 8. *)
Theorem factor_scores (person1 person2 : Person) :
  (finalLpScore person1 person2
   == Spec.similarity (lifePathNumber person1) (lifePathNumber person2)
      + Spec.equalBonus (lifePathNumber person1) (lifePathNumber person2)
   /\ finalLpScore person1 person2 <= 1.1
   /\ (0 <= finalLpScore person1 person2 <= 1 <->
       (0 < Z.abs (lifePathNumber person1 - lifePathNumber person2) <= 8)%Z))
  /\ (finalExprScore person1 person2
      == Spec.similarity (expressionNumber person1) (expressionNumber person2)
         + Spec.equalBonus (expressionNumber person1)
                           (expressionNumber person2)
      /\ finalExprScore person1 person2 <= 1.1
      /\ (0 <= finalExprScore person1 person2 <= 1 <->
          (0 < Z.abs (expressionNumber person1 - expressionNumber person2)
           <= 8)%Z))
  /\ (finalSoulScore person1 person2
      == Spec.similarity (soulUrgeNumber person1) (soulUrgeNumber person2)
         + Spec.equalBonus (soulUrgeNumber person1) (soulUrgeNumber person2)
      /\ finalSoulScore person1 person2 <= 1.1
      /\ (0 <= finalSoulScore person1 person2 <= 1 <->
          (0 < Z.abs (soulUrgeNumber person1 - soulUrgeNumber person2)
           <= 8)%Z))
  /\ (finalPersonScore person1 person2
      == Spec.similarity (personalityNumber person1)
                         (personalityNumber person2)
         + Spec.equalBonus (personalityNumber person1)
                           (personalityNumber person2)
      /\ finalPersonScore person1 person2 <= 1.1
      /\ (0 <= finalPersonScore person1 person2 <= 1 <->
          (0 < Z.abs (personalityNumber person1 - personalityNumber person2)
           <= 8)%Z))
  /\ (scoreBday person1 person2
      == Spec.similarity (birthdayNumber person1) (birthdayNumber person2)
      /\ (0 <= scoreBday person1 person2 <= 1 <->
          (Z.abs (birthdayNumber person1 - birthdayNumber person2) <= 8)%Z)).
Proof.
  split; [apply bonus_factor_facts, finalLpScore_spec | ].
  split; [apply bonus_factor_facts, finalExprScore_spec | ].
  split; [apply bonus_factor_facts, finalSoulScore_spec | ].
  split; [apply bonus_factor_facts, finalPersonScore_spec | ].
  apply plain_factor_facts, scoreBday_spec.
Qed.

(** C3 as stated fails: two equal life path numbers score 1.1, and the
    personality numbers 11 and 1 score -0.25. *)
Lemma factor_scores_counterexample :
  let john := personOf "John Smith" 15 5 1990 in
  let jane := personOf "Jane Doe" 29 11 1985 in
  (lifePathNumber john = 3%Z
   /\ finalLpScore john john == 1.1 /\ ~ finalLpScore john john <= 1)
  /\ (personalityNumber john = 11%Z /\ personalityNumber jane = 1%Z
      /\ finalPersonScore john jane == - (1 # 4)
      /\ ~ 0 <= finalPersonScore john jane).
Proof.
  cbv zeta. repeat split; try reflexivity; vm_compute; congruence.
Qed.

End CompatFacts.

(** ** Simplified ephemeris *)

Module EphemerisFacts.

Import Ephemeris Support.
Local Open Scope Q_scope.
Local Open Scope string_scope.

(** The table the loop over [PLANETS] builds: one entry per planet, under
    its name in lower case, in the order of [PLANETS]. *)
Lemma planets_loop (julianDay ayanamsa : Q) :
  fold_left
    (fun planets '(name, id) =>
       JS.objSet String.eqb planets (toLowerCase name)
         (planetPosition name id julianDay ayanamsa))
    PLANETS []
  = [ ("sun", planetPosition "SUN" 0 julianDay ayanamsa);
      ("moon", planetPosition "MOON" 1 julianDay ayanamsa);
      ("mercury", planetPosition "MERCURY" 2 julianDay ayanamsa);
      ("venus", planetPosition "VENUS" 3 julianDay ayanamsa);
      ("mars", planetPosition "MARS" 4 julianDay ayanamsa);
      ("jupiter", planetPosition "JUPITER" 5 julianDay ayanamsa);
      ("saturn", planetPosition "SATURN" 6 julianDay ayanamsa);
      ("rahu", planetPosition "RAHU" 11 julianDay ayanamsa);
      ("ketu", planetPosition "KETU" 12 julianDay ayanamsa) ].
Proof. reflexivity. Qed.

(** C7.  In every chart of [computeNatalChart] the record of Ketu has the
    longitude (rahu.longitude + 180) % 360 and the sign
    (rahu.sign + 6) % 12 of the record of Rahu. *)
Theorem ketu_opposite_rahu (lat lon : Q) (birthDateTime : JS.Date.t) :
  exists rahu ketu : PlanetPosition,
    JS.objGet String.eqb
      (planets (computeNatalChart lat lon birthDateTime)) "rahu" = Some rahu
    /\ JS.objGet String.eqb
         (planets (computeNatalChart lat lon birthDateTime)) "ketu" = Some ketu
    /\ longitude ketu = JS.rem (longitude rahu + 180) 360
    /\ sign ketu = JS.remZ (sign rahu + 6) 12.
Proof.
  unfold computeNatalChart. cbv zeta. rewrite planets_loop.
  set (jd := toJulianDay birthDateTime).
  set (ay := calculateAyanamsa jd).
  exists (planetPosition "RAHU" 11 jd ay).
  eexists. cbn [planets].
  split; [reflexivity | ]. split; [reflexivity | ].
  split; reflexivity.
Qed.

(** *** Divisional charts *)

(** C8, where the code departs from it.  In the chart of 27 June 1990,
    18:28, Saturn stands at 29.999997... degrees of sign 8.  [computeVargas]
    divides by 3.333333 and finds subdivision 9, hence D9 sign
    (8*9 + 9) % 12 = 9; with the exact width 30/9 the subdivision is 8 and
    the sign 8.  D10 and D12, whose widths 3 and 2.5 are exact, agree with
    the formula.  The same happens in the chart written out by hand, where
    29.9999975 / 3.333333 is just above 9. *)
Theorem computeVargas_D9_width :
  (exists saturn : PlanetPosition,
     JS.objGet String.eqb (planets chart_1990_06_27) "saturn" = Some saturn
     /\ sign saturn = 8%Z
     /\ 29.999997 < JS.rem (longitude saturn) 30 < 29.999998
     /\ JS.objGet String.eqb (D9 (computeVargas chart_1990_06_27)) "saturn"
        = Some 9%Z
     /\ Spec.vargaSign (sign saturn) (longitude saturn) 9 = 8%Z
     /\ JS.objGet String.eqb (D10 (computeVargas chart_1990_06_27)) "saturn"
        = Some (Spec.vargaSign (sign saturn) (longitude saturn) 10)
     /\ JS.objGet String.eqb (D12 (computeVargas chart_1990_06_27)) "saturn"
        = Some (Spec.vargaSign (sign saturn) (longitude saturn) 12))
  /\ (computeVargas chart_saturn_only
      = {| D9 := [("saturn", 9%Z)]; D10 := [("saturn", 5%Z)];
           D12 := [("saturn", 11%Z)] |}
      /\ Spec.vargaSign 8 269.9999975 9 = 8%Z
      /\ Spec.vargaSign 8 269.9999975 10 = 5%Z
      /\ Spec.vargaSign 8 269.9999975 12 = 11%Z).
Proof.
  split.
  - eexists. split; [vm_compute; reflexivity | ].
    repeat split; vm_compute; reflexivity.
  - repeat split; vm_compute; reflexivity.
Qed.

(** *** Ranges of the planet records *)

(** C10, where the code departs from it.  In the chart of 20 May 1990,
    12:00, the Moon's formula value is negative, [%] keeps the sign, and adding 360 once does
    not bring the sidereal longitude back to [0, 360): the record has a
    negative longitude, sign -1, nakshatra index -2, hence the fallback
    name, and pada 0.  The ascendant is -1 as well. *)
Theorem computeNatalChart_moon_out_of_range :
  exists moon : PlanetPosition,
    JS.objGet String.eqb (planets chart_1990_05_20) "moon" = Some moon
    /\ -15 < longitude moon < -14
    /\ sign moon = (-1)%Z
    /\ JS.Math_floor (longitude moon / 13.333333) = (-2)%Z
    /\ nakshatra moon = "Unknown"
    /\ pada moon = 0%Z
    /\ ascendant chart_1990_05_20 = (-1)%Z.
Proof.
  eexists. split; [vm_compute; reflexivity | ].
  repeat split; vm_compute; reflexivity.
Qed.

(** *** Dependence on the clock *)

(** What does not depend on the clock in [computeVimshottariDasa]: the
    planet of the current maha period, the planet of the current sub period
    and the sequence are fixed by [moonLongitude] alone. *)
Lemma computeVimshottariDasa_planets_clock_free
    (now1 now2 : JS.Date.t) (moonLongitude : Q) :
  option_map dasaPlanets (computeVimshottariDasa now1 moonLongitude)
  = option_map dasaPlanets (computeVimshottariDasa now2 moonLongitude).
Proof.
  unfold computeVimshottariDasa. cbv zeta.
  destruct (JS.index dasaPeriods
              (JS.remZ (JS.Math_floor (moonLongitude / 13.333333)) 9));
    [ | reflexivity ].
  destruct (JS.index dasaPeriods _); reflexivity.
Qed.


End EphemerisFacts.

(** ** More on digit reduction and the numerology calculator *)

Module NumerologyFacts.

Import Numerology Support Notions ReduceFacts CompatFacts.
Local Open Scope N_scope.

(** Summing the decimal digits keeps the remainder modulo 9. *)
Lemma DigitSum_mod9 n s : Spec.DigitSum n s -> s mod 9 = n mod 9.
Proof.
  induction 1 as [n Hn | n s Hn Hs IH]; [reflexivity | ].
  rewrite <- N.Div0.add_mod_idemp_r, IH, N.Div0.add_mod_idemp_r.
  assert (E : n = n mod 10 + n / 10 + (n / 10) * 9)
    by (pose proof (N.div_mod n 10 ltac:(lia)); lia).
  rewrite E at 3. now rewrite N.Div0.mod_add.
Qed.

Lemma Reduce_mod9 keep n r : Spec.Reduce keep n r -> r mod 9 = n mod 9.
Proof.
  induction 1 as [n Hk Hm | n Hn | n s r Hn Hnm Hs Hr IH]; try reflexivity.
  rewrite IH. now apply DigitSum_mod9.
Qed.

Lemma reduceToSingleDigit_mod9 n keep :
  reduceToSingleDigit n keep mod 9 = n mod 9.
Proof. apply (@Reduce_mod9 keep), reduceToSingleDigit_Reduce. Qed.

Lemma reduceToSingleDigit_pos n keep :
  0 < n -> 0 < reduceToSingleDigit n keep.
Proof.
  intro Hn. pose proof (@reduceToSingleDigit_In n keep Hn) as H.
  apply In_resultRange in H. unfold Spec.master in H. lia.
Qed.

Lemma reduceToSingleDigit_plain_range n :
  0 < n -> 1 <= reduceToSingleDigit n false <= 9.
Proof.
  intro Hn. pose proof (@reduceToSingleDigit_In n false Hn) as H.
  apply In_resultRange in H. destruct H as [H | [H _] ]; [exact H | discriminate].
Qed.

(** A value that is already reduced is returned as it is. *)
Lemma reduceToSingleDigit_fixed r keep :
  r <= 9 \/ (keep = true /\ Spec.master r) -> reduceToSingleDigit r keep = r.
Proof.
  intro H. apply (@Reduce_functional keep r).
  - apply reduceToSingleDigit_Reduce.
  - destruct H as [H | [Hk Hm] ]; [now apply Spec.Reduce_digit | now apply Spec.Reduce_master].
Qed.

Lemma reduceToSingleDigit_reduced n keep :
  reduceToSingleDigit n keep <= 9
  \/ (keep = true /\ Spec.master (reduceToSingleDigit n keep)).
Proof.
  destruct (N.eq_dec n 0) as [-> | Hn].
  - left. rewrite reduceToSingleDigit_zero. lia.
  - pose proof (@reduceToSingleDigit_In n keep ltac:(lia)) as H.
    apply In_resultRange in H. tauto.
Qed.

Lemma same_residue_1_9 a b :
  1 <= a <= 9 -> 1 <= b <= 9 -> a mod 9 = b mod 9 -> a = b.
Proof.
  intros Ha Hb E.
  assert (Hc : forall x, 1 <= x <= 9 -> x mod 9 = if x =? 9 then 0 else x).
  { intros x Hx. destruct (N.eqb_spec x 9) as [-> | Hx9]; [reflexivity | ].
    apply N.mod_small. lia. }
  rewrite (Hc a Ha), (Hc b Hb) in E.
  destruct (N.eqb_spec a 9), (N.eqb_spec b 9); lia.
Qed.


(** Two numbers with the same remainder modulo 9, both zero or both
    positive, reduce to the same digit. *)
Lemma reduceToSingleDigit_plain_congr a b :
  a mod 9 = b mod 9 -> (a = 0 <-> b = 0) ->
  reduceToSingleDigit a false = reduceToSingleDigit b false.
Proof.
  intros Hm Hz. destruct (N.eq_dec a 0) as [Ha | Ha].
  - rewrite Ha, (proj1 Hz Ha). reflexivity.
  - assert (Hb : b <> 0) by tauto.
    apply same_residue_1_9; try (apply reduceToSingleDigit_plain_range; lia).
    now rewrite !reduceToSingleDigit_mod9.
Qed.

Lemma reduceToSingleDigit_eq_0 n keep :
  reduceToSingleDigit n keep = 0 <-> n = 0.
Proof.
  split.
  - intro H. destruct (N.eq_dec n 0) as [E | E]; [exact E | ].
    pose proof (@reduceToSingleDigit_pos n keep ltac:(lia)). lia.
  - intros ->. apply reduceToSingleDigit_zero.
Qed.


(** X2.  Reducing a reduced number changes nothing, and dropping master
    numbers after a reduction that kept them gives what a reduction
    without master numbers gives: 29 -> 11 -> 2 and 29 -> 2. *)
Theorem reduceToSingleDigit_again (n : N) (keepMasterNumbers : bool) :
  reduceToSingleDigit (reduceToSingleDigit n keepMasterNumbers)
                      keepMasterNumbers
  = reduceToSingleDigit n keepMasterNumbers
  /\ reduceToSingleDigit (reduceToSingleDigit n true) false
     = reduceToSingleDigit n false.
Proof.
  split.
  - apply reduceToSingleDigit_fixed, reduceToSingleDigit_reduced.
  - apply reduceToSingleDigit_plain_congr.
    + apply reduceToSingleDigit_mod9.
    + apply reduceToSingleDigit_eq_0.
Qed.

(** *** Name numbers *)

Lemma calculateNameNumber_loop name vo co :
  calculateNameNumber name vo co = nameLoop vo co (cleanName name) 0.
Proof. reflexivity. Qed.

Lemma nameLoop_cons vo co c l acc :
  nameLoop vo co (c :: l) acc
  = nameLoop vo co l
      (if vo && negb (includes vowels c) then acc
       else if co && includes vowels c then acc
       else acc + letterValueOr0 c).
Proof. reflexivity. Qed.

Lemma nameLoop_acc vo co (l : list ascii) : forall acc,
  nameLoop vo co l acc = acc + nameLoop vo co l 0.
Proof.
  induction l as [ | c l IH]; intro acc; [cbn; lia | ].
  rewrite !nameLoop_cons, IH. symmetry. rewrite IH.
  destruct (vo && negb (includes vowels c)); [lia | ].
  destruct (co && includes vowels c); lia.
Qed.

Lemma cleanName_app a b :
  cleanName (a ++ b) = (cleanName a ++ cleanName b)%list.
Proof.
  unfold cleanName.
  assert (E : list_ascii_of_string (a ++ b)
              = (list_ascii_of_string a ++ list_ascii_of_string b)%list).
  { induction a as [ | c a IH]; cbn; [reflexivity | now rewrite IH]. }
  now rewrite E, map_app, filter_app.
Qed.

Lemma letterValueOr0_le c : letterValueOr0 c <= 9.
Proof. destruct c as [[] [] [] [] [] [] [] []]; vm_compute; congruence. Qed.

Lemma letterValueOr0_letter c :
  isUpperLetter c = true -> 1 <= letterValueOr0 c.
Proof.
  destruct c as [[] [] [] [] [] [] [] []]; vm_compute; congruence.
Qed.

Lemma nameLoop_cons0 vo co c l :
  nameLoop vo co (c :: l) 0
  = (if vo && negb (includes vowels c) then 0
     else if co && includes vowels c then 0
     else letterValueOr0 c)
    + nameLoop vo co l 0.
Proof.
  rewrite nameLoop_cons, nameLoop_acc.
  destruct (vo && negb (includes vowels c));
    [ | destruct (co && includes vowels c) ]; reflexivity.
Qed.

Lemma nameLoop_parts (l : list ascii) :
  nameLoop false false l 0 = nameLoop true false l 0 + nameLoop false true l 0
  /\ nameLoop true true l 0 = 0
  /\ forall vo co, nameLoop vo co l 0 <= 9 * N.of_nat (List.length l).
Proof.
  induction l as [ | c l IH]; [repeat split; intros; cbn; lia | ].
  destruct IH as (IH1 & IH2 & IH3).
  pose proof (letterValueOr0_le c) as Hc.
  split; [ | split ].
  - rewrite !nameLoop_cons0, IH1.
    cbn [andb negb]. destruct (includes vowels c); cbn [negb]; lia.
  - rewrite !nameLoop_cons0, IH2.
    cbn [andb]. destruct (includes vowels c); cbn [negb]; lia.
  - intros vo co. specialize (IH3 vo co).
    rewrite nameLoop_cons0. cbn [List.length].
    destruct (vo && negb (includes vowels c));
      [ | destruct (co && includes vowels c) ]; lia.
Qed.

(** X3.  The vowel sum and the consonant sum of a name add up to its full
    name number; with both filters on no letter is counted; and a name
    number is at most 9 per letter. *)
Theorem calculateNameNumber_parts (name : string) :
  calculateNameNumber name false false
  = calculateNameNumber name true false + calculateNameNumber name false true
  /\ calculateNameNumber name true true = 0
  /\ forall vowelsOnly consonantsOnly,
       calculateNameNumber name vowelsOnly consonantsOnly
       <= 9 * N.of_nat (List.length (cleanName name)).
Proof.
  rewrite !calculateNameNumber_loop.
  destruct (nameLoop_parts (cleanName name)) as (H1 & H2 & H3).
  split; [exact H1 | split; [exact H2 | ] ].
  intros vo co. rewrite calculateNameNumber_loop. apply H3.
Qed.

(** X4.  The name number of two names written one after the other is the
    sum of their name numbers, under each filter. *)
Theorem calculateNameNumber_append
    (a b : string) (vowelsOnly consonantsOnly : bool) :
  calculateNameNumber (a ++ b) vowelsOnly consonantsOnly
  = calculateNameNumber a vowelsOnly consonantsOnly
    + calculateNameNumber b vowelsOnly consonantsOnly.
Proof.
  rewrite !calculateNameNumber_loop, cleanName_app.
  unfold nameLoop at 1. rewrite fold_left_app.
  fold (nameLoop vowelsOnly consonantsOnly (cleanName a) 0).
  apply nameLoop_acc.
Qed.

(** *** Expression number and tokens *)

Lemma sumOf_acc {A : Type} (f : A -> N) (l : list A) : forall acc,
  fold_left (fun total x => total + f x) l acc = acc + sumOf f l.
Proof.
  unfold sumOf. induction l as [ | x l IH]; intro acc; cbn [fold_left]; [lia | ].
  rewrite IH. symmetry. rewrite IH. lia.
Qed.

Lemma sumOf_cons {A : Type} (f : A -> N) x l :
  sumOf f (x :: l) = f x + sumOf f l.
Proof. unfold sumOf at 1. cbn [fold_left]. now rewrite sumOf_acc. Qed.

Lemma cleanChars_app a b : cleanChars (a ++ b) = cleanChars a ++ cleanChars b.
Proof. unfold cleanChars. now rewrite map_app, filter_app. Qed.

Lemma cleanChars_space c l :
  isSpace c = true -> cleanChars (c :: l) = cleanChars l.
Proof.
  intro H. unfold cleanChars. cbn [map filter].
  replace (isUpperLetter (toUpperCaseChar c)) with false; [reflexivity | ].
  revert H. destruct c as [[] [] [] [] [] [] [] []]; vm_compute; congruence.
Qed.

(** Splitting at white space loses no letter. *)
Lemma splitSpaces_clean (s : list ascii) : forall cur,
  cleanChars (List.concat (splitSpaces cur s)) = cleanChars (List.rev cur ++ s).
Proof.
  induction s as [ | c s IH]; intro cur; cbn [splitSpaces].
  - destruct cur; cbn [List.concat]; [reflexivity | now rewrite !app_nil_r].
  - destruct (isSpace c) eqn:Ec.
    + rewrite (cleanChars_app (List.rev cur)), (@cleanChars_space c s Ec).
      destruct cur as [ | x cur].
      * rewrite IH. reflexivity.
      * cbn [List.concat]. rewrite cleanChars_app, IH. reflexivity.
    + rewrite IH. cbn [List.rev]. now rewrite <- app_assoc.
Qed.

Lemma nameLoop_app vo co a b :
  nameLoop vo co (a ++ b) 0 = nameLoop vo co a 0 + nameLoop vo co b 0.
Proof.
  unfold nameLoop at 1. rewrite fold_left_app.
  fold (nameLoop vo co a 0). apply nameLoop_acc.
Qed.

Lemma sumOf_tokens vo co (toks : list (list ascii)) :
  sumOf (fun name => calculateNameNumber name vo co)
        (map string_of_list_ascii toks)
  = nameLoop vo co (cleanChars (List.concat toks)) 0.
Proof.
  induction toks as [ | t toks IH]; [reflexivity | ].
  cbn [map List.concat]. rewrite sumOf_cons, IH, cleanChars_app, nameLoop_app.
  f_equal. rewrite calculateNameNumber_loop. unfold cleanName.
  now rewrite list_ascii_of_string_of_list_ascii.
Qed.

Lemma sumOf_nameTokens vo co fullName :
  sumOf (fun name => calculateNameNumber name vo co) (nameTokens fullName)
  = calculateNameNumber fullName vo co.
Proof.
  rewrite (calculateNameNumber_loop fullName). unfold nameTokens, cleanName.
  change (filter isUpperLetter
            (map toUpperCaseChar (list_ascii_of_string fullName)))
    with (cleanChars (List.rev [] ++ list_ascii_of_string fullName)).
  rewrite <- splitSpaces_clean.
  destruct (splitSpaces [] (list_ascii_of_string fullName)) as [ | t toks] eqn:E.
  - reflexivity.
  - apply sumOf_tokens.
Qed.

(** A sum of reductions against the sum of what is reduced. *)
Lemma sumOf_reduced {A : Type} (f : A -> N) keep (l : list A) :
  sumOf (fun x => reduceToSingleDigit (f x) keep) l mod 9 = sumOf f l mod 9
  /\ (sumOf (fun x => reduceToSingleDigit (f x) keep) l = 0 <-> sumOf f l = 0).
Proof.
  induction l as [ | x l [IHm IHz] ]; [split; [reflexivity | tauto] | ].
  rewrite !sumOf_cons. split.
  - rewrite N.Div0.add_mod, IHm, reduceToSingleDigit_mod9.
    now rewrite <- N.Div0.add_mod.
  - pose proof (reduceToSingleDigit_eq_0 (f x) keep) as Hx.
    revert IHz Hx.
    generalize (sumOf (fun x => reduceToSingleDigit (f x) keep) l),
      (sumOf f l), (reduceToSingleDigit (f x) keep), (f x).
    intros. lia.
Qed.


(** X5.  The name numbers of the words of a full name add up to the name
    number of the full name, and the expression number, once master numbers
    are dropped, is the digital root of that full name number. *)
Theorem calculateExpressionNumber_full_name (fullName : string) :
  sumOf (fun name => calculateNameNumber name false false)
        (nameTokens fullName)
  = calculateNameNumber fullName false false
  /\ reduceToSingleDigit (calculateExpressionNumber fullName) false
     = reduceToSingleDigit (calculateNameNumber fullName false false) false.
Proof.
  split; [apply sumOf_nameTokens | ].
  unfold calculateExpressionNumber. cbv zeta.
  fold (sumOf (fun name =>
                 reduceToSingleDigit (calculateNameNumber name false false) true)
              (nameTokens fullName)).
  destruct (sumOf_reduced (fun name => calculateNameNumber name false false)
              true (nameTokens fullName)) as [Hm Hz].
  rewrite sumOf_nameTokens in Hm, Hz.
  apply reduceToSingleDigit_plain_congr.
  - now rewrite reduceToSingleDigit_mod9.
  - now rewrite reduceToSingleDigit_eq_0.
Qed.

(** *** The numbers of a date of birth *)

Lemma In_withMasters n keep :
  0 < n -> In (reduceToSingleDigit n keep) withMasters.
Proof.
  intro Hn. pose proof (@reduceToSingleDigit_In n keep Hn) as H.
  destruct keep; [exact H | ]. unfold withMasters.
  apply in_or_app. now left.
Qed.

(** X6.  For a date with a positive day the life path number is one of
    1..9, 11, 22, 33, and so is the birthday number. *)
Theorem calculateLifePathNumber_range (day month year : N) (Hday : 0 < day) :
  In (calculateLifePathNumber day month year)
     [1; 2; 3; 4; 5; 6; 7; 8; 9; 11; 22; 33]
  /\ In (calculateBirthdayNumber day) [1; 2; 3; 4; 5; 6; 7; 8; 9; 11; 22; 33].
Proof.
  split.
  - unfold calculateLifePathNumber. cbv zeta.
    apply (@In_withMasters _ true).
    pose proof (@reduceToSingleDigit_pos day true Hday). lia.
  - apply (@In_withMasters _ true Hday).
Qed.

Lemma calculateLifePathNumber_range_witness :
  0 < 15
  /\ In (calculateLifePathNumber 15 5 1990)
        [1; 2; 3; 4; 5; 6; 7; 8; 9; 11; 22; 33].
Proof.
  split; [reflexivity | ].
  exact (proj1 (@calculateLifePathNumber_range 15 5 1990 eq_refl)).
Defined.




(** *** Numbers that can be 0 *)

Lemma cleanName_letters name :
  Forall (fun c => isUpperLetter c = true) (cleanName name).
Proof.
  apply Forall_forall. intros c Hc. unfold cleanName in Hc.
  now apply filter_In in Hc.
Qed.

Lemma nameLoop_zero vo co (l : list ascii) :
  Forall (fun c => isUpperLetter c = true) l ->
  (nameLoop vo co l 0 = 0 <-> existsb (counted vo co) l = false).
Proof.
  induction 1 as [ | c l Hc Hl IH]; [cbn; tauto | ].
  rewrite nameLoop_cons0. cbn [existsb]. unfold counted at 1.
  pose proof (letterValueOr0_letter c Hc) as Hv.
  rewrite orb_false_iff, <- IH.
  destruct (vo && negb (includes vowels c)); cbn [negb andb];
    [ | destruct (co && includes vowels c); cbn [negb] ];
    revert Hv; generalize (letterValueOr0 c), (nameLoop vo co l 0);
    intros; split; intros; try split; try lia; try reflexivity;
    try (destruct H; discriminate).
Qed.

Lemma reduced_name_number name vo co :
  if existsb (counted vo co) (cleanName name)
  then In (reduceToSingleDigit (calculateNameNumber name vo co) true)
          withMasters
  else reduceToSingleDigit (calculateNameNumber name vo co) true = 0.
Proof.
  pose proof (nameLoop_zero vo co (cleanName_letters name)) as H.
  rewrite <- calculateNameNumber_loop in H.
  destruct (existsb (counted vo co) (cleanName name)).
  - apply In_withMasters.
    destruct (N.eq_dec (calculateNameNumber name vo co) 0) as [E | E];
      [apply H in E; discriminate | lia].
  - apply reduceToSingleDigit_eq_0. now apply H.
Qed.

(** X8.  The soul urge number is 0 when the name has no vowel among its
    letters and one of 1..9, 11, 22, 33 when it has one; the same holds for
    the personality number and consonants, and for the expression number
    and letters of any kind. *)
Theorem name_numbers_zero_or_range (fullName : string) :
  (if existsb (includes vowels) (cleanName fullName)
   then In (calculateSoulUrgeNumber fullName)
           [1; 2; 3; 4; 5; 6; 7; 8; 9; 11; 22; 33]
   else calculateSoulUrgeNumber fullName = 0)
  /\ (if existsb (fun c => negb (includes vowels c)) (cleanName fullName)
      then In (calculatePersonalityNumber fullName)
              [1; 2; 3; 4; 5; 6; 7; 8; 9; 11; 22; 33]
      else calculatePersonalityNumber fullName = 0)
  /\ (match cleanName fullName with
      | [] => calculateExpressionNumber fullName = 0
      | _ :: _ => In (calculateExpressionNumber fullName)
                     [1; 2; 3; 4; 5; 6; 7; 8; 9; 11; 22; 33]
      end).
Proof.
  split; [ | split ].
  - pose proof (reduced_name_number fullName true false) as H.
    rewrite (existsb_ext_in (counted true false) (includes vowels)) in H.
    + exact H.
    + intros c _. unfold counted. cbn. now rewrite negb_involutive, andb_true_r.
  - pose proof (reduced_name_number fullName false true) as H.
    rewrite (existsb_ext_in (counted false true)
               (fun c => negb (includes vowels c))) in H.
    + exact H.
    + intros c _. reflexivity.
  - unfold calculateExpressionNumber. cbv zeta.
    fold (sumOf (fun name =>
                   reduceToSingleDigit (calculateNameNumber name false false)
                                       true)
                (nameTokens fullName)).
    destruct (sumOf_reduced (fun name => calculateNameNumber name false false)
                true (nameTokens fullName)) as [_ Hz].
    rewrite sumOf_nameTokens in Hz.
    pose proof (nameLoop_zero false false (cleanName_letters fullName)) as H.
    rewrite <- calculateNameNumber_loop in H.
    destruct (cleanName fullName) as [ | c l] eqn:E.
    + apply reduceToSingleDigit_eq_0, Hz, H. reflexivity.
    + apply In_withMasters.
      assert (Hn : calculateNameNumber fullName false false <> 0).
      { intro E0. apply H in E0. cbn in E0. discriminate. }
      revert Hz Hn.
      generalize (sumOf (fun name => reduceToSingleDigit
                           (calculateNameNumber name false false) true)
                        (nameTokens fullName)),
        (calculateNameNumber fullName false false).
      intros a b Hz Hn. assert (a <> 0) by tauto. lia.
Qed.

(** *** Pinnacles, challenges and maturity *)

(** X9.  For a date whose day, month and year are positive,
    [calculatePinnacles] returns four numbers out of 1..9, 11, 22, 33 and
    [calculateChallenges] four numbers between 0 and 8. *)
Theorem pinnacles_challenges_range (day month year : N)
    (Hday : 0 < day) (Hmonth : 0 < month) (Hyear : 0 < year) :
  List.length (calculatePinnacles day month year) = 4%nat
  /\ Forall (fun p => In p [1; 2; 3; 4; 5; 6; 7; 8; 9; 11; 22; 33])
            (calculatePinnacles day month year)
  /\ List.length (calculateChallenges day month year) = 4%nat
  /\ Forall (fun c => (0 <= c <= 8)%Z) (calculateChallenges day month year).
Proof.
  pose proof (@reduceToSingleDigit_pos day true Hday) as Pd.
  pose proof (@reduceToSingleDigit_pos month true Hmonth) as Pm.
  pose proof (@reduceToSingleDigit_pos year true Hyear) as Py.
  pose proof (@reduceToSingleDigit_plain_range day Hday) as Rd.
  pose proof (@reduceToSingleDigit_plain_range month Hmonth) as Rm.
  pose proof (@reduceToSingleDigit_plain_range year Hyear) as Ry.
  split; [reflexivity | ]. split; [ | split; [reflexivity | ] ].
  - unfold calculatePinnacles. cbv zeta.
    assert (P1 : 0 < reduceToSingleDigit
                       (reduceToSingleDigit month true
                        + reduceToSingleDigit day true) true)
      by (apply reduceToSingleDigit_pos; lia).
    assert (P2 : 0 < reduceToSingleDigit
                       (reduceToSingleDigit day true
                        + reduceToSingleDigit year true) true)
      by (apply reduceToSingleDigit_pos; lia).
    repeat (apply Forall_cons; [apply (@In_withMasters _ true); lia | ]).
    apply Forall_nil.
  - unfold calculateChallenges, JS.Math_abs. cbv zeta.
    revert Rd Rm Ry.
    generalize (reduceToSingleDigit day false),
      (reduceToSingleDigit month false), (reduceToSingleDigit year false).
    intros a b c Ra Rb Rc.
    repeat (apply Forall_cons; [lia | ]). apply Forall_nil.
Qed.

Lemma pinnacles_challenges_range_witness :
  Forall (fun p => In p [1; 2; 3; 4; 5; 6; 7; 8; 9; 11; 22; 33])
         (calculatePinnacles 15 5 1990)
  /\ Forall (fun c => (0 <= c <= 8)%Z) (calculateChallenges 15 5 1990).
Proof.
  pose proof (@pinnacles_challenges_range 15 5 1990 eq_refl eq_refl eq_refl)
    as (_ & H1 & _ & H2).
  exact (conj H1 H2).
Defined.


(** *** The Lo Shu grid *)

Lemma filter_length_pos {A : Type} (p : A -> bool) l :
  (0 <? N.of_nat (List.length (filter p l))) = existsb p l.
Proof.
  induction l as [ | x l IH]; [reflexivity | ].
  cbn [filter existsb]. destruct (p x); [ | exact IH ].
  cbn [List.length orb]. apply N.ltb_lt. lia.
Qed.

Lemma existsb_digit_pool (k : N) (pool : list N) :
  existsb (fun digit => match inOneToNine digit with
                        | Some d => d =? k
                        | None => false
                        end) (map Some pool)
  = (1 <=? k) && (k <=? 9) && existsb (N.eqb k) pool.
Proof.
  induction pool as [ | x pool IH]; cbn [map existsb].
  - now rewrite andb_false_r.
  - rewrite IH. unfold inOneToNine.
    destruct (N.eqb_spec k x) as [-> | Hk].
    + destruct ((1 <=? x) && (x <=? 9)); cbn [orb andb];
        [now rewrite N.eqb_refl | reflexivity].
    + replace (match (if (1 <=? x) && (x <=? 9) then Some x else None) with
               | Some d => d =? k
               | None => false
               end) with false; [reflexivity | ].
      destruct ((1 <=? x) && (x <=? 9)); [ | reflexivity ].
      symmetry. apply N.eqb_neq. congruence.
Qed.

(** X11.  The Lo Shu grid has the fixed 3 x 3 layout, and each cell shows
    its number exactly when that number is in the digit set that
    [getLoShuGridDigits] collects for the same date, and 0 otherwise. *)
Theorem generateLoShuGrid_cells (day month year : N) :
  generateLoShuGrid day month year
  = map (map (fun number =>
                if has (getLoShuGridDigits day month year) number
                then number else 0))
        [[4; 9; 2]; [3; 5; 7]; [8; 1; 6]].
Proof.
  unfold generateLoShuGrid, loShuPositions. cbv zeta.
  apply map_ext. intro row. apply map_ext. intro k.
  rewrite filter_length_pos, has_getLoShuGridDigits.
  unfold Spec.inDigitPool.
  rewrite !digitsOf_decimalDigits.
  change ([Some (calculateBirthdayNumber day)]
          ++ [Some (calculateLifePathNumber day month year)])%list
    with (map Some [calculateBirthdayNumber day;
                    calculateLifePathNumber day month year]).
  rewrite <- !map_app, existsb_digit_pool. reflexivity.
Qed.

(** *** The hidden passion number *)

Lemma digits_before (p1 p2 : list N) (h : N) :
  Spec.digits1to9 = (p1 ++ h :: p2)%list ->
  1 <= h <= 9 /\ forall d, 1 <= d < h -> In d p1.
Proof.
  unfold Spec.digits1to9. intro E.
  do 9 (destruct p1 as [ | ? p1];
        [ injection E as <- _; split; [lia | ];
          intros d Hd; cbn;
          assert (Hc : d = 1 \/ d = 2 \/ d = 3 \/ d = 4 \/ d = 5 \/ d = 6
                       \/ d = 7 \/ d = 8) by lia;
          intuition lia
        | injection E as <- E ]).
  destruct p1; discriminate E.
Qed.

(** X12.  The hidden passion number is the digit 1..9 that occurs most
    often among the letter values of the name, the smallest one when
    several digits tie; it is 1 for a name without letters. *)
Theorem getHiddenPassionNumber_most_frequent (name : string) :
  let values := map letterValueOr0 (cleanName name) in
  let h := getHiddenPassionNumber name in
  1 <= h <= 9
  /\ (forall d, 1 <= d <= 9 ->
        (count_occ N.eq_dec values d <= count_occ N.eq_dec values h)%nat)
  /\ (forall d, 1 <= d < h ->
        (count_occ N.eq_dec values d < count_occ N.eq_dec values h)%nat).
Proof.
  cbv zeta.
  set (g := fun d => or0 (objGet (countLetterValues name) d)).
  assert (Hg : forall d, 1 <= d <= 9 ->
            g d = N.of_nat (count_occ N.eq_dec
                              (map letterValueOr0 (cleanName name)) d)).
  { intros d Hd. unfold g. rewrite (countLetterValues_frequency name Hd).
    unfold Spec.frequency. now rewrite nameValues_clean. }
  assert (H0 : scanInv g [] 0 1) by (split; [intros d [] | now left]).
  pose proof (@scan_invariant g Spec.digits1to9 [] 0 1 H0) as Hinv.
  cbv zeta in Hinv. unfold scanInv in Hinv.
  change ([] ++ Spec.digits1to9)%list with Spec.digits1to9 in Hinv.
  change (snd (fold_left _ Spec.digits1to9 (0, 1)))
    with (getHiddenPassionNumber name) in Hinv.
  destruct Hinv as [Hle [ [Hm Hh] | (Hpos & Hfh & p1 & p2 & E & Hp1) ] ].
  - rewrite Hh. rewrite Hm in Hle. split; [lia | ].
    assert (Hz : forall d, 1 <= d <= 9 ->
              count_occ N.eq_dec (map letterValueOr0 (cleanName name)) d = 0%nat).
    { intros d Hd. specialize (Hle d (proj2 (In_digits1to9 d) Hd)).
      rewrite (Hg d Hd) in Hle. lia. }
    split; [ | intros d Hd; lia ].
    intros d Hd. rewrite (Hz d Hd). lia.
  - destruct (@digits_before p1 p2 _ E) as [Hh Hbefore].
    split; [exact Hh | ]. rewrite <- Hfh in Hle, Hp1. split.
    + intros d Hd. specialize (Hle d (proj2 (In_digits1to9 d) Hd)).
      rewrite (Hg d Hd), (Hg _ Hh) in Hle. lia.
    + intros d Hd. specialize (Hp1 d (Hbefore d Hd)).
      rewrite (Hg d ltac:(lia)), (Hg _ Hh) in Hp1. lia.
Qed.

End NumerologyFacts.

(** ** More on the compatibility scores *)

Module ScoreFacts.

Import Numerology Support CompatFacts.
Local Open Scope Q_scope.

Lemma Qfloor_unique (q : Q) (z : Z) :
  inject_Z z <= q -> q < inject_Z (z + 1) -> Qfloor q = z.
Proof.
  intros Hlo Hhi.
  pose proof (Qfloor_le q) as Fle. pose proof (Qlt_floor q) as Flt.
  assert (H1 : inject_Z z < inject_Z (Qfloor q + 1))
    by (eapply Qle_lt_trans; eauto).
  assert (H2 : inject_Z (Qfloor q) < inject_Z (z + 1))
    by (eapply Qle_lt_trans; eauto).
  rewrite <- Zlt_Qlt in H1, H2. lia.
Qed.

Lemma Math_round_wd (x y : Q) : x == y -> JS.Math_round x = JS.Math_round y.
Proof. intro E. unfold JS.Math_round. now rewrite E. Qed.

Lemma matchingPositions_self (a : list Z) : Spec.matchingPositions a a = 4%nat.
Proof.
  unfold Spec.matchingPositions. cbn [filter].
  repeat (destruct (Spec.entry_eq_dec _ _) as [_ | Hne];
          [ | exfalso; now apply Hne ]).
  reflexivity.
Qed.

Lemma scoreLo_nonneg p1 p2 : 0 <= scoreLo p1 p2.
Proof.
  unfold scoreLo, completionBonus.
  assert (H : 0 <= inject_Z (Z.of_nat (matchingDigits p1 p2)) / 9).
  { apply Qle_shift_div_l; [reflexivity | ].
    rewrite Qmult_0_l. change 0 with (inject_Z 0). rewrite <- Zle_Qle. lia. }
  revert H. generalize (inject_Z (Z.of_nat (matchingDigits p1 p2)) / 9).
  intros q Hq. destruct (_ && _); lra.
Qed.

(** X13.  A person compared with themselves always scores 100, in the
    category "Excellent": the equality bonuses and the four matching
    pinnacles outweigh the penalty for the four matching challenges. *)
Theorem calculateAdvancedCompatibility_self (person : Person) :
  score (calculateAdvancedCompatibility person person) = 100%Z
  /\ category (calculateAdvancedCompatibility person person) = labelExcellent.
Proof.
  assert (E : finalScore person person == 1).
  { unfold finalScore, JS.Math_max, JS.Math_min.
    assert (Elp : finalLpScore person person == 1.1).
    { unfold finalLpScore, scoreLp, lpBonus.
      now rewrite Z.sub_diag, Z.eqb_refl. }
    assert (Eex : finalExprScore person person == 1.1).
    { unfold finalExprScore, scoreExpr, exprBonus.
      now rewrite Z.sub_diag, Z.eqb_refl. }
    assert (Eso : finalSoulScore person person == 1.1).
    { unfold finalSoulScore, scoreSoul, soulBonus.
      now rewrite Z.sub_diag, Z.eqb_refl. }
    assert (Epe : finalPersonScore person person == 1.1).
    { unfold finalPersonScore, scorePerson, personBonus.
      now rewrite Z.sub_diag, Z.eqb_refl. }
    assert (Ebd : scoreBday person person == 1).
    { unfold scoreBday. now rewrite Z.sub_diag. }
    assert (Ehi : scoreHidden person person == 1).
    { unfold scoreHidden, hidden1, hidden2. now rewrite N.eqb_refl. }
    assert (Epi : pinnacleBonus person person == 0.1).
    { rewrite pinnacleBonus_spec. unfold Spec.pinnacleTerm.
      now rewrite matchingPositions_self. }
    assert (Ech : challengePenalty person person == 0.05).
    { rewrite challengePenalty_spec. unfold Spec.challengeTerm.
      now rewrite matchingPositions_self. }
    pose proof (scoreLo_nonneg person person) as Hlo.
    rewrite Elp, Eex, Eso, Epe, Ebd, Ehi, Epi, Ech.
    revert Hlo. generalize (scoreLo person person). intros lo Hlo.
    rewrite Q.min_l by lra. apply Q.max_r. lra. }
  assert (Es : percentage person person = 100%Z).
  { unfold percentage. rewrite (Math_round_wd (x := _) (y := 1 * 100));
      [reflexivity | now rewrite E]. }
  cbn [score category calculateAdvancedCompatibility]. rewrite Es.
  split; reflexivity.
Qed.

(** X14.  The legacy score is 100 - floor(25 * |a - b| / 2): it is
    symmetric in the two life path numbers, 100 exactly when they are
    equal, and not negative exactly when they differ by at most 8. *)
Theorem calculateCompatibilityScore_closed_form (a b : Z) :
  calculateCompatibilityScore a b = (100 - (25 * Z.abs (a - b)) / 2)%Z
  /\ calculateCompatibilityScore a b = calculateCompatibilityScore b a
  /\ (calculateCompatibilityScore a b = 100%Z <-> a = b)
  /\ ((0 <= calculateCompatibilityScore a b)%Z <-> (Z.abs (a - b) <= 8)%Z).
Proof.
  assert (F : forall x y,
            calculateCompatibilityScore x y
            = (100 - (25 * Z.abs (x - y)) / 2)%Z).
  { intros x y. unfold calculateCompatibilityScore, JS.Math_round, JS.Math_abs.
    cbv zeta. generalize (Z.abs (x - y)). intro k.
    destruct (Z.Even_or_Odd k) as [ [j Hj] | [j Hj] ]; rewrite Hj.
    - replace ((25 * (2 * j)) / 2)%Z with (25 * j)%Z
        by (apply Z.div_unique with 0%Z; lia).
      apply Qfloor_unique; unfold Z.sub;
        rewrite !inject_Z_plus, ?inject_Z_opp, !inject_Z_mult;
        generalize (inject_Z j); intro q; eighths; unfold inject_Z; lra.
    - replace ((25 * (2 * j + 1)) / 2)%Z with (25 * j + 12)%Z
        by (apply Z.div_unique with 1%Z; lia).
      apply Qfloor_unique; unfold Z.sub;
        rewrite !inject_Z_plus, ?inject_Z_opp, ?inject_Z_plus, !inject_Z_mult;
        generalize (inject_Z j); intro q; eighths; unfold inject_Z; lra. }
  rewrite !F.
  replace (Z.abs (b - a)) with (Z.abs (a - b)) by lia.
  pose proof (Z.abs_nonneg (a - b)) as Hn.
  assert (Hz : Z.abs (a - b) = 0%Z <-> a = b) by lia.
  revert Hn Hz. generalize (Z.abs (a - b)). intros k Hn Hz.
  pose proof (Z.div_mod (25 * k) 2 ltac:(lia)) as Hd.
  pose proof (Z.mod_pos_bound (25 * k) 2 ltac:(lia)) as Hb.
  revert Hd Hb. generalize ((25 * k) / 2)%Z, ((25 * k) mod 2)%Z.
  intros d m Hd Hb. repeat split; lia.
Qed.

End ScoreFacts.

(** ** Remainders and floors *)

Module RuntimeFacts.

Local Open Scope Q_scope.

Lemma trunc_nonneg (q : Q) : 0 <= q -> JS.trunc q = Qfloor q.
Proof.
  intro H. unfold JS.trunc.
  now rewrite (proj2 (Qle_bool_iff 0 q) H).
Qed.

(** [x % m] of a number that is not negative is the remainder of the
    floored division, and lies in [0, m). *)
Lemma rem_nonneg (x m : Q) :
  0 <= x -> 0 < m ->
  JS.rem x m = x - m * inject_Z (Qfloor (x / m))
  /\ 0 <= JS.rem x m < m.
Proof.
  intros Hx Hm.
  assert (Hq : 0 <= x / m).
  { apply Qle_shift_div_l; [exact Hm | ]. now rewrite Qmult_0_l. }
  unfold JS.rem. rewrite (trunc_nonneg Hq). split; [reflexivity | ].
  pose proof (Qfloor_le (x / m)) as Fle.
  pose proof (Qlt_floor (x / m)) as Flt.
  rewrite inject_Z_plus in Flt. change (inject_Z 1) with 1 in Flt.
  assert (Ex : x == (x / m) * m).
  { rewrite Qmult_comm, Qmult_div_r; [reflexivity | ].
    intro E. rewrite E in Hm. now apply Qlt_irrefl in Hm. }
  revert Fle Flt. generalize (inject_Z (Qfloor (x / m))). intros f Fle Flt.
  revert Hq Fle Flt Ex. generalize (x / m). intros q Hq Fle Flt Ex.
  assert (H1 : f * m <= q * m) by (apply Qmult_le_compat_r; lra).
  assert (H2 : q * m < (f + 1) * m) by (apply Qmult_lt_r; lra).
  split; lra.
Qed.

Lemma Qfloor_nonneg (q : Q) : 0 <= q -> (0 <= Qfloor q)%Z.
Proof.
  intro H. change 0%Z with (Qfloor 0). now apply Qfloor_resp_le.
Qed.

Lemma Qfloor_lt_int (q : Q) (n : Z) : q < inject_Z n -> (Qfloor q < n)%Z.
Proof.
  intro H. pose proof (Qfloor_le q) as Fle.
  rewrite Zlt_Qlt. eapply Qle_lt_trans; eauto.
Qed.

Lemma Qfloor_ge_int (q : Q) (n : Z) : inject_Z n <= q -> (n <= Qfloor q)%Z.
Proof.
  intro H. rewrite <- (Qfloor_Z n). now apply Qfloor_resp_le.
Qed.

Lemma Qfloor_neg (q : Q) : q < 0 -> (Qfloor q < 0)%Z.
Proof. intro H. apply Qfloor_lt_int. exact H. Qed.

End RuntimeFacts.

(** ** Nakshatra and pada *)

Module EphemerisRanges.
Import Ephemeris Support RuntimeFacts.
Local Open Scope Q_scope.
Local Open Scope string_scope.

Ltac width :=
  unfold Qdiv in *;
  change (/ 13.333333) with (1000000 # 13333333) in *.

Lemma nakshatra_index_bounds (L : Q) :
  (0 <= L <-> (0 <= Qfloor (L / 13.333333))%Z)
  /\ (L < 359.999991 <-> (Qfloor (L / 13.333333) <= 26)%Z).
Proof.
  split; split; intro H.
  - apply Qfloor_nonneg. width. lra.
  - destruct (Qlt_le_dec L 0) as [Hn | Hp]; [ | exact Hp].
    assert (Hf : (Qfloor (L / 13.333333) < 0)%Z).
    { apply Qfloor_neg. width. lra. }
    lia.
  - assert (Hf : (Qfloor (L / 13.333333) < 27)%Z).
    { apply Qfloor_lt_int. width. unfold inject_Z. lra. }
    lia.
  - destruct (Qlt_le_dec L 359.999991) as [Hn | Hp]; [exact Hn | ].
    assert (Hf : (27 <= Qfloor (L / 13.333333))%Z).
    { apply Qfloor_ge_int. width. unfold inject_Z. lra. }
    lia.
Qed.

Lemma NAKSHATRAS_named (i : Z) :
  (0 <= i <= 26)%Z ->
  exists n, JS.index NAKSHATRAS i = Some n /\ n <> "Unknown".
Proof.
  intro H.
  assert (E : In i [0;1;2;3;4;5;6;7;8;9;10;11;12;13;14;15;16;17;18;19;20;
                    21;22;23;24;25;26]%Z) by (cbn; lia).
  cbn in E.
  repeat (destruct E as [E | E];
          [subst i; eexists; split; [reflexivity | discriminate] | ]).
  contradiction.
Qed.

Lemma NAKSHATRAS_outside (i : Z) :
  (i < 0 \/ 26 < i)%Z -> JS.index NAKSHATRAS i = None.
Proof.
  intro H. unfold JS.index.
  destruct (i <? 0)%Z eqn:E; [reflexivity | ].
  apply Z.ltb_ge in E. apply nth_error_None.
  change (List.length NAKSHATRAS) with 27%nat. lia.
Qed.

Lemma pada_bounds (L : Q) :
  0 <= L -> (1 <= snd (getNakshatraPada L) <= 4)%Z.
Proof.
  intro H. unfold getNakshatraPada. cbn [snd]. unfold JS.Math_floor.
  assert (Hw : 0 < 13.333333) by reflexivity.
  destruct (rem_nonneg H Hw) as [_ [R0 R1]].
  revert R0 R1. generalize (JS.rem L 13.333333). intros r R0 R1.
  assert (F0 : (0 <= Qfloor (r / 13.333333 * 4))%Z).
  { apply Qfloor_nonneg. width. lra. }
  assert (F1 : (Qfloor (r / 13.333333 * 4) < 4)%Z).
  { apply Qfloor_lt_int. width. unfold inject_Z. lra. }
  lia.
Qed.

Lemma getNakshatraPada_cases (moonLongitude : Q) :
  (fst (getNakshatraPada moonLongitude) = "Unknown"
   <-> moonLongitude < 0 \/ 359.999991 <= moonLongitude)
  /\ (fst (getNakshatraPada moonLongitude) <> "Unknown" ->
      In (fst (getNakshatraPada moonLongitude)) NAKSHATRAS)
  /\ (0 <= moonLongitude ->
      (1 <= snd (getNakshatraPada moonLongitude) <= 4)%Z).
Proof.
  destruct (nakshatra_index_bounds moonLongitude) as [B0 B1].
  unfold getNakshatraPada at 1 2 3. cbn [fst]. unfold JS.Math_floor.
  split; [ | split].
  - split.
    + intro E.
      destruct (Qlt_le_dec moonLongitude 0) as [Hn | Hp]; [now left | ].
      destruct (Qlt_le_dec moonLongitude 359.999991) as [Hl | Hg];
        [ | now right].
      exfalso.
      destruct (@NAKSHATRAS_named (Qfloor (moonLongitude / 13.333333)))
        as (n & En & Hn).
      { split; [now apply B0 | now apply B1]. }
      rewrite En in E. now apply Hn.
    + intro H. rewrite NAKSHATRAS_outside; [reflexivity | ].
      destruct H as [H | H].
      * left. destruct (Z.lt_ge_cases (Qfloor (moonLongitude / 13.333333)) 0)
          as [Hl | Hg]; [exact Hl | ].
        apply B0 in Hg. lra.
      * right.
        destruct (Z.lt_ge_cases 26 (Qfloor (moonLongitude / 13.333333)))
          as [Hl | Hg]; [exact Hl | ].
        apply B1 in Hg. lra.
  - destruct (JS.index NAKSHATRAS (Qfloor (moonLongitude / 13.333333)))
      as [n | ] eqn:E; [ | congruence].
    intros _. unfold JS.index in E.
    destruct (_ <? 0)%Z; [discriminate | ].
    eapply nth_error_In; eauto.
  - apply pada_bounds.
Qed.

(** X15.  [getNakshatraPada] names a nakshatra of the table exactly for a
    longitude in [0, 359.999991), 27 times the width 13.333333 it divides
    by; below 0 and from 359.999991 on, the last 0.000009 degrees of the
    circle included, the name is the fallback "Unknown".  The pada of a
    longitude that is not negative is one of 1, 2, 3, 4. *)
Theorem getNakshatraPada_unknown (moonLongitude : Q) :
  (fst (getNakshatraPada moonLongitude) = "Unknown"
   <-> moonLongitude < 0 \/ 359.999991 <= moonLongitude)
  /\ (fst (getNakshatraPada moonLongitude) <> "Unknown" ->
      In (fst (getNakshatraPada moonLongitude)) NAKSHATRAS)
  /\ (0 <= moonLongitude ->
      (1 <= snd (getNakshatraPada moonLongitude) <= 4)%Z).
Proof. exact (getNakshatraPada_cases moonLongitude). Qed.

End EphemerisRanges.

(** ** Julian days *)

Module CalendarFacts.
Import Ephemeris ChartNotions.
Local Open Scope Z_scope.

Lemma era_year (doe : Z) :
  0 <= doe < 146097 -> 0 <= yearOfEra doe <= 399.
Proof. intro H. unfold yearOfEra. Z.div_mod_to_equations. lia. Qed.

Lemma era_day (doe : Z) :
  0 <= doe < 146097 -> 0 <= dayOfYear doe <= 365.
Proof.
  intro H. unfold dayOfYear, yearOfEra. Z.div_mod_to_equations. lia.
Qed.

Lemma civil_eq (day : Z) :
  let z := day + 719468 in
  let era := z / 146097 in
  let doe := z - era * 146097 in
  let yoe := yearOfEra doe in
  let doy := dayOfYear doe in
  let mp := (5 * doy + 2) / 153 in
  JS.Date.civil day
  = ((if (if mp <? 10 then mp + 3 else mp - 9) <=? 2
      then yoe + era * 400 + 1 else yoe + era * 400),
     (if mp <? 10 then mp + 3 else mp - 9) - 1,
     doy - (153 * mp + 2) / 5 + 1).
Proof. reflexivity. Qed.

(** The day number of [toJulianDay] is the day number of the time value
    plus 2440588. *)
Lemma civil_julianDayNumber (day : Z) :
  julianDayNumber (fst (fst (JS.Date.civil day)))
                  (snd (fst (JS.Date.civil day)))
                  (snd (JS.Date.civil day))
  = day + 2440588.
Proof.
  rewrite civil_eq. cbv zeta. cbn [fst snd].
  set (z := day + 719468).
  set (era := z / 146097).
  set (doe := z - era * 146097).
  assert (Hdoe : 0 <= doe < 146097).
  { subst doe era. pose proof (Z.div_mod z 146097).
    pose proof (Z.mod_pos_bound z 146097). lia. }
  pose proof (era_year Hdoe) as Hy. pose proof (era_day Hdoe) as Hd.
  assert (Edoy : dayOfYear doe
                 = doe - (365 * yearOfEra doe + yearOfEra doe / 4
                          - yearOfEra doe / 100)) by reflexivity.
  revert Edoy Hd. generalize (dayOfYear doe). intros doy Edoy Hd.
  revert Edoy Hy. generalize (yearOfEra doe). intros yoe Edoy Hy.
  assert (Hmp : 0 <= (5 * doy + 2) / 153 <= 11).
  { Z.div_mod_to_equations. lia. }
  revert Hmp. generalize ((5 * doy + 2) / 153). intros mp Hmp.
  unfold julianDayNumber. subst doe z.
  destruct (mp <? 10) eqn:E.
  - apply Z.ltb_lt in E.
    assert (E2 : (mp + 3 <=? 2) = false) by (apply Z.leb_gt; lia).
    rewrite E2.
    replace ((14 - (mp + 3 - 1 + 1)) / 12) with 0
      by (Z.div_mod_to_equations; lia).
    replace (mp + 3 - 1 + 1 + 12 * 0 - 3) with mp by lia.
    Z.div_mod_to_equations. lia.
  - apply Z.ltb_ge in E.
    assert (E2 : (mp - 9 <=? 2) = true) by (apply Z.leb_le; lia).
    rewrite E2.
    replace ((14 - (mp - 9 - 1 + 1)) / 12) with 1
      by (Z.div_mod_to_equations; lia).
    replace (mp - 9 - 1 + 1 + 12 * 1 - 3) with mp by lia.
    Z.div_mod_to_equations. lia.
Qed.

Lemma julianDayNumber_eq (year month date : Z) :
  julianDayNumber year month date
  = date + (153 * (month + 1 + 12 * ((14 - (month + 1)) / 12) - 3) + 2) / 5
    + 365 * (year + 4800 - (14 - (month + 1)) / 12)
    + (year + 4800 - (14 - (month + 1)) / 12) / 4
    - (year + 4800 - (14 - (month + 1)) / 12) / 100
    + (year + 4800 - (14 - (month + 1)) / 12) / 400
    - 32045.
Proof. reflexivity. Qed.

Lemma time_of_day (t : Z) :
  t / 1000
  = (t / 86400000) * 86400 + ((t mod 86400000) / 3600000) * 3600
    + ((t mod 3600000) / 60000) * 60 + (t mod 60000) / 1000.
Proof. Z.div_mod_to_equations. lia. Qed.

Local Open Scope Q_scope.

Lemma toJulianDay_seconds (date : JS.Date.t) :
  toJulianDay date
  == inject_Z (JS.Date.getTime date / 1000) / 86400 + 2440587.5.
Proof.
  unfold toJulianDay. cbv zeta.
  rewrite <- julianDayNumber_eq.
  unfold JS.Date.getFullYear, JS.Date.getMonth, JS.Date.getDate.
  rewrite civil_julianDayNumber.
  rewrite (time_of_day (JS.Date.getTime date)).
  unfold JS.Date.getHours, JS.Date.getMinutes, JS.Date.getSeconds,
    JS.Date.msPerDay.
  generalize (JS.Date.getTime date / 86400000)%Z,
    ((JS.Date.getTime date mod 86400000) / 3600000)%Z,
    ((JS.Date.getTime date mod 3600000) / 60000)%Z,
    ((JS.Date.getTime date mod 60000) / 1000)%Z.
  intros d h m s.
  unfold Z.sub.
  rewrite !inject_Z_plus, !inject_Z_mult.
  generalize (inject_Z d), (inject_Z h), (inject_Z m), (inject_Z s).
  intros qd qh qm qs.
  unfold Qdiv.
  change (/ 24) with (1 # 24). change (/ 1440) with (1 # 1440).
  change (/ 86400) with (1 # 86400).
  unfold inject_Z. cbn [Z.opp]. lra.
Qed.

(** X16.  [toJulianDay] of a date is the Julian date of its instant to the
    second: the whole seconds since the Unix epoch, divided by 86400, plus
    2440587.5 (the process time zone being UTC). *)
Theorem toJulianDay_epoch (date : JS.Date.t) :
  toJulianDay date
  == inject_Z (JS.Date.getTime date / 1000) / 86400 + 2440587.5.
Proof. exact (toJulianDay_seconds date). Qed.

End CalendarFacts.

(** ** Charts of births from the epoch J2000 on *)

Module ChartFacts.
Import Ephemeris Support ChartNotions RuntimeFacts.
Import EphemerisRanges CalendarFacts.
Local Open Scope Q_scope.
Local Open Scope string_scope.

Lemma centuries_bounds (jd : Q) :
  2451545 <= jd <= 6104045 ->
  0 <= centuries jd <= 100.
Proof.
  intro H. unfold centuries, Qdiv.
  change (/ 36525.0) with (10 # 365250). lra.
Qed.

Lemma square_bounds (T : Q) :
  0 <= T <= 100 -> 0 <= T * T <= 100 * T.
Proof.
  intros [H0 H1]. split.
  - apply Qmult_le_0_compat; assumption.
  - apply Qmult_le_compat_r; assumption.
Qed.

Lemma calculatePlanetLongitude_range (id : Z) (jd : Q) :
  0 <= centuries jd <= 100 ->
  0 <= calculatePlanetLongitude id jd < 360.
Proof.
  intro H. pose proof (square_bounds H) as HS.
  assert (H360 : 0 < 360) by reflexivity.
  unfold calculatePlanetLongitude. cbv zeta.
  change ((jd - 2451545.0) / 36525.0) with (centuries jd).
  revert H HS. generalize (centuries jd). intros T H HS.
  assert (D : forall x, 0 <= x -> 0 <= JS.rem x 360 < 360).
  { intros x Hx. exact (proj2 (rem_nonneg Hx H360)). }
  assert (Z0 : 0 <= 0 < 360) by (split; [apply Qle_refl | reflexivity]).
  destruct id as [ | p | p]; [apply D; lra | | exact Z0].
  destruct p as [[[p | p | ] | [p | p | ] | ] | [[p | p | ] | [p | p | ] | ] | ];
    cbv beta iota; first [exact Z0 | apply D; lra].
Qed.

Lemma calculateAyanamsa_bounds (jd : Q) :
  0 <= centuries jd <= 100 -> 23.85 <= calculateAyanamsa jd <= 63.45.
Proof.
  intro H. unfold calculateAyanamsa. cbv zeta.
  change ((jd - 2451545.0) / 36525.0) with (centuries jd).
  revert H. generalize (centuries jd). intros T H. lra.
Qed.

Lemma sidereal_range (raw ay : Q) :
  0 <= raw < 360 -> 0 <= ay <= 360 ->
  0 <= JS.rem (raw - ay + 360) 360 < 360.
Proof.
  intros Hr Ha.
  assert (H360 : 0 < 360) by reflexivity.
  assert (Hx : 0 <= raw - ay + 360) by lra.
  exact (proj2 (rem_nonneg Hx H360)).
Qed.

Lemma sign_degree (s : Q) :
  0 <= s < 360 ->
  (0 <= JS.Math_floor (s / 30) <= 11)%Z
  /\ 0 <= JS.rem s 30 < 30
  /\ inject_Z (JS.Math_floor (s / 30)) * 30 + JS.rem s 30 == s.
Proof.
  intros [H0 H1].
  assert (H30 : 0 < 30) by reflexivity.
  destruct (rem_nonneg H0 H30) as [E B].
  unfold JS.Math_floor. split; [ | split; [exact B | ]].
  - split.
    + apply Qfloor_nonneg. unfold Qdiv. change (/ 30) with (1 # 30). lra.
    + assert (F : (Qfloor (s / 30) < 12)%Z).
      { apply Qfloor_lt_int. unfold Qdiv, inject_Z.
        change (/ 30) with (1 # 30). lra. }
      lia.
  - rewrite E. ring.
Qed.

Lemma planetPosition_wellPlaced (name : string) (id : Z) (jd : Q) :
  0 <= centuries jd <= 100 ->
  wellPlaced (planetPosition name id jd (calculateAyanamsa jd)).
Proof.
  intro H.
  pose proof (calculatePlanetLongitude_range id H) as Hraw.
  pose proof (calculateAyanamsa_bounds H) as Hay.
  assert (Hs : 0 <= JS.rem (calculatePlanetLongitude id jd
                            - calculateAyanamsa jd + 360) 360 < 360).
  { apply sidereal_range; [exact Hraw | lra]. }
  destruct (sign_degree Hs) as (S1 & S2 & S3).
  unfold planetPosition. cbv zeta.
  destruct (String.eqb name "MOON").
  - pose proof (pada_bounds (proj1 Hs)) as Hp.
    destruct (getNakshatraPada _) as [n p]. cbn [snd] in Hp.
    unfold wellPlaced. cbn [longitude sign degree pada].
    repeat split; tauto || lia.
  - unfold wellPlaced. cbn [longitude sign degree pada].
    repeat split; tauto || lia.
Qed.

(** The record written for Ketu from a record of Rahu. *)
Lemma ketu_wellPlaced (rahu : PlanetPosition) :
  wellPlaced rahu ->
  wellPlaced
    {| longitude := JS.rem (longitude rahu + 180) 360;
       sign := JS.remZ (sign rahu + 6) 12;
       degree := degree rahu;
       nakshatra := nakshatra rahu;
       pada := pada rahu;
       retrograde := retrograde rahu |}.
Proof.
  unfold wellPlaced. cbn [longitude sign degree pada].
  intros (HL & HS & HD & HE & HP).
  assert (H360 : 0 < 360) by reflexivity.
  assert (Hx : 0 <= longitude rahu + 180) by lra.
  destruct (rem_nonneg Hx H360) as [E B].
  split; [exact B | ].
  assert (Hrem : JS.remZ (sign rahu + 6) 12
                 = if (sign rahu <? 6)%Z then (sign rahu + 6)%Z
                   else (sign rahu - 6)%Z).
  { unfold JS.remZ. rewrite Z.rem_mod_nonneg by lia.
    destruct (sign rahu <? 6)%Z eqn:C.
    - apply Z.ltb_lt in C. apply Z.mod_small. lia.
    - apply Z.ltb_ge in C.
      replace (sign rahu + 6)%Z with (sign rahu - 6 + 1 * 12)%Z by lia.
      rewrite Z.mod_add by lia. apply Z.mod_small. lia. }
  rewrite Hrem, E. clear E Hrem B.
  revert HL HD HE Hx.
  generalize (longitude rahu), (degree rahu). intros L d HL HD HE Hx.
  destruct (sign rahu <? 6)%Z eqn:C.
  - apply Z.ltb_lt in C.
    assert (HSq : inject_Z (sign rahu) <= 5).
    { change 5 with (inject_Z 5). rewrite <- Zle_Qle. lia. }
    assert (F : Qfloor ((L + 180) / 360) = 0%Z).
    { apply ScoreFacts.Qfloor_unique; unfold Qdiv, inject_Z;
        change (/ 360) with (1 # 360); cbn [Z.add Pos.add]; lra. }
    rewrite F. split; [lia | ]. split; [exact HD | ]. split; [ | exact HP].
    rewrite inject_Z_plus. unfold inject_Z at 2 3. lra.
  - apply Z.ltb_ge in C.
    assert (HSq : 6 <= inject_Z (sign rahu)).
    { change 6 with (inject_Z 6). rewrite <- Zle_Qle. lia. }
    assert (F : Qfloor ((L + 180) / 360) = 1%Z).
    { apply ScoreFacts.Qfloor_unique; unfold Qdiv, inject_Z;
        change (/ 360) with (1 # 360); cbn [Z.add Pos.add]; lra. }
    rewrite F. split; [lia | ]. split; [exact HD | ]. split; [ | exact HP].
    unfold Z.sub. rewrite inject_Z_plus. unfold inject_Z at 2 3.
    cbn [Z.opp]. lra.
Qed.

(** The planet table of a chart: the nine entries of the loop, the last
    one replaced by the record written from Rahu's. *)
Lemma computeNatalChart_planets (lat lon : Q) (birthDateTime : JS.Date.t) :
  let jd := toJulianDay birthDateTime in
  let ay := calculateAyanamsa jd in
  let rahu := planetPosition "RAHU" 11 jd ay in
  planets (computeNatalChart lat lon birthDateTime)
  = [ ("sun", planetPosition "SUN" 0 jd ay);
      ("moon", planetPosition "MOON" 1 jd ay);
      ("mercury", planetPosition "MERCURY" 2 jd ay);
      ("venus", planetPosition "VENUS" 3 jd ay);
      ("mars", planetPosition "MARS" 4 jd ay);
      ("jupiter", planetPosition "JUPITER" 5 jd ay);
      ("saturn", planetPosition "SATURN" 6 jd ay);
      ("rahu", rahu);
      ("ketu", {| longitude := JS.rem (longitude rahu + 180) 360;
                  sign := JS.remZ (sign rahu + 6) 12;
                  degree := degree rahu;
                  nakshatra := nakshatra rahu;
                  pada := pada rahu;
                  retrograde := retrograde rahu |}) ].
Proof.
  cbv zeta. unfold computeNatalChart. cbv zeta.
  rewrite EphemerisFacts.planets_loop. reflexivity.
Qed.

Lemma toJulianDay_bounds (birthDateTime : JS.Date.t) :
  (946728000000 <= JS.Date.getTime birthDateTime <= 316522728000000)%Z ->
  2451545 <= toJulianDay birthDateTime <= 6104045.
Proof.
  intro H. rewrite (toJulianDay_seconds birthDateTime).
  assert (Hs : (946728000 <= JS.Date.getTime birthDateTime / 1000
                <= 316522728000)%Z).
  { Z.div_mod_to_equations. lia. }
  destruct Hs as [H1 H2].
  rewrite Zle_Qle in H1, H2. revert H1 H2.
  generalize (inject_Z (JS.Date.getTime birthDateTime / 1000)).
  intros q H1 H2. unfold inject_Z in *. unfold Qdiv.
  change (/ 86400) with (1 # 86400). lra.
Qed.

Lemma ascendant_range (lon jd : Q) :
  0 <= centuries jd <= 100 -> - (180) <= lon ->
  (0 <= JS.Math_floor
          (JS.rem (JS.rem ((jd - 2451545.0) * 1.00273790935 + 280.46061837
                           + lon / 15) 360
                   - calculateAyanamsa jd + 360) 360 / 30) <= 11)%Z.
Proof.
  intros H Hlon.
  pose proof (calculateAyanamsa_bounds H) as Hay.
  assert (H360 : 0 < 360) by reflexivity.
  assert (Hx : 0 <= (jd - 2451545.0) * 1.00273790935 + 280.46061837
                    + lon / 15).
  { unfold centuries, Qdiv in H. change (/ 36525.0) with (10 # 365250) in H.
    unfold Qdiv. change (/ 15) with (1 # 15). lra. }
  pose proof (proj2 (rem_nonneg Hx H360)) as Ha.
  assert (Hs : 0 <= JS.rem (JS.rem ((jd - 2451545.0) * 1.00273790935
                                    + 280.46061837 + lon / 15) 360
                            - calculateAyanamsa jd + 360) 360 < 360).
  { apply sidereal_range; [exact Ha | lra]. }
  exact (proj1 (sign_degree Hs)).
Qed.

(** The houses, from an ascendant in range: the twelve signs in cyclic
    order, starting at the ascendant. *)
Lemma houses_rotation (a : Z) :
  (0 <= a <= 11)%Z ->
  map (fun i => JS.remZ (a + i) 12) signs
  = (skipn (Z.to_nat a) signs ++ firstn (Z.to_nat a) signs)%list.
Proof.
  intro H.
  assert (E : In a signs) by (cbn; lia).
  cbn in E.
  repeat (destruct E as [E | E]; [subst a; reflexivity | ]).
  contradiction.
Qed.

Lemma computeNatalChart_ascendant (lat lon : Q) (birthDateTime : JS.Date.t) :
  let jd := toJulianDay birthDateTime in
  ascendant (computeNatalChart lat lon birthDateTime)
  = JS.Math_floor
      (JS.rem (JS.rem ((jd - 2451545.0) * 1.00273790935 + 280.46061837
                       + lon / 15) 360
               - calculateAyanamsa jd + 360) 360 / 30)
  /\ houses (computeNatalChart lat lon birthDateTime)
     = map (fun i => JS.remZ (ascendant (computeNatalChart lat lon birthDateTime)
                              + i) 12) signs.
Proof.
  unfold computeNatalChart, signs. cbv zeta. cbn [ascendant houses].
  split; reflexivity.
Qed.

Lemma moon_nakshatra (jd : Q) :
  0 <= centuries jd <= 100 ->
  let moon := planetPosition "MOON" 1 jd (calculateAyanamsa jd) in
  (nakshatra moon = "Unknown" <-> 359.999991 <= longitude moon)
  /\ (longitude moon < 359.999991 -> In (nakshatra moon) NAKSHATRAS).
Proof.
  intro H. cbv zeta.
  pose proof (planetPosition_wellPlaced "MOON" 1 H) as W.
  destruct W as ([W0 W1] & _). revert W0 W1.
  unfold planetPosition. cbv zeta. cbn [String.eqb Ascii.eqb Bool.eqb andb].
  set (s := JS.rem _ 360).
  destruct (getNakshatraPada_cases s) as (C1 & C2 & _).
  destruct (getNakshatraPada s) as [n p]. cbn [fst] in C1, C2.
  cbn [longitude nakshatra]. intros W0 W1. split.
  - rewrite C1. split; [intros [Hn | Hg]; [lra | exact Hg] | now right].
  - intro Hl. apply C2. rewrite C1. intros [Hn | Hg]; lra.
Qed.

(** X17.  For a birth between 1 January 2000, 12:00 UTC (the epoch J2000)
    and 100 Julian centuries later, and a geographic longitude of -180 or
    more, [computeNatalChart] keeps every range: each of the nine planets
    has a longitude in [0, 360), a sign in 0..11, a degree in [0, 30) with
    sign * 30 + degree = longitude, and a pada in 1..4; the Moon carries a
    nakshatra of the table unless its longitude is 359.999991 or more; the
    ascendant is in 0..11 and the houses are the twelve signs in cyclic
    order from the ascendant. *)
Theorem computeNatalChart_in_range
    (lat lon : Q) (birthDateTime : JS.Date.t) :
  (946728000000 <= JS.Date.getTime birthDateTime <= 316522728000000)%Z ->
  - (180) <= lon ->
  let chart := computeNatalChart lat lon birthDateTime in
  Forall (fun entry => wellPlaced (snd entry)) (planets chart)
  /\ (forall moon,
        JS.objGet String.eqb (planets chart) "moon" = Some moon ->
        (nakshatra moon = "Unknown" <-> 359.999991 <= longitude moon)
        /\ (longitude moon < 359.999991 -> In (nakshatra moon) NAKSHATRAS))
  /\ (0 <= ascendant chart <= 11)%Z
  /\ houses chart
     = (skipn (Z.to_nat (ascendant chart)) signs
        ++ firstn (Z.to_nat (ascendant chart)) signs)%list
  /\ Permutation signs (houses chart).
Proof.
  intros Ht Hlon chart.
  pose proof (centuries_bounds (toJulianDay_bounds _ Ht)) as HT.
  assert (Hasc : (0 <= ascendant chart <= 11)%Z).
  { subst chart.
    rewrite (proj1 (computeNatalChart_ascendant lat lon birthDateTime)).
    exact (ascendant_range HT Hlon). }
  assert (Hh : houses chart
               = (skipn (Z.to_nat (ascendant chart)) signs
                  ++ firstn (Z.to_nat (ascendant chart)) signs)%list).
  { subst chart.
    rewrite (proj2 (computeNatalChart_ascendant lat lon birthDateTime)).
    exact (houses_rotation Hasc). }
  split; [ | split; [ | split; [exact Hasc | split; [exact Hh | ]]]].
  - subst chart. rewrite computeNatalChart_planets. cbv zeta.
    repeat (apply Forall_cons;
            [cbn [snd];
             first [ apply planetPosition_wellPlaced; exact HT
                   | apply ketu_wellPlaced, planetPosition_wellPlaced;
                     exact HT ] | ]).
    apply Forall_nil.
  - subst chart. rewrite computeNatalChart_planets. cbv zeta.
    intros moon E. injection E as <-. exact (moon_nakshatra HT).
  - rewrite Hh. rewrite <- (firstn_skipn (Z.to_nat (ascendant chart)) signs)
      at 1.
    apply Permutation_app_comm.
Qed.

Lemma computeNatalChart_in_range_witness :
  let chart := computeNatalChart 28.6 77.2 (JS.Date.at_ 2010 4 15 10 30 0) in
  Forall (fun entry => wellPlaced (snd entry)) (planets chart)
  /\ (forall moon,
        JS.objGet String.eqb (planets chart) "moon" = Some moon ->
        (nakshatra moon = "Unknown" <-> 359.999991 <= longitude moon)
        /\ (longitude moon < 359.999991 -> In (nakshatra moon) NAKSHATRAS))
  /\ (0 <= ascendant chart <= 11)%Z
  /\ houses chart
     = (skipn (Z.to_nat (ascendant chart)) signs
        ++ firstn (Z.to_nat (ascendant chart)) signs)%list
  /\ Permutation signs (houses chart).
Proof.
  apply (@computeNatalChart_in_range 28.6 77.2 (JS.Date.at_ 2010 4 15 10 30 0)).
  - vm_compute. split; discriminate.
  - vm_compute. discriminate.
Defined.

(** X20.  Every chart of [computeNatalChart] has exactly the nine entries
    sun, moon, mercury, venus, mars, jupiter, saturn, rahu, ketu, in this
    order (the assignment to ketu replaces the entry of the loop in place);
    no planet is marked retrograde, only the Moon carries a nakshatra and a
    computed pada, and there are twelve houses. *)
Theorem computeNatalChart_table (lat lon : Q) (birthDateTime : JS.Date.t) :
  let chart := computeNatalChart lat lon birthDateTime in
  map fst (planets chart)
  = ["sun"; "moon"; "mercury"; "venus"; "mars"; "jupiter"; "saturn";
     "rahu"; "ketu"]
  /\ Forall (fun entry =>
               retrograde (snd entry) = false
               /\ (fst entry <> "moon" ->
                   nakshatra (snd entry) = "" /\ pada (snd entry) = 1%Z))
            (planets chart)
  /\ List.length (houses chart) = 12%nat.
Proof.
  cbv zeta. rewrite computeNatalChart_planets. cbv zeta.
  split; [reflexivity | ]. split; [ | reflexivity].
  repeat (apply Forall_cons;
          [cbn [fst snd]; split;
           [reflexivity
           | first [ intro N; exfalso; apply N; reflexivity
                   | intros _; split; reflexivity ] ] | ]).
  apply Forall_nil.
Qed.

End ChartFacts.

(** ** Divisional charts of any chart *)

Module VargaFacts.
Import Ephemeris Support ChartNotions RuntimeFacts.
Local Open Scope Q_scope.
Local Open Scope string_scope.

Lemma objSet_fresh {V : Type} (o : list (string * V)) (key : string) (v : V) :
  ~ In key (map fst o) -> JS.objSet String.eqb o key v = (o ++ [(key, v)])%list.
Proof.
  induction o as [ | [k w] o IH]; cbn [JS.objSet map fst In app]; intro H.
  - reflexivity.
  - destruct (String.eqb_spec k key) as [-> | Hk]; [tauto | ].
    rewrite IH by tauto. reflexivity.
Qed.

Lemma objGet_mapValues {A B : Type} (f : A -> B) (o : list (string * A))
    (key : string) (a : A) :
  NoDup (map fst o) -> In (key, a) o ->
  JS.objGet String.eqb (mapValues f o) key = Some (f a).
Proof.
  unfold JS.objGet, mapValues.
  induction o as [ | [k w] o IH]; cbn [map fst snd In find]; intros Hn Hin.
  - contradiction.
  - apply NoDup_cons_iff in Hn. destruct Hn as [Hk Hn].
    destruct Hin as [E | Hin].
    + injection E as -> ->. rewrite String.eqb_refl. reflexivity.
    + destruct (String.eqb_spec k key) as [-> | Hne].
      * exfalso. apply Hk. apply (in_map fst) in Hin. exact Hin.
      * now apply IH.
Qed.

Lemma mapValues_keys {A B : Type} (f : A -> B) (o : list (string * A)) :
  map fst (mapValues f o) = map fst o.
Proof.
  unfold mapValues. rewrite map_map. reflexivity.
Qed.

Lemma vargas_loop (l : list (string * PlanetPosition)) :
  forall a9 a10 a12 : list (string * Z),
  map fst a10 = map fst a9 -> map fst a12 = map fst a9 ->
  NoDup (map fst a9 ++ map fst l) ->
  fold_left
    (fun vargas '(planet, position) =>
       {| D9 := JS.objSet String.eqb (D9 vargas) planet (d9Sign position);
          D10 := JS.objSet String.eqb (D10 vargas) planet (d10Sign position);
          D12 := JS.objSet String.eqb (D12 vargas) planet (d12Sign position) |})
    l {| D9 := a9; D10 := a10; D12 := a12 |}
  = {| D9 := a9 ++ mapValues d9Sign l;
       D10 := a10 ++ mapValues d10Sign l;
       D12 := a12 ++ mapValues d12Sign l |}.
Proof.
  induction l as [ | [k p] l IH]; intros a9 a10 a12 E10 E12 Hn.
  - cbn. rewrite !app_nil_r. reflexivity.
  - cbn [fold_left D9 D10 D12].
    cbn [map fst] in Hn.
    assert (Hk : ~ In k (map fst a9)).
    { intro Hin. apply NoDup_app_remove_r in Hn as Hn'.
      clear - Hin Hn. induction (map fst a9) as [ | x xs IHx].
      - contradiction.
      - cbn in Hn. apply NoDup_cons_iff in Hn. destruct Hn as [Hx Hn].
        destruct Hin as [-> | Hin].
        + apply Hx. apply in_or_app. right. now left.
        + now apply IHx. }
    rewrite !objSet_fresh by (rewrite ?E10, ?E12; exact Hk).
    rewrite IH.
    + unfold mapValues. cbn [map fst snd]. rewrite <- !app_assoc. reflexivity.
    + rewrite !map_app, E10. reflexivity.
    + rewrite !map_app, E12. reflexivity.
    + rewrite map_app. cbn [map fst]. rewrite <- app_assoc. exact Hn.
Qed.

Lemma computeVargas_tables (chart : NatalChart) :
  NoDup (map fst (planets chart)) ->
  computeVargas chart
  = {| D9 := mapValues d9Sign (planets chart);
       D10 := mapValues d10Sign (planets chart);
       D12 := mapValues d12Sign (planets chart) |}.
Proof.
  intro Hn. unfold computeVargas.
  exact (@vargas_loop (planets chart) [] [] [] eq_refl eq_refl Hn).
Qed.

Lemma rem_modQ (x m : Q) :
  0 <= x -> 0 < m -> JS.rem x m = Spec.modQ x m.
Proof. intros Hx Hm. exact (proj1 (rem_nonneg Hx Hm)). Qed.

Lemma remZ_mod (x : Z) : (0 <= x)%Z -> JS.remZ x 12 = (x mod 12)%Z.
Proof. intro H. unfold JS.remZ. apply Z.rem_mod_nonneg; lia. Qed.

Lemma varga_signs (p : PlanetPosition) :
  0 <= longitude p -> (0 <= sign p)%Z ->
  d9Sign p
  = ((sign p * 9 + Qfloor (Spec.modQ (longitude p) 30 / 3.333333)) mod 12)%Z
  /\ d10Sign p = Spec.vargaSign (sign p) (longitude p) 10
  /\ d12Sign p = Spec.vargaSign (sign p) (longitude p) 12.
Proof.
  intros HL HS.
  assert (H30 : 0 < 30) by reflexivity.
  pose proof (proj2 (rem_nonneg HL H30)) as [R0 R1].
  unfold d9Sign, d10Sign, d12Sign, Spec.vargaSign, JS.Math_floor.
  rewrite <- (rem_modQ HL H30).
  revert R0 R1. generalize (JS.rem (longitude p) 30). intros r R0 R1.
  assert (F9 : (0 <= Qfloor (r / 3.333333))%Z).
  { apply Qfloor_nonneg. unfold Qdiv.
    change (/ 3.333333) with (1000000 # 3333333). lra. }
  assert (F10 : (0 <= Qfloor (r / 3))%Z).
  { apply Qfloor_nonneg. unfold Qdiv. change (/ 3) with (1 # 3). lra. }
  assert (F12 : (0 <= Qfloor (r / 2.5))%Z).
  { apply Qfloor_nonneg. unfold Qdiv. change (/ 2.5) with (10 # 25). lra. }
  rewrite !remZ_mod by lia.
  split; [reflexivity | ]. split.
  - f_equal. f_equal. apply Qfloor_comp.
    apply Qmult_comp; [reflexivity | ]. reflexivity.
  - f_equal. f_equal. apply Qfloor_comp.
    apply Qmult_comp; [reflexivity | ]. reflexivity.
Qed.

(** X18.  For any chart whose planets have a longitude and a sign that are
    not negative, [computeVargas] returns three tables with the keys of the
    chart's planet table, in its order; the D10 and D12 signs of a planet
    are those of the specification's formula, its D9 sign is that formula
    with the width 3.333333 in place of 30/9, and all three lie in 0..11.
    (The keys of an object are distinct.) *)
Theorem computeVargas_lookup (chart : NatalChart) :
  NoDup (map fst (planets chart)) ->
  Forall (fun entry => 0 <= longitude (snd entry) /\ (0 <= sign (snd entry))%Z)
         (planets chart) ->
  let vargas := computeVargas chart in
  (map fst (D9 vargas) = map fst (planets chart)
   /\ map fst (D10 vargas) = map fst (planets chart)
   /\ map fst (D12 vargas) = map fst (planets chart))
  /\ forall planet position, In (planet, position) (planets chart) ->
     exists d9 d10 d12 : Z,
       JS.objGet String.eqb (D9 vargas) planet = Some d9
       /\ JS.objGet String.eqb (D10 vargas) planet = Some d10
       /\ JS.objGet String.eqb (D12 vargas) planet = Some d12
       /\ d9 = ((sign position * 9
                 + Qfloor (Spec.modQ (longitude position) 30 / 3.333333))
                mod 12)%Z
       /\ d10 = Spec.vargaSign (sign position) (longitude position) 10
       /\ d12 = Spec.vargaSign (sign position) (longitude position) 12
       /\ (0 <= d9 <= 11)%Z /\ (0 <= d10 <= 11)%Z /\ (0 <= d12 <= 11)%Z.
Proof.
  intros Hn Hr vargas. subst vargas.
  rewrite (computeVargas_tables chart Hn). cbn [D9 D10 D12].
  rewrite !mapValues_keys. split; [repeat split | ].
  intros planet position Hin.
  rewrite Forall_forall in Hr. specialize (Hr _ Hin). cbn [snd] in Hr.
  destruct Hr as [HL HS].
  destruct (varga_signs position HL HS) as (E9 & E10 & E12).
  exists (d9Sign position), (d10Sign position), (d12Sign position).
  rewrite !(objGet_mapValues _ _ _ _ Hn Hin).
  split; [reflexivity | ]. split; [reflexivity | ]. split; [reflexivity | ].
  split; [exact E9 | ]. split; [exact E10 | ]. split; [exact E12 | ].
  rewrite E9, E10, E12. unfold Spec.vargaSign.
  pose proof (fun a => Z.mod_pos_bound a 12 eq_refl) as B.
  split; [ | split]; match goal with |- (_ <= ?a mod 12 <= _)%Z =>
    specialize (B a); lia end.
Qed.

Lemma computeVargas_lookup_witness :
  let vargas := computeVargas chart_saturn_only in
  (map fst (D9 vargas) = map fst (planets chart_saturn_only)
   /\ map fst (D10 vargas) = map fst (planets chart_saturn_only)
   /\ map fst (D12 vargas) = map fst (planets chart_saturn_only))
  /\ forall planet position,
     In (planet, position) (planets chart_saturn_only) ->
     exists d9 d10 d12 : Z,
       JS.objGet String.eqb (D9 vargas) planet = Some d9
       /\ JS.objGet String.eqb (D10 vargas) planet = Some d10
       /\ JS.objGet String.eqb (D12 vargas) planet = Some d12
       /\ d9 = ((sign position * 9
                 + Qfloor (Spec.modQ (longitude position) 30 / 3.333333))
                mod 12)%Z
       /\ d10 = Spec.vargaSign (sign position) (longitude position) 10
       /\ d12 = Spec.vargaSign (sign position) (longitude position) 12
       /\ (0 <= d9 <= 11)%Z /\ (0 <= d10 <= 11)%Z /\ (0 <= d12 <= 11)%Z.
Proof.
  apply (@computeVargas_lookup chart_saturn_only).
  - cbn. apply NoDup_cons; [intros [] | apply NoDup_nil].
  - apply Forall_cons; [ | apply Forall_nil]. cbn. split.
    + vm_compute. discriminate.
    + lia.
Defined.

End VargaFacts.

(** ** Dasa periods *)

Module DasaFacts.
Import Ephemeris Support RuntimeFacts.
Local Open Scope Q_scope.
Local Open Scope string_scope.

Lemma dasaPeriods_index (i : Z) :
  (-9 < i < 9)%Z ->
  (JS.index dasaPeriods i = None <-> (i < 0)%Z)
  /\ ((0 <= i)%Z ->
      JS.index dasaPeriods (JS.remZ (i + 1) 9) <> None).
Proof.
  intro H.
  assert (E : In i [-8;-7;-6;-5;-4;-3;-2;-1;0;1;2;3;4;5;6;7;8]%Z)
    by (cbn; lia).
  cbn in E.
  repeat (destruct E as [E | E];
          [subst i; split;
           [split; [ try discriminate; intros _; reflexivity
                   | try (intro; exfalso; lia); intros _; reflexivity ]
           | try (intro; exfalso; lia); intros _; discriminate ] | ]).
  contradiction.
Qed.

(** When [computeVimshottariDasa] throws. *)
Lemma computeVimshottariDasa_None (now : JS.Date.t) (moonLongitude : Q) :
  computeVimshottariDasa now moonLongitude = None
  <-> (JS.remZ (JS.Math_floor (moonLongitude / 13.333333)) 9 < 0)%Z.
Proof.
  assert (Hi : (-9 < JS.remZ (JS.Math_floor (moonLongitude / 13.333333)) 9
                < 9)%Z).
  { unfold JS.remZ.
    pose proof (Z.rem_bound_abs (JS.Math_floor (moonLongitude / 13.333333)) 9).
    lia. }
  destruct (dasaPeriods_index Hi) as [[I1 I2] I3].
  unfold computeVimshottariDasa. cbv zeta.
  destruct (JS.index dasaPeriods
              (JS.remZ (JS.Math_floor (moonLongitude / 13.333333)) 9))
    as [cur | ] eqn:E1.
  - assert (Hp : (0 <= JS.remZ (JS.Math_floor (moonLongitude / 13.333333)) 9)%Z).
    { destruct (Z.lt_ge_cases
                  (JS.remZ (JS.Math_floor (moonLongitude / 13.333333)) 9) 0)
        as [Hl | Hg]; [ | exact Hg].
      apply I2 in Hl. congruence. }
    specialize (I3 Hp).
    destruct (JS.index dasaPeriods (JS.remZ (_ + 1) 9)) as [nxt | ];
      [ | congruence].
    split; [intro X; discriminate X | intro X; lia].
  - split; [intros _; now apply I1 | reflexivity].
Qed.

Lemma computeVimshottariDasa_nonneg (now : JS.Date.t) (moonLongitude : Q) :
  0 <= moonLongitude -> computeVimshottariDasa now moonLongitude <> None.
Proof.
  intros Hm Hn. apply computeVimshottariDasa_None in Hn.
  assert (F : (0 <= JS.Math_floor (moonLongitude / 13.333333))%Z).
  { apply Qfloor_nonneg. unfold Qdiv.
    change (/ 13.333333) with (1000000 # 13333333). lra. }
  unfold JS.remZ in Hn.
  pose proof (Z.rem_nonneg (JS.Math_floor (moonLongitude / 13.333333)) 9).
  lia.
Qed.


End DasaFacts.

(** ** Time zones and dates as strings *)

Module InputFacts.

Import JSStrings EphemerisInput Client Routes DateNotions.
Local Open Scope string_scope.

Section Timezone.
Local Open Scope Q_scope.

Lemma box_spec (a b c d lat lon : Q) :
  Qle_bool a lat && Qle_bool lat b && Qle_bool c lon && Qle_bool lon d = true
  <-> (a <= lat <= b /\ c <= lon <= d).
Proof.
  rewrite !andb_true_iff, !Qle_bool_iff. tauto.
Qed.

(** X21.  The three boxes of [getTimezoneFromCoords] do not overlap: each
    zone is returned exactly on its box (India 6..37 N, 68..97 E; the United
    States 25..49 N, 125..66 W; Europe 35..71 N, 10 W..40 E), and "UTC"
    exactly outside all three. *)
Theorem getTimezoneFromCoords_regions (lat lon : Q) :
  (getTimezoneFromCoords lat lon = "Asia/Kolkata"
   <-> (6 <= lat <= 37 /\ 68 <= lon <= 97))
  /\ (getTimezoneFromCoords lat lon = "America/New_York"
      <-> (25 <= lat <= 49 /\ - (125) <= lon <= - (66)))
  /\ (getTimezoneFromCoords lat lon = "Europe/London"
      <-> (35 <= lat <= 71 /\ - (10) <= lon <= 40))
  /\ (getTimezoneFromCoords lat lon = "UTC"
      <-> ~ (6 <= lat <= 37 /\ 68 <= lon <= 97)
          /\ ~ (25 <= lat <= 49 /\ - (125) <= lon <= - (66))
          /\ ~ (35 <= lat <= 71 /\ - (10) <= lon <= 40)).
Proof.
  assert (D : forall (b : bool) (P : Prop),
             (b = true <-> P) -> (b = true /\ P) \/ (b = false /\ ~ P)).
  { intros [ | ] P [H1 H2]; [left | right]; split; auto.
    intro p. discriminate (H2 p). }
  unfold getTimezoneFromCoords.
  destruct (D _ _ (box_spec 6 37 68 97 lat lon)) as [[E1 P1] | [E1 P1]];
    destruct (D _ _ (box_spec 25 49 (-125) (-66) lat lon))
      as [[E2 P2] | [E2 P2]];
    destruct (D _ _ (box_spec 35 71 (-10) 40 lat lon))
      as [[E3 P3] | [E3 P3]];
    rewrite E1, ?E2, ?E3;
    repeat split; intros;
    solve [ reflexivity | discriminate | tauto | exfalso; lra
          | intro; exfalso; lra ].
Qed.
End Timezone.

(** *** Dates as strings *)

Lemma allRange_spec (p : Z -> bool) (len : positive) :
  forall lo, allRange p lo len = true ->
  forall k, (lo <= k < lo + Zpos len)%Z -> p k = true.
Proof.
  induction len as [l IH | l IH | ]; cbn [allRange]; intros lo H k Hk.
  - apply andb_true_iff in H. destruct H as [H H3].
    apply andb_true_iff in H. destruct H as [H1 H2].
    destruct (Z.eq_dec k lo) as [-> | Hne]; [exact H1 | ].
    destruct (Z.lt_ge_cases k (lo + 1 + Zpos l)).
    + apply (IH (lo + 1)%Z); [exact H2 | lia].
    + apply (IH (lo + 1 + Zpos l)%Z); [exact H3 | lia].
  - apply andb_true_iff in H. destruct H as [H1 H2].
    destruct (Z.lt_ge_cases k (lo + Zpos l)).
    + apply (IH lo); [exact H1 | lia].
    + apply (IH (lo + Zpos l)%Z); [exact H2 | lia].
  - assert (k = lo) as -> by lia. exact H.
Qed.

Lemma string_of_uint_digits (d : uint) :
  forallb isDigit (list_ascii_of_string (NilEmpty.string_of_uint d)) = true.
Proof.
  induction d; cbn [NilEmpty.string_of_uint list_ascii_of_string forallb];
    [reflexivity | .. ]; rewrite IHd; reflexivity.
Qed.

Lemma toString_digits (n : N) :
  forallb isDigit (list_ascii_of_string (JS.toString n)) = true.
Proof. apply string_of_uint_digits. Qed.

Lemma digit_not_hyphen (c : ascii) :
  isDigit c = true -> Ascii.eqb c "-" = false.
Proof.
  intro H. destruct (Ascii.eqb_spec c "-") as [-> | Hne];
    [discriminate H | reflexivity].
Qed.

Lemma padStart_digits (s : string) (n : nat) :
  forallb isDigit (list_ascii_of_string s) = true ->
  forallb isDigit (list_ascii_of_string (padStart s n "0")) = true.
Proof.
  intro H. unfold padStart.
  induction (n - String.length s)%nat as [ | k IH];
    cbn [repeat string_of_list_ascii append list_ascii_of_string forallb].
  - exact H.
  - rewrite IH. reflexivity.
Qed.

(** Splitting at hyphens a string made of runs of digits. *)
Lemma splitAt_last (a : string) :
  forallb isDigit (list_ascii_of_string a) = true ->
  splitAt "-" a = [a].
Proof.
  induction a as [ | c a IH]; cbn [list_ascii_of_string forallb splitAt];
    intro H; [reflexivity | ].
  apply andb_true_iff in H. destruct H as [Hc Ha].
  rewrite (digit_not_hyphen _ Hc), (IH Ha). reflexivity.
Qed.

Lemma splitAt_run (a rest : string) :
  forallb isDigit (list_ascii_of_string a) = true ->
  splitAt "-" (a ++ String "-" rest) = a :: splitAt "-" rest.
Proof.
  induction a as [ | c a IH];
    cbn [list_ascii_of_string forallb splitAt append]; intro H.
  - reflexivity.
  - apply andb_true_iff in H. destruct H as [Hc Ha].
    rewrite (digit_not_hyphen _ Hc), (IH Ha). reflexivity.
Qed.

Lemma Number_toString (n : N) : Number (JS.toString n) = Some n.
Proof.
  unfold Number, JS.toString. rewrite NilEmpty.usu. cbn [option_map].
  f_equal. apply DecimalN.Unsigned.of_to.
Qed.

Lemma Number_padStart (s : string) (n : nat) :
  Number (padStart s n "0") = Number s.
Proof.
  unfold padStart.
  induction (n - String.length s)%nat as [ | k IH];
    cbn [repeat string_of_list_ascii append]; [reflexivity | ].
  rewrite <- IH. unfold Number. cbn [NilEmpty.uint_of_string].
  destruct (NilEmpty.uint_of_string _); reflexivity.
Qed.

Lemma formatBirthDate_parts (day month year : N) :
  birthDateParts (formatBirthDate day month year)
  = (Some year, Some month, Some day).
Proof.
  unfold birthDateParts, formatBirthDate. cbv zeta.
  change ("-" ++ padStart (JS.toString month) 2 "0"
          ++ "-" ++ padStart (JS.toString day) 2 "0")
    with (String "-" (padStart (JS.toString month) 2 "0"
                      ++ String "-" (padStart (JS.toString day) 2 "0"))).
  rewrite splitAt_run by apply toString_digits.
  rewrite splitAt_run by apply padStart_digits, toString_digits.
  rewrite splitAt_last by apply padStart_digits, toString_digits.
  cbn [map nth].
  rewrite !Number_padStart, !Number_toString. reflexivity.
Qed.

(** X22.  What [formatBirthDate] writes, the routes read back:
    splitting its result at the hyphens gives the year and the zero-padded
    month and day, and [Number] turns them into the year, the month and the
    day it was given. *)
Theorem formatBirthDate_round_trip (day month year : N) :
  birthDateParts (formatBirthDate day month year)
  = (Some year, Some month, Some day)
  /\ splitAt "-" (formatBirthDate day month year)
     = [JS.toString year; padStart (JS.toString month) 2 "0";
        padStart (JS.toString day) 2 "0"].
Proof.
  split; [apply formatBirthDate_parts | ].
  unfold formatBirthDate.
  change ("-" ++ padStart (JS.toString month) 2 "0"
          ++ "-" ++ padStart (JS.toString day) 2 "0")
    with (String "-" (padStart (JS.toString month) 2 "0"
                      ++ String "-" (padStart (JS.toString day) 2 "0"))).
  rewrite splitAt_run by apply toString_digits.
  rewrite splitAt_run by apply padStart_digits, toString_digits.
  rewrite splitAt_last by apply padStart_digits, toString_digits.
  reflexivity.
Qed.

Lemma four_digits (year : N) :
  (1000 <= year <= 9999)%N -> digitString 4 (JS.toString year) = true.
Proof.
  intro H.
  assert (A : allRange (fun z => digitString 4 (JS.toString (Z.to_N z)))
                       1000 9000 = true) by (vm_compute; reflexivity).
  pose proof (@allRange_spec _ _ _ A (Z.of_N year)) as B. cbv beta in B.
  rewrite N2Z.id in B. apply B. lia.
Qed.

Lemma two_digits (n : N) :
  (n <= 99)%N -> digitString 2 (padStart (JS.toString n) 2 "0") = true.
Proof.
  intro H.
  assert (A : allRange
                (fun z => digitString 2
                            (padStart (JS.toString (Z.to_N z)) 2 "0"))
                0 100 = true) by (vm_compute; reflexivity).
  pose proof (@allRange_spec _ _ _ A (Z.of_N n)) as B. cbv beta in B.
  rewrite N2Z.id in B. apply B. lia.
Qed.

Lemma dateRegex_test_digits (y m d : string) :
  digitString 4 y = true -> digitString 2 m = true ->
  digitString 2 d = true ->
  dateRegex_test (y ++ "-" ++ m ++ "-" ++ d) = true.
Proof.
  unfold digitString. rewrite !andb_true_iff, !Nat.eqb_eq.
  intros [Ly Dy] [Lm Dm] [Ld Dd].
  destruct y as [ | y1 [ | y2 [ | y3 [ | y4 [ | ? ?]]]]]; try discriminate Ly.
  destruct m as [ | m1 [ | m2 [ | ? ?]]]; try discriminate Lm.
  destruct d as [ | d1 [ | d2 [ | ? ?]]]; try discriminate Ld.
  cbn [list_ascii_of_string forallb] in Dy, Dm, Dd.
  unfold dateRegex_test. cbn [append list_ascii_of_string].
  repeat match goal with
         | H : _ && _ = true |- _ => apply andb_true_iff in H; destruct H
         end.
  repeat match goal with H : isDigit _ = true |- _ => rewrite H; clear H end.
  reflexivity.
Qed.

Lemma isValidDate_fields (now : JS.Date.t) (day month year : Z) :
  isValidDate now day month year = true ->
  (1 <= month <= 12 /\ 1 <= day <= 31
   /\ 1900 <= year <= JS.Date.getFullYear now)%Z.
Proof.
  unfold isValidDate.
  destruct (month <? 1)%Z eqn:E1; [discriminate | ].
  destruct (12 <? month)%Z eqn:E2; [discriminate | ].
  destruct (day <? 1)%Z eqn:E3; [discriminate | ].
  destruct (31 <? day)%Z eqn:E4; [discriminate | ].
  destruct (year <? 1900)%Z eqn:E5; [discriminate | ].
  destruct (JS.Date.getFullYear now <? year)%Z eqn:E6; [discriminate | ].
  intros _. lia.
Qed.

(** X23.  A date that the client's [isValidDate] accepts (the current
    year having at most four digits), written by [formatBirthDate], passes
    the server's [validateBirthData] for coordinates in range, and the
    routes read the same day, month and year back from it. *)
Theorem isValidDate_validateBirthData
    (now : JS.Date.t) (lat lon : Q) (day month year : N) :
  isValidDate now (Z.of_N day) (Z.of_N month) (Z.of_N year) = true ->
  (JS.Date.getFullYear now <= 9999)%Z ->
  (-90 <= lat <= 90)%Q -> (-180 <= lon <= 180)%Q ->
  validateBirthData lat lon (formatBirthDate day month year) "" = true
  /\ birthDateParts (formatBirthDate day month year)
     = (Some year, Some month, Some day).
Proof.
  intros Hv Hnow [Hlat1 Hlat2] [Hlon1 Hlon2].
  split; [ | apply formatBirthDate_parts].
  apply isValidDate_fields in Hv. destruct Hv as (Hm & Hd & Hy).
  unfold validateBirthData, lessThan.
  rewrite (proj2 (Qle_bool_iff _ _) Hlat1), (proj2 (Qle_bool_iff _ _) Hlat2),
    (proj2 (Qle_bool_iff _ _) Hlon1), (proj2 (Qle_bool_iff _ _) Hlon2).
  cbn [negb orb].
  unfold formatBirthDate.
  rewrite dateRegex_test_digits; [reflexivity | | | ].
  - apply four_digits. lia.
  - apply two_digits. lia.
  - apply two_digits. lia.
Qed.

Lemma isValidDate_validateBirthData_witness :
  validateBirthData 28.6 77.2 (formatBirthDate 15 5 1990) "" = true
  /\ birthDateParts (formatBirthDate 15 5 1990)
     = (Some 1990%N, Some 5%N, Some 15%N).
Proof.
  apply (@isValidDate_validateBirthData (JS.Date.at_ 2024 0 15 8 0 0)).
  - vm_compute. reflexivity.
  - vm_compute. discriminate.
  - split; vm_compute; discriminate.
  - split; vm_compute; discriminate.
Defined.

End InputFacts.

(** ** The calendar *)

Module DateFacts.
Import ChartNotions CalendarFacts DateNotions Client.
Local Open Scope Z_scope.

Lemma dayFromYearMonth_eq (year month : Z) :
  1 <= month <= 12 ->
  let y := if month <=? 2 then year - 1 else year in
  let mp := if 2 <? month then month - 3 else month + 9 in
  JS.Date.dayFromYearMonth year (month - 1)
  = (y / 400) * 146097
    + ((y - y / 400 * 400) * 365 + (y - y / 400 * 400) / 4
       - (y - y / 400 * 400) / 100 + (153 * mp + 2) / 5)
    - 719468.
Proof.
  intro H. unfold JS.Date.dayFromYearMonth. cbv zeta.
  rewrite (Z.div_small (month - 1) 12), (Z.mod_small (month - 1) 12) by lia.
  replace (year + 0) with year by lia.
  replace (month - 1 + 1) with month by lia.
  reflexivity.
Qed.

Lemma leapYear_spec (year : Z) :
  (leapYear year = true
   <-> (year mod 4 = 0 /\ (year mod 100 <> 0 \/ year mod 400 = 0))).
Proof.
  unfold leapYear.
  rewrite orb_true_iff, andb_true_iff, negb_true_iff, !Z.eqb_eq, Z.eqb_neq.
  split.
  - intros [[H4 H100] | H400]; [tauto | ].
    split; [ | now right].
    Z.div_mod_to_equations. lia.
  - intros [H4 [H100 | H400]]; tauto.
Qed.

(** A day of the calendar is the day [civil] finds for its day number. *)
Lemma civil_dayFromYearMonth (year month day : Z) :
  1 <= month <= 12 -> 1 <= day <= monthLength year month ->
  JS.Date.civil (JS.Date.dayFromYearMonth year (month - 1) + day - 1)
  = (year, month - 1, day).
Proof.
  intros Hm Hd.
  rewrite (dayFromYearMonth_eq year Hm). cbv zeta.
  rewrite civil_eq. cbv zeta.
  set (y := if month <=? 2 then year - 1 else year).
  set (mp := if 2 <? month then month - 3 else month + 9).
  set (era := y / 400).
  set (yoe := y - era * 400).
  assert (Hyoe : 0 <= yoe <= 399).
  { subst yoe era. pose proof (Z.div_mod y 400).
    pose proof (Z.mod_pos_bound y 400). lia. }
  set (doy0 := (153 * mp + 2) / 5).
  set (doe := yoe * 365 + yoe / 4 - yoe / 100 + doy0 + day - 1).
  replace (era * 146097 + (yoe * 365 + yoe / 4 - yoe / 100 + doy0) - 719468
           + day - 1 + 719468)
    with (doe + era * 146097) by (subst doe; lia).
  (* the leap year rule in terms of the year of the era *)
  assert (Hleap : month <= 2 ->
                  (leapYear year = true
                   <-> ((yoe + 1) mod 4 = 0
                        /\ ((yoe + 1) mod 100 <> 0 \/ yoe = 399)))).
  { intro Hle. rewrite leapYear_spec.
    assert (Ey : year = yoe + 1 + era * 400).
    { subst yoe y. destruct (Z.leb_spec month 2); lia. }
    rewrite Ey. clear -Hyoe. Z.div_mod_to_equations. lia. }
  assert (Hmp : 0 <= mp <= 11)
    by (subst mp; destruct (Z.ltb_spec 2 month); lia).
  assert (Hdoy : doy0 + day - 1 <= 364
                 \/ (doy0 + day - 1 = 365
                     /\ (yoe + 1) mod 4 = 0
                     /\ ((yoe + 1) mod 100 <> 0 \/ yoe = 399))).
  { unfold monthLength in Hd.
    assert (Hc : month = 1 \/ month = 2 \/ month = 3 \/ month = 4
                 \/ month = 5 \/ month = 6 \/ month = 7 \/ month = 8
                 \/ month = 9 \/ month = 10 \/ month = 11 \/ month = 12)
      by lia.
    destruct Hc as [-> | [-> | Hc]].
    - left. subst doy0 mp.
      cbn [Z.eqb Pos.eqb Z.ltb Z.compare Pos.compare Pos.compare_cont orb] in *.
      Z.div_mod_to_equations. lia.
    - specialize (Hleap ltac:(lia)).
      subst doy0 mp.
      cbn [Z.eqb Pos.eqb Z.ltb Z.compare Pos.compare Pos.compare_cont orb] in *.
      change ((153 * (2 + 9) + 2) / 5) with 337.
      destruct (leapYear year).
      + destruct (Z.eq_dec day 29) as [-> | Hne]; [right | left; lia].
        split; [lia | ]. now apply Hleap.
      + left. lia.
    - left. subst doy0 mp.
      repeat (destruct Hc as [-> | Hc];
              [cbn [Z.eqb Pos.eqb Z.ltb Z.compare Pos.compare Pos.compare_cont orb]
                 in *;
               Z.div_mod_to_equations; lia | ]).
      subst month.
      cbn [Z.eqb Pos.eqb Z.ltb Z.compare Pos.compare Pos.compare_cont orb] in *.
      Z.div_mod_to_equations. lia. }
  assert (Mdoy : (5 * (doy0 + day - 1) + 2) / 153 = mp
                 /\ doy0 + day - 1 - (153 * mp + 2) / 5 + 1 = day).
  { split; [ | subst doy0; lia].
    unfold monthLength in Hd.
    assert (Hc : month = 1 \/ month = 2 \/ month = 3 \/ month = 4
                 \/ month = 5 \/ month = 6 \/ month = 7 \/ month = 8
                 \/ month = 9 \/ month = 10 \/ month = 11 \/ month = 12)
      by lia.
    subst doy0 mp.
    repeat (destruct Hc as [-> | Hc];
            [cbn [Z.eqb Pos.eqb Z.ltb Z.compare Pos.compare Pos.compare_cont orb] in *;
             try (destruct (leapYear year));
             Z.div_mod_to_equations; lia | ]).
    subst month.
    cbn [Z.eqb Pos.eqb Z.ltb Z.compare Pos.compare Pos.compare_cont orb] in *.
    Z.div_mod_to_equations. lia. }
  destruct Mdoy as [Mmp Mday].
  assert (Hdoy0 : 0 <= doy0) by (subst doy0; Z.div_mod_to_equations; lia).
  clearbody doy0.
  assert (Hdoe : 0 <= doe < 146097 /\ yearOfEra doe = yoe).
  { subst doe. clear - Hyoe Hdoy Hd Hdoy0.
    assert (Hk : 0 <= doy0 + day - 1) by lia.
    replace (yoe * 365 + yoe / 4 - yoe / 100 + doy0 + day - 1)
      with (yoe * 365 + yoe / 4 - yoe / 100 + (doy0 + day - 1)) by lia.
    revert Hdoy Hk. generalize (doy0 + day - 1). intros k Hdoy Hk.
    unfold yearOfEra.
    destruct Hdoy as [Hdoy | (Hdoy & H4 & H100)].
    - split; Z.div_mod_to_equations; lia.
    - split; Z.div_mod_to_equations; lia. }
  destruct Hdoe as (Hdoe & Hyear).
  assert (Eera : (doe + era * 146097) / 146097 = era).
  { rewrite Z.div_add by lia. rewrite Z.div_small by lia. lia. }
  rewrite Eera.
  replace (doe + era * 146097 - era * 146097) with doe by lia.
  assert (Eday : dayOfYear doe = doy0 + day - 1).
  { unfold dayOfYear. rewrite Hyear. subst doe. lia. }
  rewrite Eday, Hyear, Mmp, Mday.
  subst mp y.
  destruct (Z.ltb_spec 2 month) as [H2 | H2].
  - assert (E1 : (month - 3 <? 10) = true) by (apply Z.ltb_lt; lia).
    rewrite E1.
    assert (E2 : (month - 3 + 3 <=? 2) = false) by (apply Z.leb_gt; lia).
    rewrite E2.
    assert (E3 : (month <=? 2) = false) by (apply Z.leb_gt; lia).
    subst yoe era. rewrite E3.
    apply (f_equal2 pair); [apply (f_equal2 pair) | ]; lia.
  - assert (E1 : (month + 9 <? 10) = false) by (apply Z.ltb_ge; lia).
    rewrite E1.
    assert (E2 : (month + 9 - 9 <=? 2) = true) by (apply Z.leb_le; lia).
    rewrite E2.
    assert (E3 : (month <=? 2) = true) by (apply Z.leb_le; lia).
    subst yoe era. rewrite E3.
    apply (f_equal2 pair); [apply (f_equal2 pair) | ]; lia.
Qed.

(** Every day number falls on a day of the calendar. *)
Lemma civil_valid (n : Z) :
  0 <= snd (fst (JS.Date.civil n)) <= 11
  /\ 1 <= snd (JS.Date.civil n)
     <= monthLength (fst (fst (JS.Date.civil n)))
                    (snd (fst (JS.Date.civil n)) + 1).
Proof.
  rewrite civil_eq. cbv zeta. cbn [fst snd].
  set (z := n + 719468).
  set (era := z / 146097).
  set (doe := z - era * 146097).
  assert (Hdoe : 0 <= doe < 146097).
  { subst doe era. pose proof (Z.div_mod z 146097).
    pose proof (Z.mod_pos_bound z 146097). lia. }
  pose proof (era_year Hdoe) as Hy. pose proof (era_day Hdoe) as Hd.
  assert (Hleap : dayOfYear doe = 365 ->
                  (yearOfEra doe + 1) mod 4 = 0
                  /\ ((yearOfEra doe + 1) mod 100 <> 0
                      \/ yearOfEra doe = 399)).
  { clear - Hdoe. unfold dayOfYear, yearOfEra. intro H.
    split; Z.div_mod_to_equations; lia. }
  revert Hy Hd Hleap.
  generalize (yearOfEra doe), (dayOfYear doe). intros yoe doy Hy Hd Hleap.
  assert (Hmp : 0 <= (5 * doy + 2) / 153 <= 11)
    by (Z.div_mod_to_equations; lia).
  assert (Hday : 153 * ((5 * doy + 2) / 153) + 2
                 <= 5 * doy + 4
                 /\ 5 * doy + 2 < 153 * ((5 * doy + 2) / 153) + 153)
    by (Z.div_mod_to_equations; lia).
  revert Hmp Hday. generalize ((5 * doy + 2) / 153). intros mp Hmp Hday.
  unfold monthLength.
  destruct (Z.ltb_spec mp 10) as [Hlt | Hge].
  - assert (E2 : (mp + 3 <=? 2) = false) by (apply Z.leb_gt; lia).
    rewrite E2. replace (mp + 3 - 1 + 1) with (mp + 3) by lia.
    split; [lia | ].
    destruct (Z.eqb_spec (mp + 3) 2); [lia | ].
    destruct (Z.eqb_spec (mp + 3) 4); destruct (Z.eqb_spec (mp + 3) 6);
      destruct (Z.eqb_spec (mp + 3) 9); destruct (Z.eqb_spec (mp + 3) 11);
      cbn [orb]; Z.div_mod_to_equations; lia.
  - assert (E2 : (mp - 9 <=? 2) = true) by (apply Z.leb_le; lia).
    rewrite E2. replace (mp - 9 - 1 + 1) with (mp - 9) by lia.
    split; [lia | ].
    destruct (Z.eqb_spec (mp - 9) 2) as [Efeb | Ejan].
    + assert (mp = 11) by lia. subst mp.
      destruct (leapYear (yoe + era * 400 + 1)) eqn:L;
        [Z.div_mod_to_equations; lia | ].
      destruct (Z.eq_dec doy 365) as [E | E];
        [ | Z.div_mod_to_equations; lia].
      exfalso. destruct (Hleap E) as [H4 H100].
      assert (T : leapYear (yoe + era * 400 + 1) = true).
      { apply leapYear_spec. clear - H4 H100 Hy.
        Z.div_mod_to_equations. lia. }
      congruence.
    + assert (mp = 10) by lia. subst mp.
      cbn [Z.eqb Pos.eqb Z.sub Z.add Z.opp Z.pos_sub Pos.pred_double
             Z.pred_double Z.double Z.succ_double orb].
      Z.div_mod_to_equations. lia.
Qed.

Lemma isLeapYear_leapYear (year : Z) :
  0 <= year -> isLeapYear year = leapYear year.
Proof.
  intro H. unfold isLeapYear, leapYear, JS.remZ.
  rewrite !Z.rem_mod_nonneg by lia. reflexivity.
Qed.

(** What [isValidDate] tests. *)
Lemma isValidDate_spec (now : JS.Date.t) (day month year : Z) :
  isValidDate now day month year = true
  <-> (1 <= month <= 12 /\ 1 <= day <= monthLength year month
       /\ 1900 <= year <= JS.Date.getFullYear now).
Proof.
  unfold isValidDate.
  destruct (Z.ltb_spec month 1) as [M1 | M1];
    [cbn [orb]; split; [discriminate | lia] | ].
  destruct (Z.ltb_spec 12 month) as [M2 | M2];
    [cbn [orb]; split; [discriminate | lia] | ].
  cbn [orb].
  assert (L : 28 <= monthLength year month <= 31).
  { unfold monthLength. destruct (month =? 2); [destruct (leapYear year) | ];
      [lia | lia | ]. destruct (_ || _); lia. }
  destruct (Z.ltb_spec day 1) as [D1 | D1];
    [cbn [orb]; split; [discriminate | lia] | ].
  destruct (Z.ltb_spec 31 day) as [D2 | D2];
    [cbn [orb]; split; [discriminate | lia] | ].
  cbn [orb].
  destruct (Z.ltb_spec year 1900) as [Y1 | Y1];
    [cbn [orb]; split; [discriminate | lia] | ].
  destruct (Z.ltb_spec (JS.Date.getFullYear now) year) as [Y2 | Y2];
    [cbn [orb]; split; [discriminate | lia] | ].
  cbn [orb]. cbv zeta.
  rewrite isLeapYear_leapYear by lia.
  clear L. unfold monthLength.
  assert (Hc : month = 1 \/ month = 2 \/ month = 3 \/ month = 4
               \/ month = 5 \/ month = 6 \/ month = 7 \/ month = 8
               \/ month = 9 \/ month = 10 \/ month = 11 \/ month = 12)
    by lia.
  assert (Hidx : JS.index [31; 28; 31; 30; 31; 30; 31; 31; 30; 31; 30; 31]
                          (month - 1)
                 = Some (if month =? 2 then 28
                         else if (month =? 4) || (month =? 6) || (month =? 9)
                                 || (month =? 11)
                              then 30 else 31)).
  { repeat (destruct Hc as [-> | Hc]; [reflexivity | ]).
    subst month. reflexivity. }
  rewrite Hidx.
  destruct (month =? 2); cbn [andb];
    [destruct (leapYear year) | ]; rewrite Z.leb_le; lia.
Qed.

Lemma make_fields (year month date : Z) :
  1900 <= year ->
  (JS.Date.getFullYear (JS.Date.make year month date),
   JS.Date.getMonth (JS.Date.make year month date),
   JS.Date.getDate (JS.Date.make year month date))
  = JS.Date.civil (JS.Date.dayFromYearMonth year month + date - 1).
Proof.
  intro H.
  unfold JS.Date.getFullYear, JS.Date.getMonth, JS.Date.getDate, JS.Date.make.
  assert (E : ((0 <=? year) && (year <=? 99)) = false).
  { apply andb_false_iff. right. apply Z.leb_gt. lia. }
  rewrite E. cbn [JS.Date.getTime]. unfold JS.Date.msPerDay.
  rewrite Z.div_mul by lia.
  now destruct (JS.Date.civil _) as [[y m] d].
Qed.

(** X24.  [isValidDate] accepts exactly the days of the calendar from
    1900 to the current year: those for which [new Date(year, month - 1,
    day)] is that very day, without carrying over into another month. *)
Theorem isValidDate_calendar (now : JS.Date.t) (day month year : Z) :
  isValidDate now day month year = true
  <-> (1900 <= year <= JS.Date.getFullYear now
       /\ JS.Date.getFullYear (JS.Date.make year (month - 1) day) = year
       /\ JS.Date.getMonth (JS.Date.make year (month - 1) day) = month - 1
       /\ JS.Date.getDate (JS.Date.make year (month - 1) day) = day).
Proof.
  rewrite isValidDate_spec. split.
  - intros (Hm & Hd & Hy).
    pose proof (make_fields (month - 1) day (proj1 Hy)) as F.
    rewrite (civil_dayFromYearMonth year Hm Hd) in F.
    injection F as F1 F2 F3. tauto.
  - intros (Hy & F1 & F2 & F3).
    pose proof (make_fields (month - 1) day (proj1 Hy)) as F.
    rewrite F1, F2, F3 in F.
    pose proof (civil_valid
                  (JS.Date.dayFromYearMonth year (month - 1) + day - 1)) as V.
    rewrite <- F in V. cbn [fst snd] in V.
    replace (month - 1 + 1) with month in V by lia.
    split; [lia | ]. split; [tauto | exact Hy].
Qed.

End DateFacts.

(** ** The Vedic block of the Kundli generator *)

Module KundliFacts.

Import Ephemeris EphemerisInput KundliGenerator Support ChartNotions.
Import RuntimeFacts ChartFacts DasaFacts.
Local Open Scope Q_scope.
Local Open Scope string_scope.

Lemma validateBirthData_lon (lat lon : Q) (dob tob : string) :
  validateBirthData lat lon dob tob = true -> -180 <= lon <= 180.
Proof.
  unfold validateBirthData, lessThan.
  destruct (Qle_bool (-180) lon) eqn:E1;
    [ | rewrite !orb_true_r; cbn [negb orb]; rewrite ?orb_true_r;
        discriminate ].
  destruct (Qle_bool lon 180) eqn:E2;
    [ | cbn [negb]; rewrite !orb_true_r; discriminate ].
  intros _. split; now apply Qle_bool_iff.
Qed.

Lemma moon_entry (lat lon : Q) (birthDateTime : JS.Date.t) :
  JS.objGet String.eqb (planets (computeNatalChart lat lon birthDateTime))
            "moon"
  = Some (planetPosition "MOON" 1 (toJulianDay birthDateTime)
            (calculateAyanamsa (toJulianDay birthDateTime))).
Proof. rewrite computeNatalChart_planets. reflexivity. Qed.

(** X25.  For valid birth data with a time of birth, and a birth between
    the epoch J2000 and 100 Julian centuries later, [generateKundli] always
    completes the Vedic block: chart, divisional charts and dasa data are
    set, [hasVedicChart] is true and the confidence is "high". *)
Theorem generateKundli_in_range (now : JS.Date.t)
    (latitude longitude : Q) (dateOfBirth timeOfBirth : string)
    (birthDateTime : JS.Date.t) :
  validateBirthData latitude longitude dateOfBirth timeOfBirth = true ->
  timeOfBirth <> "" ->
  (946728000000 <= JS.Date.getTime birthDateTime <= 316522728000000)%Z ->
  exists dasha,
    generateKundli now latitude longitude dateOfBirth (Some timeOfBirth)
                   birthDateTime
    = Some {| natalChart :=
                Some (computeNatalChart latitude longitude birthDateTime);
              vargaCharts :=
                Some (computeVargas
                        (computeNatalChart latitude longitude birthDateTime));
              dashaData := Some dasha;
              hasVedicChart := true;
              confidence := "high" |}.
Proof.
  intros Hv Ht Hr. unfold generateKundli. cbv zeta.
  rewrite Hv. cbn [negb].
  destruct (String.eqb_spec timeOfBirth "") as [E | _]; [contradiction | ].
  rewrite moon_entry.
  pose proof (centuries_bounds (toJulianDay_bounds _ Hr)) as HT.
  pose proof (planetPosition_wellPlaced "MOON" 1 HT) as ([H0 _] & _).
  pose proof (@computeVimshottariDasa_nonneg now _ H0) as Hd.
  destruct (computeVimshottariDasa now _) as [dasha | ];
    [ | contradiction].
  exists dasha. reflexivity.
Qed.

Lemma generateKundli_in_range_witness :
  exists dasha,
    generateKundli (JS.Date.at_ 2024 0 15 8 0 0) 28.6 77.2 "2010-05-15"
                   (Some "10:30") (JS.Date.at_ 2010 4 15 10 30 0)
    = Some {| natalChart :=
                Some (computeNatalChart 28.6 77.2
                        (JS.Date.at_ 2010 4 15 10 30 0));
              vargaCharts :=
                Some (computeVargas
                        (computeNatalChart 28.6 77.2
                           (JS.Date.at_ 2010 4 15 10 30 0)));
              dashaData := Some dasha;
              hasVedicChart := true;
              confidence := "high" |}.
Proof.
  apply (@generateKundli_in_range (JS.Date.at_ 2024 0 15 8 0 0)
           28.6 77.2 "2010-05-15" "10:30" (JS.Date.at_ 2010 4 15 10 30 0)).
  - vm_compute. reflexivity.
  - discriminate.
  - vm_compute. split; discriminate.
Defined.


End KundliFacts.

(** ** Category scores and labels *)

Module ServiceFacts.

Import Numerology CompatibilityService DateNotions.
Local Open Scope Q_scope.

(** The floor of a fraction of integers is their quotient. *)
Lemma Qfloor_fraction (x : Q) (n : Z) (d : positive) :
  x == inject_Z n / inject_Z (Zpos d) -> Qfloor x = (n / Zpos d)%Z.
Proof.
  intro E. rewrite (Qfloor_comp _ _ E), <- Qmake_Qdiv. reflexivity.
Qed.

Lemma round_pair (k1 k2 : Z) :
  JS.Math_round (((1 - inject_Z k1 / 8) + (1 - inject_Z k2 / 8)) * 50)
  = ((402 - 25 * (k1 + k2)) / 4)%Z.
Proof.
  unfold JS.Math_round. apply Qfloor_fraction.
  unfold Z.sub. rewrite inject_Z_plus, inject_Z_opp, inject_Z_mult,
                  inject_Z_plus.
  generalize (inject_Z k1), (inject_Z k2). intros q1 q2.
  unfold Qdiv. change (/ 8) with (1 # 8). change (/ inject_Z 4) with (1 # 4).
  unfold inject_Z. lra.
Qed.

Lemma round_single (k : Z) (bonus : Q) (b : Z) :
  bonus * 100 == inject_Z b ->
  JS.Math_round ((1 - inject_Z k / 8 + bonus) * 100)
  = (100 + b - (25 * k) / 2)%Z.
Proof.
  intro Eb. unfold JS.Math_round.
  rewrite (@Qfloor_fraction _ (201 + 2 * b - 25 * k) 2).
  - Z.div_mod_to_equations. lia.
  - unfold Z.sub. rewrite !inject_Z_plus, inject_Z_opp, !inject_Z_mult.
    revert Eb. generalize (inject_Z k), (inject_Z b). intros q qb Eb.
    unfold Qdiv. change (/ 8) with (1 # 8). change (/ inject_Z 2) with (1 # 2).
    unfold inject_Z. lra.
Qed.

Lemma legacy_score (a b : Z) :
  calculateCompatibilityScore a b = (100 - (25 * Z.abs (a - b)) / 2)%Z.
Proof.
  unfold calculateCompatibilityScore, JS.Math_abs. cbv zeta.
  replace (100 - 25 * Z.abs (a - b) / 2)%Z
    with (100 + 0 - 25 * Z.abs (a - b) / 2)%Z by lia.
  rewrite <- (@round_single (Z.abs (a - b)) 0 0) by reflexivity.
  apply ScoreFacts.Math_round_wd. ring.
Qed.

(** X28.  The category scores in terms of the legacy score: career,
    family, communication, spiritual and lifestyle are
    [calculateCompatibilityScore] of the two expression, personality,
    personality, soul urge and birthday numbers; love and marriage are
    floor((402 - 25 (|d1| + |d2|)) / 4) of the two differences they
    combine; financial exceeds 100, a percentage no more, exactly when the
    life path numbers are equal, and is 110 then; the scores do not depend
    on the order of the persons nor on the chart. *)
Theorem generateCategoryScores_relations
    (person1 person2 : NumerologyCalculation)
    (vedicChart vedicChart' : option Ephemeris.NatalChart) :
  let scores := generateCategoryScores person1 person2 vedicChart in
  career scores
  = calculateCompatibilityScore (expressionNumber person1)
                                (expressionNumber person2)
  /\ family scores
     = calculateCompatibilityScore (personalityNumber person1)
                                   (personalityNumber person2)
  /\ communication scores = family scores
  /\ spiritual scores
     = calculateCompatibilityScore (soulUrgeNumber person1)
                                   (soulUrgeNumber person2)
  /\ lifestyle scores
     = calculateCompatibilityScore (birthdayNumber person1)
                                   (birthdayNumber person2)
  /\ ((100 < financial scores)%Z
      <-> lifePathNumber person1 = lifePathNumber person2)
  /\ (lifePathNumber person1 = lifePathNumber person2 ->
      financial scores = 110%Z)
  /\ love scores
     = ((402 - 25 * (Z.abs (lifePathNumber person1 - lifePathNumber person2)
                     + Z.abs (soulUrgeNumber person1
                              - soulUrgeNumber person2))) / 4)%Z
  /\ marriage scores
     = ((402 - 25 * (Z.abs (lifePathNumber person1 - lifePathNumber person2)
                     + Z.abs (expressionNumber person1
                              - expressionNumber person2))) / 4)%Z
  /\ generateCategoryScores person2 person1 vedicChart' = scores.
Proof.
  cbv zeta.
  assert (Efin : financial (generateCategoryScores person1 person2 vedicChart)
                 = (calculateCompatibilityScore (lifePathNumber person1)
                      (lifePathNumber person2) + 10)%Z).
  { rewrite legacy_score.
    cbn [financial generateCategoryScores]. unfold JS.Math_abs.
    rewrite (@round_single _ 0.1 10) by reflexivity. lia. }
  split; [reflexivity | ]. split; [reflexivity | ]. split; [reflexivity | ].
  split; [reflexivity | ]. split; [reflexivity | ].
  split; [ | split; [ | split; [ | split]]].
  - rewrite Efin, legacy_score.
    pose proof (Z.abs_nonneg (lifePathNumber person1 - lifePathNumber person2)).
    assert (Hz : Z.abs (lifePathNumber person1 - lifePathNumber person2) = 0%Z
                 <-> lifePathNumber person1 = lifePathNumber person2) by lia.
    revert H Hz.
    generalize (Z.abs (lifePathNumber person1 - lifePathNumber person2)).
    intros k H Hz. rewrite <- Hz. Z.div_mod_to_equations. lia.
  - intro E. rewrite Efin, legacy_score, E, Z.sub_diag. reflexivity.
  - cbn [love generateCategoryScores]. apply round_pair.
  - cbn [marriage generateCategoryScores]. apply round_pair.
  - assert (C : forall a b : Z, Z.abs (a - b) = Z.abs (b - a))
      by (intros; lia).
    unfold generateCategoryScores, JS.Math_abs.
    rewrite (C (lifePathNumber person2)), (C (soulUrgeNumber person2)),
      (C (expressionNumber person2)), (C (personalityNumber person2)),
      (C (birthdayNumber person2)).
    reflexivity.
Qed.

(** *** The category labels *)

Lemma firstWord_labels :
  firstWord labelExcellent = "Excellent"%string
  /\ firstWord labelGood = "Good"%string
  /\ firstWord labelAverage = "Average"%string
  /\ firstWord labelChallenging = "Challenging"%string
  /\ firstWord historyExcellent = "Excellent"%string
  /\ firstWord historyGood = "Good"%string
  /\ firstWord historyAverage = "Average"%string
  /\ firstWord historyChallenging = "Challenging"%string.
Proof. repeat split; reflexivity. Qed.

(** X27.  The label [getCategoryFromScore] gives a stored score in the
    history and the label [calculateAdvancedCompatibility] gave it name the
    same category except for the scores 80..84, 65..69 and 50..54, where
    the history shows the next lower category; and the two labels are never
    the same string. *)
Theorem getCategoryFromScore_categorize (score : Z) :
  (firstWord (getCategoryFromScore score) = firstWord (categorize score)
   <-> ~ ((80 <= score < 85) \/ (65 <= score < 70) \/ (50 <= score < 55))%Z)
  /\ getCategoryFromScore score <> categorize score.
Proof.
  destruct firstWord_labels as (L1 & L2 & L3 & L4 & L5 & L6 & L7 & L8).
  unfold getCategoryFromScore, categorize.
  destruct (Z.leb_spec 85 score); destruct (Z.leb_spec 80 score);
    destruct (Z.leb_spec 70 score); destruct (Z.leb_spec 65 score);
    destruct (Z.leb_spec 55 score); destruct (Z.leb_spec 50 score);
    try (exfalso; lia);
    rewrite ?L1, ?L2, ?L3, ?L4, ?L5, ?L6, ?L7, ?L8;
    (split;
     [ split; [ first [ intros _; lia | intro X; discriminate X ]
              | first [ intros _; reflexivity | intro X; exfalso; lia ] ]
     | intro X; vm_compute in X; discriminate X ]).
Qed.

End ServiceFacts.

(** ** The client's nakshatra *)

Module VedicUtilsFacts.

Import VedicUtils DateNotions DateFacts.
Local Open Scope string_scope.

(** X29.  [getNakshatra] of the client always returns a name of the
    table, never [undefined]: the hash of a date lies in 1..372. *)
Theorem getNakshatra_defined (date : JS.Date.t) :
  exists name,
    getNakshatra date = Some name
    /\ In name Ephemeris.NAKSHATRAS
    /\ (1 <= JS.Date.getDate date + JS.Date.getMonth date * 31 <= 372)%Z.
Proof.
  unfold getNakshatra, JS.Date.getDate, JS.Date.getMonth. cbv zeta.
  pose proof (civil_valid (JS.Date.getTime date / JS.Date.msPerDay))
    as [Hm Hd].
  assert (Hl : (monthLength
                  (fst (fst (JS.Date.civil
                               (JS.Date.getTime date / JS.Date.msPerDay))))
                  (snd (fst (JS.Date.civil
                               (JS.Date.getTime date / JS.Date.msPerDay)))
                   + 1) <= 31)%Z).
  { unfold monthLength. destruct (_ =? 2)%Z; [destruct (leapYear _); lia | ].
    destruct (_ || _); lia. }
  revert Hm Hd Hl.
  generalize (monthLength
                (fst (fst (JS.Date.civil
                             (JS.Date.getTime date / JS.Date.msPerDay))))
                (snd (fst (JS.Date.civil
                             (JS.Date.getTime date / JS.Date.msPerDay))) + 1)).
  generalize (snd (fst (JS.Date.civil
                          (JS.Date.getTime date / JS.Date.msPerDay)))),
    (snd (JS.Date.civil (JS.Date.getTime date / JS.Date.msPerDay))).
  intros m d len Hm Hd Hl.
  assert (Hh : (1 <= d + m * 31 <= 372)%Z) by lia.
  change (Z.of_nat (List.length _)) with 27%Z.
  unfold JS.remZ. rewrite Z.rem_mod_nonneg by lia.
  pose proof (Z.mod_pos_bound (d + m * 31) 27 eq_refl) as Hb.
  revert Hb. generalize ((d + m * 31) mod 27)%Z. intros i Hb.
  assert (E : In i [0;1;2;3;4;5;6;7;8;9;10;11;12;13;14;15;16;17;18;19;20;
                    21;22;23;24;25;26]%Z) by (cbn; lia).
  cbn in E.
  repeat (destruct E as [E | E];
          [subst i; eexists; split; [reflexivity | ];
           split; [cbn; tauto | exact Hh] | ]).
  contradiction.
Qed.

End VedicUtilsFacts.
